(** * Alecto: the tool-call orchestration engine

    A shallow embedding of [ToolManager.ts], [ChatManager.ts] and
    [toolTypes.ts], and the properties of the orchestration loop that the
    specification states about them.

    Layout: the JavaScript values the code manipulates ([JS]), the data
    types of the three files ([Types]), the effects they perform
    ([Runtime]), then one module per source file, then the properties. *)

From Stdlib Require Import String Ascii List ZArith NArith Lia DecimalString QArith_base Bool.
From stdpp Require Import base gmap strings.
Import ListNotations.
Close Scope Q_scope.
Open Scope string_scope.
Open Scope list_scope.

(* ================================================================== *)
(** * JavaScript values as the code uses them *)
(* ================================================================== *)

Module JS.

(** ** Strings.  A [string] stands for a JavaScript string in UTF-8, one
    [ascii] per byte.  ASCII text is modelled exactly; the bytes of
    other characters are carried along as they are, so [toLowerCase]
    does not change them and [Object.entries] lists them one by one. *)

Definition nl : string := String "010"%char EmptyString.

(** [s.includes(search)] *)
Fixpoint includes (s search : string) : bool :=
  if String.prefix search s then true
  else match s with
       | EmptyString => false
       | String _ rest => includes rest search
       end.

Definition lower_char (c : ascii) : ascii :=
  let n := N_of_ascii c in
  if ((65 <=? n) && (n <=? 90))%N then ascii_of_N (n + 32) else c.

(** [s.toLowerCase()], for ASCII text: the letters [A] to [Z] are
    lowered; the bytes of other characters are left as they are, where
    JavaScript lowers every cased letter, so the embedding is exact on
    the strings that [ascii_text] accepts. *)
Fixpoint toLowerCase (s : string) : string :=
  match s with
  | EmptyString => EmptyString
  | String c rest => String (lower_char c) (toLowerCase rest)
  end.

(** [s.replace(/[_-]/g, "")] *)
Fixpoint replace_separators (s : string) : string :=
  match s with
  | EmptyString => EmptyString
  | String c rest =>
      if (Ascii.eqb c "_" || Ascii.eqb c "-")%bool
      then replace_separators rest
      else String c (replace_separators rest)
  end.


(** A string is falsy exactly when it is empty. *)
Definition truthy (s : string) : bool := negb (s =? "").

(** [String(n)] for a non-negative integer. *)
Definition Number_toString (n : N) : string :=
  NilZero.string_of_uint (N.to_uint n).

(** ** Errors.  Only the message and [cause.code] are ever inspected. *)

Record JsError := mkError { message : string; cause_code : option string }.

Definition Error (msg : string) : JsError := mkError msg None.

Definition TypeError_nullish : JsError :=
  Error "Cannot convert undefined or null to object".

Inductive Result (A : Type) : Type :=
| Ok (a : A)
| Err (e : JsError).
Arguments Ok {A} a.
Arguments Err {A} e.

(** ** Ordinary objects: the own enumerable string-keyed properties, in
    the order [Object.keys] lists them (array indices ascending, then
    the other keys in creation order). *)

Definition Obj (A : Type) : Type := list (string * A).

Definition digit (c : ascii) : option N :=
  let n := N_of_ascii c in
  if ((48 <=? n) && (n <=? 57))%N then Some (n - 48)%N else None.

Fixpoint digits_value (acc : N) (s : string) : option N :=
  match s with
  | EmptyString => Some acc
  | String c rest =>
      match digit c with
      | Some d => digits_value (10 * acc + d)%N rest
      | None => None
      end
  end.

(** A key is an array index when it is the canonical decimal text of an
    integer in [0, 2^32 - 2]. *)
Definition array_index (k : string) : option N :=
  match k with
  | EmptyString => None
  | String c rest =>
      if Ascii.eqb c "0" then (if rest =? "" then Some 0%N else None)
      else match digits_value 0 k with
           | Some n => if (n <? 4294967295)%N then Some n else None
           | None => None
           end
  end.

Section Objects.
Context {A : Type}.

Fixpoint get_own (k : string) (o : Obj A) : option A :=
  match o with
  | [] => None
  | (k', v) :: rest => if k' =? k then Some v else get_own k rest
  end.

Definition has_own (k : string) (o : Obj A) : bool :=
  match get_own k o with Some _ => true | None => false end.

Definition Object_keys_of (o : Obj A) : list string := map fst o.

Fixpoint replace_own (k : string) (v : A) (o : Obj A) : Obj A :=
  match o with
  | [] => []
  | (k', v') :: rest =>
      if k' =? k then (k', v) :: rest else (k', v') :: replace_own k v rest
  end.

(** A new array-index key goes after the smaller indices. *)
Fixpoint insert_index (n : N) (k : string) (v : A) (o : Obj A) : Obj A :=
  match o with
  | [] => [(k, v)]
  | (k', v') :: rest =>
      match array_index k' with
      | Some m => if (m <? n)%N then (k', v') :: insert_index n k v rest
                  else (k, v) :: o
      | None => (k, v) :: o
      end
  end.

(** Creating or overwriting an own data property. *)
Definition define_own (k : string) (v : A) (o : Obj A) : Obj A :=
  if has_own k o then replace_own k v o
  else match array_index k with
       | Some n => insert_index n k v o
       | None => o ++ [(k, v)]
       end.

(** [o[k] = v] on an object created by [{}]: the key [__proto__] is
    the accessor inherited from [Object.prototype] and creates no own
    property; every other key is an own data property.  What the
    accessor does to the prototype is not part of the embedding: an
    object whose prototype was replaced through it is outside of it. *)
Definition set_prop (k : string) (v : A) (o : Obj A) : Obj A :=
  if k =? "__proto__" then o else define_own k v o.
End Objects.

(** Members that every [{}] inherits from [Object.prototype]. *)
Definition Object_prototype_methods : list string :=
  [ "__defineGetter__"; "__defineSetter__"; "hasOwnProperty";
    "__lookupGetter__"; "__lookupSetter__"; "isPrototypeOf";
    "propertyIsEnumerable"; "toString"; "valueOf"; "toLocaleString" ].

Definition inherited (k : string) : bool :=
  ((k =? "__proto__") || (k =? "constructor")
   || existsb (String.eqb k) Object_prototype_methods)%bool.

(** The property key that an inherited member turns into when it is
    itself used as a key ([o[member] = v]): a function gives its source
    text, as Node prints it for a built-in, and the prototype object
    gives ["[object Object]"]. *)
Definition inherited_as_key (k : string) : string :=
  if k =? "__proto__" then "[object Object]"
  else if k =? "constructor" then "function Object() { [native code] }"
  else "function " +:+ k +:+ "() { [native code] }".

(** ** JSON values.  A number is the rational it denotes. *)

#[local] Unset Elimination Schemes.
Inductive Json : Type :=
| JNull
| JBool (b : bool)
| JNum (x : Q)
| JStr (s : string)
| JArr (items : list Json)
| JObj (props : list (string * Json)).
#[local] Set Elimination Schemes.

Definition index_key (i : nat) : string := Number_toString (N.of_nat i).

Definition indexed {A : Type} (l : list A) : Obj A :=
  combine (map index_key (seq 0 (length l))) l.

Fixpoint characters (s : string) : list Json :=
  match s with
  | EmptyString => []
  | String c rest => JStr (String c EmptyString) :: characters rest
  end.

(** [Object.entries(x)]: throws on [null], lists the indices of arrays
    and strings, and nothing for numbers and booleans.  The entries of
    a string are one per byte, which are JavaScript's for ASCII text. *)
Definition Object_entries (x : Json) : Result (Obj Json) :=
  match x with
  | JNull => Err TypeError_nullish
  | JBool _ | JNum _ => Ok []
  | JStr s => Ok (indexed (characters s))
  | JArr items => Ok (indexed items)
  | JObj props => Ok props
  end.

(** [Object.keys(x)] *)
Definition Object_keys (x : Json) : Result (list string) :=
  match Object_entries x with
  | Ok es => Ok (map fst es)
  | Err e => Err e
  end.

(** ** Promises and timers, over a logical clock. *)

(** What awaiting a promise gives: it fulfils or rejects [t] time units
    after it was created, or it never settles. *)
Inductive Promise (A : Type) : Type :=
| Resolves (t : N) (a : A)
| Rejects (t : N) (e : JsError)
| Pending.
Arguments Resolves {A} t a.
Arguments Rejects {A} t e.
Arguments Pending {A}.

(** The delay [setTimeout] really uses: one time unit when the requested
    delay is below 1 or above 2^31 - 1. *)
Definition timer_delay (ms : Z) : N :=
  if ((ms <? 1) || (2147483647 <? ms))%Z then 1%N else Z.to_N ms.

(** [Promise.race([p, timer])] where [timer] rejects with [e] after
    [delay]: the first to settle wins; [timer_first] says who wins when
    both settle in the same time unit. *)
Definition race_with_timer {A : Type} (timer_first : bool)
    (p : Promise A) (delay : N) (e : JsError) : Result A :=
  let timer_wins (t : N) : bool :=
    ((delay <? t) || ((delay =? t) && timer_first))%N%bool in
  match p with
  | Resolves t a => if timer_wins t then Err e else Ok a
  | Rejects t e' => if timer_wins t then Err e else Err e'
  | Pending => Err e
  end.

(** ** Building objects and maps from entries *)

(** [Object.fromEntries(entries)]: every entry becomes an own data
    property, a later entry overwriting an earlier one with its key. *)
Definition Object_fromEntries {A : Type} (entries : list (string * A)) : Obj A :=
  fold_left (fun o '(k, v) => define_own k v o) entries [].

(** [map.set(k, v)] on a [Map] with string keys, listed in insertion
    order: the value of a present key is replaced where it is, a new
    key goes to the end. *)
Definition Map_set {A : Type} (k : string) (v : A) (m : list (string * A))
  : list (string * A) :=
  if has_own k m then replace_own k v m else m ++ [(k, v)].

End JS.

(* ================================================================== *)
(** * Data types of the three source files *)
(* ================================================================== *)

Module Types.
Import JS.

(** ** Tool results (the SDK's [CallToolResult]) *)

(** One content block: [type] and the optional [text]. *)
Record ContentBlock := mkBlock { block_type : string; block_text : option string }.

(** [result.content]: an array whose items are blocks or [null], or some
    other payload, of which the code observes only [String(payload)] and
    whether it is truthy. *)
Inductive Content : Type :=
| ContentArray (items : list (option ContentBlock))
| ContentOther (rendered : string) (is_truthy : bool).

Record CallToolResult := mkResult { result_content : Content }.

(** ** ToolManager.ts *)

Record InputSchema := mkSchema {
  schema_properties : option (Obj Json);
  schema_required : option (list string) }.

(** [McpTool]; a tool object that carries no [name] has [name = None]. *)
Record McpTool := mkMcpTool {
  name : option string;
  description : option string;
  inputSchema : option InputSchema }.

(** [OpenAiTool]: [function.name], [function.description],
    [function.parameters.properties] and [function.parameters.required];
    the constant tags ["function"] and ["object"] are left out. *)
Record OpenAiTool := mkOpenAiTool {
  fn_name : string;
  fn_description : string;
  properties : Obj Json;
  required : list string }.

(** An element of the array a provider answers [listTools] with, by its
    [typeof]: [null] and objects are ["object"], anything else is not. *)
Inductive RawTool : Type :=
| RawNull
| RawObject (t : McpTool)
| RawOther.

(** [toolsResponse?.tools]: missing or falsy, a truthy value that is not
    an array, or an array. *)
Inductive ToolsField : Type :=
| NoTools
| NotAnArray
| ToolArray (items : list RawTool).

(** A connected provider.  [callTool n name args] is the promise its
    [callTool({name, arguments: args})] returns when [n] provider calls
    were made before in the session; it may resolve with a nullish value
    ([None]). *)
Record Client := mkClient {
  client_id : nat;
  listTools : Result ToolsField;
  client_callTool : nat -> string -> Json -> Promise (option CallToolResult) }.

Record ToolManager := mkToolManager {
  toolMap : gmap (option string) Client;
  clients : list (string * Client);
  tools : list OpenAiTool }.

(** ** ChatManager.ts *)

Inductive Role : Type := system | user | assistant | tool.

(** A tool call of the model: [function.name] and [function.arguments],
    the latter a JSON text ([JStr]) or an already decoded value. *)
Record ToolCall := mkToolCall { call_name : string; call_arguments : Json }.

(** [OllamaMessage] (its optional [name], never read nor written, is
    left out). *)
Record OllamaMessage := mkMessage {
  role : Role;
  content : string;
  tool_calls : option (list ToolCall);
  tool_call_id : option string }.

(** The model: [chat n messages tools] is what [ollama.chat] answers
    with, or throws, when [n] requests were made before in the session. *)
Record Ollama := mkOllama {
  chat : nat -> list OllamaMessage -> list OpenAiTool -> Result OllamaMessage }.

End Types.

(* ================================================================== *)
(** * Effects: the transcript, the console, awaiting, exceptions *)
(* ================================================================== *)

Module Runtime.
Import JS Types.

(** What a session mutates or leaves behind: the transcript
    ([this.messages]), the lines written to the console, and how many
    requests were sent to the model and to the providers. *)
Record Session := mkSession {
  messages : list OllamaMessage;
  console : list string;
  model_calls : nat;
  provider_calls : nat }.

(** How an [async] function ends: it returns, it throws, or it awaits
    a promise that never settles; [OutOfFuel] is the embedding running
    out of the budget that bounds how deep the handler calls itself. *)
Inductive Completion (A : Type) : Type :=
| Normal (a : A)
| Throw (e : JsError)
| Hang
| OutOfFuel.
Arguments Normal {A} a.
Arguments Throw {A} e.
Arguments Hang {A}.
Arguments OutOfFuel {A}.

Definition M (A : Type) : Type := Session -> Completion A * Session.

Definition ret {A} (a : A) : M A := fun s => (Normal a, s).

Definition bind {A B} (m : M A) (k : A -> M B) : M B :=
  fun s =>
    match m s with
    | (Normal a, s') => k a s'
    | (Throw e, s') => (Throw e, s')
    | (Hang, s') => (Hang, s')
    | (OutOfFuel, s') => (OutOfFuel, s')
    end.

Definition throw {A} (e : JsError) : M A := fun s => (Throw e, s).

(** [try { m } catch (error) { handler error }] *)
Definition try_catch {A} (m : M A) (handler : JsError -> M A) : M A :=
  fun s =>
    match m s with
    | (Throw e, s') => handler e s'
    | other => other
    end.

Declare Scope js_scope.
Delimit Scope js_scope with js.
Notation "x <- m ;; k" := (bind m (fun x => k))
  (at level 100, m at next level, right associativity) : js_scope.
Notation "m ;; k" := (bind m (fun _ => k))
  (at level 100, right associativity) : js_scope.
Open Scope js_scope.

(** The session after one more line on the console, one more message,
    one message less, one more request to the model or to a provider. *)
Definition logged (line : string) (s : Session) : Session :=
  mkSession (messages s) (console s ++ [line]) (model_calls s) (provider_calls s).

Definition pushed (m : OllamaMessage) (s : Session) : Session :=
  mkSession (messages s ++ [m]) (console s) (model_calls s) (provider_calls s).

Definition popped (s : Session) : Session :=
  mkSession (removelast (messages s)) (console s) (model_calls s) (provider_calls s).

Definition model_called (s : Session) : Session :=
  mkSession (messages s) (console s) (S (model_calls s)) (provider_calls s).

Definition provider_called (s : Session) : Session :=
  mkSession (messages s) (console s) (model_calls s) (S (provider_calls s)).

(** [console.log], [console.warn], [console.error] and [console.debug]:
    one line each, the text of the first argument followed, where an
    error is printed after it, by the error's message; other values
    printed after the text are left out. *)
Definition log (line : string) : M unit :=
  fun s => (Normal tt, logged line s).

(** [this.messages.push(m)] *)
Definition push (m : OllamaMessage) : M unit :=
  fun s => (Normal tt, pushed m s).

(** [this.messages.pop()] *)
Definition pop : M unit :=
  fun s => (Normal tt, popped s).

Definition of_result {A} (r : Result A) : M A :=
  match r with
  | Ok a => ret a
  | Err e => throw e
  end.

(** [await p] *)
Definition await {A} (p : Promise A) : M A :=
  match p with
  | Resolves _ a => ret a
  | Rejects _ e => throw e
  | Pending => fun s => (Hang, s)
  end.

(** [await this.ollama.chat({model, messages: this.messages, tools})] *)
Definition ollama_chat (o : Ollama) (tools : list OpenAiTool) : M OllamaMessage :=
  fun s =>
    match chat o (model_calls s) (messages s) tools with
    | Ok m => (Normal m, model_called s)
    | Err e => (Throw e, model_called s)
    end.

(** The promise of [client.callTool({name, arguments})]. *)
Definition provider_call (c : Client) (tool_name : string) (args : Json)
  : M (Promise (option CallToolResult)) :=
  fun s =>
    (Normal (client_callTool c (provider_calls s) tool_name args), provider_called s).

(** A computation that leaves the transcript and the count of model
    requests as they were. *)
Definition quiet {A : Type} (m : M A) : Prop :=
  forall s, messages (snd (m s)) = messages s
            /\ model_calls (snd (m s)) = model_calls s.

(** [err.cause?.code === "ECONNREFUSED"] *)
Definition is_ECONNREFUSED (e : JsError) : bool :=
  match cause_code e with
  | Some code => code =? "ECONNREFUSED"
  | None => false
  end.

(** The second session continues the first: transcript and console are
    extended at the end and no count went down. *)
Definition advances (s s' : Session) : Prop :=
  (exists more, messages s' = messages s ++ more)
  /\ (exists lines, console s' = console s ++ lines)
  /\ model_calls s <= model_calls s'
  /\ provider_calls s <= provider_calls s'.

(** A computation that only ever adds to the session. *)
Definition growing {A : Type} (m : M A) : Prop :=
  forall s, advances s (snd (m s)).

End Runtime.

(* ================================================================== *)
(** * toolTypes.ts *)
(* ================================================================== *)

Module toolTypes.
Import JS Types.

(** [item && item.type === "text"] *)
Definition is_text_item (item : option ContentBlock) : bool :=
  match item with
  | Some b => block_type b =? "text"
  | None => false
  end.

(** [item.text || "No content"] *)
Definition item_text (item : option ContentBlock) : string :=
  match item with
  | Some (mkBlock _ (Some t)) => if truthy t then t else "No content"
  | _ => "No content"
  end.

Definition formatToolResponse (responseContent : Content) : string :=
  match responseContent with
  | ContentArray items =>
      String.concat nl (map item_text (filter is_text_item items))
  | ContentOther rendered _ => rendered
  end.

End toolTypes.

(* ================================================================== *)
(** * ToolManager.ts *)
(* ================================================================== *)

Module ToolManager.
Import JS Types Runtime.

(** [new ToolManager()] *)
Definition new_ToolManager : ToolManager := mkToolManager ∅ [] [].

(** ** The catalog *)

(** [!tool.name] is false: the name is present and not empty. *)
Definition has_name (t : McpTool) : bool :=
  match name t with
  | Some n => truthy n
  | None => false
  end.

Definition to_openai (t : McpTool) : OpenAiTool :=
  mkOpenAiTool
    (match name t with Some n => n | None => "" end)
    (match description t with Some d => d | None => "" end)
    (match inputSchema t with
     | Some (mkSchema (Some props) _) => props
     | _ => []
     end)
    (match inputSchema t with
     | Some (mkSchema _ (Some req)) => req
     | _ => []
     end).

Fixpoint warn_each (line : string) (n : nat) : M unit :=
  match n with
  | O => ret tt
  | S n' => log line ;; warn_each line n'
  end.

(** The filter warns about every tool without a name as it drops it;
    the map then converts the ones that are kept. *)
Definition convertToOpenaiTools (ts : list McpTool) : M (list OpenAiTool) :=
  warn_each "Tool missing name:" (length (filter (fun t => negb (has_name t)) ts)) ;;
  ret (map to_openai (filter has_name ts)).

(** [typeof tool === "object"] holds of objects and of [null]. *)
Definition as_object (r : RawTool) : option (option McpTool) :=
  match r with
  | RawNull => Some None
  | RawObject t => Some (Some t)
  | RawOther => None
  end.

Fixpoint all_objects (items : list RawTool) : option (list (option McpTool)) :=
  match items with
  | [] => Some []
  | r :: rest =>
      match as_object r, all_objects rest with
      | Some o, Some os => Some (o :: os)
      | _, _ => None
      end
  end.

(** The tools of one provider, or [None] ([null]) when the request fails
    or the answer is not an array of objects. *)
Definition fetchTools (client : Client) : M (option (list (option McpTool))) :=
  match listTools client with
  | Err e => log ("Error fetching tools: " +:+ message e) ;; ret None
  | Ok NoTools => ret (Some [])
  | Ok NotAnArray => log "Invalid tools format received." ;; ret None
  | Ok (ToolArray items) =>
      match all_objects items with
      | Some objs => ret (Some objs)
      | None => log "Invalid tools format received." ;; ret None
      end
  end.

(** [for (const tool of mcpTools) this.toolMap.set(tool.name, client)];
    reading [name] off a [null] element throws. *)
Fixpoint register (client : Client) (mcpTools : list (option McpTool))
    (m : gmap (option string) Client) : Result (gmap (option string) Client) :=
  match mcpTools with
  | [] => Ok m
  | Some t :: rest => register client rest (<[name t := client]> m)
  | None :: _ => Err (Error "Cannot read properties of null (reading 'name')")
  end.

Fixpoint objects (mcpTools : list (option McpTool)) : list McpTool :=
  match mcpTools with
  | [] => []
  | Some t :: rest => t :: objects rest
  | None :: rest => objects rest
  end.

(** The loop of [initialize] over [this.clients.entries()], threading
    [allMcpTools] and [this.toolMap]. *)
Fixpoint collect (cs : list (string * Client)) (allMcpTools : list McpTool)
    (m : gmap (option string) Client)
  : M (list McpTool * gmap (option string) Client) :=
  match cs with
  | [] => ret (allMcpTools, m)
  | (_, client) :: rest =>
      mcpTools <- fetchTools client ;;
      match mcpTools with
      | Some ts =>
          m' <- of_result (register client ts m) ;;
          collect rest (allMcpTools ++ objects ts) m'
      | None => collect rest allMcpTools m
      end
  end.

(** [initialize()], given the clients [createMcpClients()] connected, in
    the order of the configuration. *)
Definition initialize (this : ToolManager) (newClients : list (string * Client))
  : M ToolManager :=
  match newClients with
  | [] => throw (Error "No MCP clients loaded.")
  | _ =>
      r <- collect newClients [] (toolMap this) ;;
      let '(allMcpTools, m) := r in
      ts <- convertToOpenaiTools allMcpTools ;;
      ret (mkToolManager m newClients ts)
  end.

(** ** Parameter reconciliation *)

Definition getToolParameterInfo (this : ToolManager) (toolName : string)
  : option OpenAiTool :=
  find (fun t => fn_name t =? toolName) (tools this).

(** [s.toLowerCase().replace(/[_-]/g, "")] *)
Definition normalize (s : string) : string :=
  replace_separators (toLowerCase s).

Definition findMostSimilarParameter (provided : string) (expected : list string)
  : option string :=
  let normalized := normalize provided in
  find (fun param =>
          let normalizedExpected := normalize param in
          (includes normalizedExpected normalized
           || includes normalized normalizedExpected)%bool)
       expected.

(** One round of the loop over [Object.keys(providedArgs)]. *)
Definition suggest_step (expectedParams : list string)
    (mapping : Obj string) (providedParam : string) : Obj string :=
  if existsb (String.eqb providedParam) expectedParams then mapping
  else match findMostSimilarParameter providedParam expectedParams with
       | Some mostSimilar =>
           if truthy mostSimilar then set_prop providedParam mostSimilar mapping
           else mapping
       | None => mapping
       end.

Definition suggestParameterMapping (this : ToolManager) (toolName : string)
    (providedArgs : Json) : Result (Obj string) :=
  match getToolParameterInfo this toolName with
  | None => Ok []
  | Some t =>
      let expectedParams := Object_keys_of (properties t) in
      match Object_keys providedArgs with
      | Err e => Err e
      | Ok ks => Ok (fold_left (suggest_step expectedParams) ks [])
      end
  end.

(** ** Execution *)

Section Execution.
(** [JSON.parse]: the decoded value, or the [SyntaxError] it throws. *)
Variable JSON_parse : string -> Result Json.
(** Whether the timer wins a race when both settle in the same time
    unit. *)
Variable timer_first : bool.

(** [callTool(toolName, args)]: no timeout, and [undefined] ([None])
    instead of an exception. *)
Definition callTool (this : ToolManager) (toolName : string) (args : Json)
  : M (option CallToolResult) :=
  match toolMap this !! Some toolName with
  | None =>
      log ("Tool '" +:+ toolName +:+ "' not found among available tools.") ;;
      ret None
  | Some clientForTool =>
      try_catch
        (p <- provider_call clientForTool toolName args ;;
         await p)
        (fun error =>
           log ("Error calling tool '" +:+ toolName +:+ "': " +:+ message error) ;;
           ret None)
  end.

(** The argument normalisation at the head of [callToolWithTimeout]. *)
Definition parsedArgs_of (args : Json) : Json :=
  match args with
  | JStr s =>
      match JSON_parse s with
      | Ok v => v
      | Err _ => JObj [("value", JStr s)]
      end
  | JObj _ | JArr _ => args
  | JNull | JBool _ | JNum _ => JObj []
  end.

Definition default_timeoutMs : Z := 30000.

(** The error of the timer.  The delay is an integer, printed in
    decimal as JavaScript prints a number below 10^21. *)
Definition timeout_error (timeoutMs : Z) : JsError :=
  Error ("Tool call timed out after "
         +:+ NilZero.string_of_int (Z.to_int timeoutMs) +:+ "ms").

Definition callToolWithTimeout (client : Client) (tool_name : string)
    (args : Json) (timeout : option Z) : M (option CallToolResult) :=
  let timeoutMs := match timeout with Some ms => ms | None => default_timeoutMs end in
  let parsedArgs := parsedArgs_of args in
  toolCallPromise <- provider_call client tool_name parsedArgs ;;
  match race_with_timer timer_first toolCallPromise (timer_delay timeoutMs)
                        (timeout_error timeoutMs) with
  | Ok result => ret result
  | Err error => throw (Error ("Tool call failed: " +:+ message error))
  end.

(** [parseToolCall]: a JSON text that does not decode is reported and
    the error thrown again. *)
Definition parseToolCall (toolCall : ToolCall) : M (string * Json) :=
  if negb (truthy (call_name toolCall))
  then throw (Error "Invalid tool call format provided.")
  else
    let toolName := call_name toolCall in
    match call_arguments toolCall with
    | JStr rawArguments =>
        match JSON_parse rawArguments with
        | Ok toolArgs => ret (toolName, toolArgs)
        | Err error =>
            log ("Error parsing arguments string: " +:+ message error) ;;
            throw error
        end
    | rawArguments => ret (toolName, rawArguments)
    end.

(** [result?.content || []] *)
Definition content_or_empty (result : option CallToolResult) : Content :=
  match result with
  | Some (mkResult (ContentOther _ false)) => ContentArray []
  | Some (mkResult c) => c
  | None => ContentArray []
  end.

Definition executeToolCall (this : ToolManager) (toolCall : ToolCall) : M string :=
  parsed <- parseToolCall toolCall ;;
  let '(tool_name, args) := parsed in
  match toolMap this !! Some tool_name with
  | None => throw (Error ("Tool '" +:+ tool_name +:+ "' not found"))
  | Some client =>
      result <- callToolWithTimeout client tool_name args None ;;
      ret (toolTypes.formatToolResponse (content_or_empty result))
  end.
End Execution.

(** ** Starting the providers *)

(** [ServerConfig] of [config.ts]. *)
Record ServerConfig := mkServerConfig {
  command : string;
  args : option (list string);
  env : option (Obj string);
  cwd : option string }.

Definition DEFAULT_INHERITED_ENV_VARS : list string :=
  ["HOME"; "LOGNAME"; "PATH"; "SHELL"; "TERM"; "USER"].

(** The entries of [process.env] that [getDefaultEnvironment] keeps: an
    inherited name, a value that is defined and does not start with
    ["()"]. *)
Definition inherited_entry (entry : string * option string) : list (string * string) :=
  match entry with
  | (key, Some value) =>
      if (existsb (String.eqb key) DEFAULT_INHERITED_ENV_VARS
          && negb (String.prefix "()" value))%bool
      then [(key, value)] else []
  | (_, None) => []
  end.

Definition getDefaultEnvironment (process_env : Obj (option string)) : Obj string :=
  Object_fromEntries (flat_map inherited_entry process_env).

Definition alternatives : list string :=
  ["node"; "npx"; "npm"; "python"; "uvx"; "pip"].

Definition warning_sign : string :=
  String "226"%char (String "154"%char (String "160"%char
    (String "239"%char (String "184"%char (String "143"%char EmptyString))))).

Section Startup.
(** [validateCommand]: whether [which command] succeeds. *)
Variable validateCommand : string -> bool.
(** [process.env] *)
Variable process_env : Obj (option string).
(** Creating the transport and the client of a server and connecting
    them, from the server name, the resolved command, the arguments and
    the environment: the connected client, or the error thrown. *)
Variable connect : string -> string -> list string -> Obj string -> Result Client.

Definition resolveCommand (cmd : string) : M string :=
  if validateCommand cmd then ret cmd
  else match find validateCommand alternatives with
       | Some alt =>
           log (warning_sign +:+ " Original command '" +:+ cmd
                +:+ "' not found, using '" +:+ alt +:+ "' instead") ;;
           ret alt
       | None =>
           throw (Error ("Could not resolve command '" +:+ cmd
                         +:+ "'. Please ensure it's installed and in your PATH."))
       end.

(** The loop of [createMcpClients] over [Object.entries(config.mcpServers)],
    threading the map [clients]. *)
Fixpoint connect_each (servers : Obj ServerConfig) (connected : list (string * Client))
  : M (list (string * Client)) :=
  match servers with
  | [] => ret connected
  | (serverName, serverConfig) :: rest =>
      resolvedCommand <- resolveCommand (command serverConfig) ;;
      client <- of_result
                  (connect serverName resolvedCommand
                           (match args serverConfig with Some a => a | None => [] end)
                           (match env serverConfig with
                            | Some e => e
                            | None => getDefaultEnvironment process_env
                            end)) ;;
      connect_each rest (Map_set serverName client connected)
  end.

Definition createMcpClients (mcpServers : Obj ServerConfig)
  : M (list (string * Client)) :=
  connect_each mcpServers [].

(** [initialize()] as the source has it: the clients are those that
    [createMcpClients()] connects. *)
Definition initialize_from (this : ToolManager) (mcpServers : Obj ServerConfig)
  : M ToolManager :=
  newClients <- createMcpClients mcpServers ;;
  initialize this newClients.
End Startup.

End ToolManager.

(* ================================================================== *)
(** * ChatManager.ts *)
(* ================================================================== *)

Module ChatManager.
Import JS Types Runtime.

(** The fields of a [ChatManager] that a session only reads; the
    transcript [this.messages] is in the [Session]. *)
Record ChatManager := mkChatManager {
  ollama : Ollama;
  toolManager : ToolManager }.

(** [message.tool_calls ?? []] *)
Definition tool_calls_of (m : OllamaMessage) : list ToolCall :=
  match tool_calls m with
  | Some calls => calls
  | None => []
  end.

(** [mappings[key] || key]: an own entry when it is not empty, else what
    [{}] inherits under that key, else the key itself. *)
Definition mappedKey (mappings : Obj string) (key : string) : string :=
  match get_own key mappings with
  | Some suggested => if truthy suggested then suggested else key
  | None => if inherited key then inherited_as_key key else key
  end.

Definition fixToolArguments (args : Json) (mappings : Obj string)
  : Result (Obj Json) :=
  match Object_entries args with
  | Err e => Err e
  | Ok entries =>
      Ok (fold_left
            (fun fixedArgs '(key, value) =>
               set_prop (mappedKey mappings key) value fixedArgs)
            entries [])
  end.

Definition arrow : string :=
  String "226"%char (String "134"%char (String "146"%char EmptyString)).

Definition createDetailedErrorMessage (toolName errorText : string)
    (toolInfo : option OpenAiTool) (_providedArgs : Json)
    (suggestedMappings : Obj string) : string :=
  let message := "Error using tool " +:+ toolName +:+ ":" +:+ nl
                 +:+ errorText +:+ nl +:+ nl in
  match toolInfo with
  | Some info =>
      message
      +:+ "Expected parameters:" +:+ nl
      +:+ "Required: " +:+ String.concat ", " (required info) +:+ nl
      +:+ "Available: " +:+ String.concat ", " (Object_keys_of (properties info))
      +:+ nl +:+ nl
      +:+ match suggestedMappings with
          | [] => ""
          | _ =>
              "Suggested parameter mappings:" +:+ nl
              +:+ String.concat ""
                    (map (fun '(provided, suggested) =>
                            "- " +:+ provided +:+ " " +:+ arrow +:+ " "
                            +:+ suggested +:+ nl)
                         suggestedMappings)
          end
  | None => message
  end.

(** The test of the batch handler on [result.content]: an array whose
    first item is a text block with ["Error"] in its text; gives that
    text. *)
Definition soft_failure (resultContent : Content) : option string :=
  match resultContent with
  | ContentArray (Some (mkBlock ty (Some text)) :: _) =>
      if ((ty =? "text") && includes text "Error")%bool then Some text else None
  | _ => None
  end.

(** The two [catch] blocks of the batch handler: a refused connection
    is thrown again, any other error is reported under [label] and
    absorbed. *)
Definition rethrow_if_refused (label : string) (error : JsError) : M unit :=
  if is_ECONNREFUSED error then throw error
  else log (label +:+ message error).

(** Whether the loop over the batch goes on to the next call or the
    handler has returned from inside it. *)
Inductive Flow : Type := Continue | Return.

Section Session.
(** [JSON.parse] and [JSON.stringify]. *)
Variable JSON_parse : string -> Result Json.
Variable JSON_stringify : Json -> string.
Variable this : ChatManager.

Definition parseToolArguments (args : Json) : M Json :=
  match args with
  | JStr text =>
      match JSON_parse text with
      | Ok v => ret v
      | Err e =>
          log ("Failed to parse tool arguments: " +:+ message e) ;;
          ret (JObj [("value", JStr text)])
      end
  | _ => ret args
  end.

(** Some new call differs from the failed one by name or by the text
    of its arguments. *)
Definition hasNewToolCalls (toolCall : ToolCall) (newToolCalls : list ToolCall)
  : bool :=
  existsb
    (fun call =>
       (negb (call_name call =? call_name toolCall)
        || negb (JSON_stringify (call_arguments call)
                 =? JSON_stringify (call_arguments toolCall)))%bool)
    newToolCalls.

(** Some new call names a tool that is not in the batch just handled. *)
Definition hasNewTools (toolCalls newToolCalls : list ToolCall) : bool :=
  let previousToolNames : gset string := list_to_set (map call_name toolCalls) in
  existsb (fun call => negb (bool_decide (call_name call ∈ previousToolNames)))
          newToolCalls.

Definition tool_message (toolName text : string) : OllamaMessage :=
  mkMessage tool text None (Some toolName).

(** The head of the loop body: the arguments are decoded, renamed and
    the tool is called. *)
Definition invoke (toolCall : ToolCall)
  : M (Json * Obj string * option CallToolResult) :=
  let toolName := call_name toolCall in
  args <- parseToolArguments (call_arguments toolCall) ;;
  log ("Using tool: " +:+ toolName) ;;
  parameterMappings <-
    of_result (ToolManager.suggestParameterMapping (toolManager this) toolName args) ;;
  fixedArgs <- of_result (fixToolArguments args parameterMappings) ;;
  result <- ToolManager.callTool (toolManager this) toolName (JObj fixedArgs) ;;
  ret (args, parameterMappings, result).

Section Handler.
(** The handler itself, for the batches it recurses into. *)
Variable handle : list ToolCall -> M unit.

(** The [try]/[catch] that follows a diagnostic message. *)
Definition recover (toolCall : ToolCall) : M unit :=
  try_catch
    (errorResponse <- ollama_chat (ollama this) (tools (toolManager this)) ;;
     push errorResponse ;;
     match tool_calls_of errorResponse with
     | [] => ret tt
     | newToolCalls =>
         if hasNewToolCalls toolCall newToolCalls then handle newToolCalls
         else log "There was an issue with the tool call. Trying again."
     end)
    (rethrow_if_refused "Error handling tool response: ").

(** The body of the loop over the batch, after the call itself. *)
Definition handle_result (toolCall : ToolCall) (args : Json)
    (parameterMappings : Obj string) (result : option CallToolResult)
  : M Flow :=
  let toolName := call_name toolCall in
  match result with
  | None => ret Continue
  | Some r =>
      match soft_failure (result_content r) with
      | Some errorText =>
          let toolInfo :=
            ToolManager.getToolParameterInfo (toolManager this) toolName in
          let errorMessage :=
            createDetailedErrorMessage toolName errorText toolInfo args
                                       parameterMappings in
          push (tool_message toolName errorMessage) ;;
          recover toolCall ;;
          ret Return
      | None =>
          push (tool_message toolName
                  (toolTypes.formatToolResponse (result_content r))) ;;
          ret Continue
      end
  end.

Definition handle_call (toolCall : ToolCall) : M Flow :=
  called <- invoke toolCall ;;
  let '(args, parameterMappings, result) := called in
  handle_result toolCall args parameterMappings result.

Fixpoint for_each_call (toolCalls : list ToolCall) : M Flow :=
  match toolCalls with
  | [] => ret Continue
  | toolCall :: rest =>
      flow <- handle_call toolCall ;;
      match flow with
      | Continue => for_each_call rest
      | Return => ret Return
      end
  end.

(** The [try]/[catch] after the loop. *)
Definition final_response (toolCalls : list ToolCall) : M unit :=
  try_catch
    (finalResponse <- ollama_chat (ollama this) (tools (toolManager this)) ;;
     push finalResponse ;;
     log ("Assistant: " +:+ content finalResponse) ;;
     match tool_calls_of finalResponse with
     | [] => ret tt
     | newToolCalls =>
         if hasNewTools toolCalls newToolCalls then handle newToolCalls
         else ret tt
     end)
    (rethrow_if_refused "Error getting final response: ").
End Handler.

(** [handleToolCalls]; [fuel] bounds how deep it may call itself. *)
Fixpoint handleToolCalls (fuel : nat) (toolCalls : list ToolCall) : M unit :=
  match fuel with
  | O => fun s => (OutOfFuel, s)
  | S fuel' =>
      log "Model is using tools to help answer..." ;;
      flow <- for_each_call (handleToolCalls fuel') toolCalls ;;
      match flow with
      | Return => ret tt
      | Continue => final_response (handleToolCalls fuel') toolCalls
      end
  end.

Definition processUserInput (fuel : nat) (userInput : string) : M unit :=
  push (mkMessage user userInput None None) ;;
  try_catch
    (response <- ollama_chat (ollama this) (tools (toolManager this)) ;;
     push response ;;
     match tool_calls_of response with
     | [] => log ("Assistant: " +:+ content response)
     | toolCalls => handleToolCalls fuel toolCalls
     end)
    (fun error => pop ;; throw error).
(** ** Starting a session and the loop over the user's lines *)

(** [testOllamaConnection]: one request with its own message and no
    tools; a refused connection becomes a plain error. *)
Definition testOllamaConnection : M unit :=
  fun s =>
    match chat (ollama this) (model_calls s) [mkMessage user "test" None None] [] with
    | Ok _ => (Normal tt, model_called s)
    | Err error =>
        if is_ECONNREFUSED error
        then (Throw (Error "Could not connect to Ollama server"), model_called s)
        else (Throw error, model_called s)
    end.

(** [initialize()], given the clients [createMcpClients()] connected:
    the catalog is built and the model is probed. *)
Definition initialize (newClients : list (string * Client)) : M ToolManager :=
  tm <- ToolManager.initialize (toolManager this) newClients ;;
  try_catch testOllamaConnection
    (fun error =>
       throw (Error ("Failed to connect to Ollama. Is Ollama running? Error: "
                     +:+ message error))) ;;
  ret tm.

(** What the prompt gives: a line, or the cancellation of the prompt. *)
Inductive Prompted : Type :=
| Line (text : string)
| Cancelled.

(** [getUserInput] *)
Definition getUserInput (result : Prompted) : string :=
  match result with
  | Line text => text
  | Cancelled => "exit"
  end.

Definition double_quote : string := String "034"%char EmptyString.

(** The [catch] around a turn in [start]. *)
Definition report_turn_error (err : JsError) : M unit :=
  if is_ECONNREFUSED err then
    log (nl +:+ "Error: Lost connection to Ollama server. Please ensure Ollama is running.") ;;
    log "You can:" ;;
    log "1. Start Ollama and type your message again" ;;
    log ("2. Type " +:+ double_quote +:+ "exit" +:+ double_quote +:+ " to quit" +:+ nl)
  else log ("Error processing input: " +:+ message err).

(** The [while (true)] of [start] over what the prompt gives, one after
    the other; with nothing more to read the loop waits for ever. *)
Fixpoint chat_loop (fuel : nat) (prompts : list Prompted) : M unit :=
  match prompts with
  | [] => fun s => (Hang, s)
  | result :: rest =>
      let userInput := getUserInput result in
      if toLowerCase userInput =? "exit" then ret tt
      else
        try_catch (processUserInput fuel userInput) report_turn_error ;;
        chat_loop fuel rest
  end.

(** [start()]; its [finally] block releases the connections of the
    providers, which are not part of the session, and is left out. *)
Definition start (fuel : nat) (prompts : list Prompted) : M unit :=
  try_catch
    (log ("Chat started. Type " +:+ double_quote +:+ "exit" +:+ double_quote
          +:+ " to end the conversation.") ;;
     chat_loop fuel prompts)
    (fun error => log ("Error: " +:+ message error)).
End Session.

End ChatManager.

(* ================================================================== *)
(** * The properties, in the words of the specification *)
(* ================================================================== *)

Module Spec.
Import JS Types Runtime.

(** [sub] occurs in [s] as a contiguous part. *)
Definition substring (sub s : string) : Prop :=
  exists before after, s = before +:+ sub +:+ after.






(** The key an entry ends under: the suggested key if there is one and
    it is not empty, else the original key. *)
Definition final_key (mappings : Obj string) (key : string) : string :=
  match get_own key mappings with
  | Some suggested => if suggested =? "" then key else suggested
  | None => key
  end.

(** The value of the last entry that ends under [k]. *)
Definition last_under (mappings : Obj string) (k : string) (entries : Obj Json)
  : option Json :=
  fold_left (fun found '(key, value) =>
               if final_key mappings key =? k then Some value else found)
            entries None.

(** The entries are in the order in which an object lists its own keys:
    no key twice, and an array index only after smaller indices. *)
Fixpoint listed_after {A : Type} (seen : list string) (entries : Obj A) : bool :=
  match entries with
  | [] => true
  | (k, _) :: rest =>
      (negb (existsb (String.eqb k) seen)
       && match array_index k with
          | Some n => forallb (fun k' => match array_index k' with
                                         | Some m => (m <? n)%N
                                         | None => false
                                         end) seen
          | None => true
          end
       && listed_after (seen ++ [k]) rest)%bool
  end.

Definition own_key_order {A : Type} (entries : Obj A) : bool :=
  listed_after [] entries.

(** Section 4.1: the tool list a provider contributes, empty when its
    answer is not a well-formed sequence of objects. *)
Definition accepted (c : Client) : list (option McpTool) :=
  match listTools c with
  | Ok (ToolArray items) =>
      match ToolManager.all_objects items with
      | Some objs => objs
      | None => []
      end
  | _ => []
  end.

Definition offered (c : Client) : list McpTool :=
  ToolManager.objects (accepted c).

Definition offers (n : option string) (c : Client) : bool :=
  existsb (fun t => bool_decide (name t = n)) (offered c).

(** The last provider, in the order of connection, that offers [n]. *)
Definition last_offering (n : option string) (cs : list (string * Client))
  : option Client :=
  fold_left (fun found entry => if offers n (snd entry) then Some (snd entry) else found)
            cs None.

(** Section 4.4, step 5: the handler is to run again when the name set
    of the new calls is not a strict subset of the names already tried. *)
Definition name_set (calls : list ToolCall) : gset string :=
  list_to_set (map call_name calls).

Definition claimed_to_recurse (tried newToolCalls : list ToolCall) : Prop :=
  ~ (name_set newToolCalls ⊂ name_set tried).

(** What a session shows for a turn that threw [err]: four lines about
    the lost connection when it was refused, else the message. *)
Definition reported (err : JsError) (s : Session) : Session :=
  mkSession
    (messages s)
    (console s
     ++ (if is_ECONNREFUSED err
         then [nl +:+ "Error: Lost connection to Ollama server. Please ensure Ollama is running.";
               "You can:";
               "1. Start Ollama and type your message again";
               "2. Type " +:+ String "034"%char ("exit" +:+ String "034"%char (" to quit" +:+ nl))]
         else ["Error processing input: " +:+ message err]))
    (model_calls s) (provider_calls s).

(** The first line of a session. *)
Definition chat_started : string :=
  "Chat started. Type " +:+ String "034"%char
    ("exit" +:+ String "034"%char " to end the conversation.").

Section Turns.
Variable JSON_parse : string -> Result Json.
Variable JSON_stringify : Json -> string.
Variable this : ChatManager.ChatManager.

(** One turn for each line, in order; a turn that throws is reported
    and the next line has its turn all the same. *)
Fixpoint turns (fuel : nat) (lines : list string) : M unit :=
  match lines with
  | [] => ret tt
  | text :: rest =>
      fun s =>
        match ChatManager.processUserInput JSON_parse JSON_stringify this fuel text s with
        | (Normal _, s1) => turns fuel rest s1
        | (Throw err, s1) => turns fuel rest (reported err s1)
        | other => other
        end
  end.
End Turns.

End Spec.

(* ================================================================== *)
(** * Concrete sessions for the examples *)
(* ================================================================== *)

Module Demo.
Import JS Types Runtime.

(** The schema of section 8: a tool [search] that declares [query]. *)
Definition search_tool : OpenAiTool :=
  mkOpenAiTool "search" "Search the web"
               [("query", JObj [("type", JStr "string")])] ["query"].

Definition search_catalog : ToolManager := mkToolManager ∅ [] [search_tool].

Definition text_result (text : string) : option CallToolResult :=
  Some (mkResult (ContentArray [Some (mkBlock "text" (Some text))])).

(** Two providers that both offer a tool named [search]. *)
Definition web_provider : Client :=
  mkClient 1
    (Ok (ToolArray [RawObject (mkMcpTool (Some "search") (Some "Search the web")
                                 (Some (mkSchema (Some [("query", JObj [])])
                                                 (Some ["query"]))))]))
    (fun _ _ _ => Resolves 5 (text_result "3 pages found")).

Definition docs_provider : Client :=
  mkClient 2
    (Ok (ToolArray [RawObject (mkMcpTool (Some "search") (Some "Search the documents")
                                 (Some (mkSchema (Some [("text", JObj [])])
                                                 (Some ["text"]))));
                    RawObject (mkMcpTool (Some "open") None None)]))
    (fun _ _ _ => Resolves 5 (text_result "2 documents found")).

Definition two_providers : list (string * Client) :=
  [("web", web_provider); ("docs", docs_provider)].

Definition empty_session : Session := mkSession [] [] 0 0.

(** A stand-in for [JSON.parse] in the examples: it decodes the texts
    of a table and rejects every other text.  The examples only decode
    texts of the table, and only reject texts that are not JSON. *)
Definition parse_known (known : Obj Json) (text : string) : Result Json :=
  match get_own text known with
  | Some v => Ok v
  | None => Err (Error ("Unexpected token in JSON: " +:+ text))
  end.

Definition JSON_parse : string -> Result Json :=
  parse_known [("{}", JObj []); ("[]", JArr []); ("null", JNull)].

Definition quoted (s : string) : string :=
  String "034"%char s +:+ String "034"%char EmptyString.

(** A stand-in for [JSON.stringify] in the examples: the text of
    objects, arrays, strings without escapes, booleans, [null] and
    integers; other numbers are printed as a fraction. *)
Fixpoint JSON_stringify (j : Json) : string :=
  match j with
  | JNull => "null"
  | JBool true => "true"
  | JBool false => "false"
  | JNum x =>
      NilZero.string_of_int (Z.to_int (Qnum x))
      +:+ (if (Qden x =? 1)%positive then ""
           else "/" +:+ NilZero.string_of_uint (Pos.to_uint (Qden x)))
  | JStr s => quoted s
  | JArr items => "[" +:+ String.concat "," (map JSON_stringify items) +:+ "]"
  | JObj props =>
      "{" +:+ String.concat ","
                (map (fun '(k, v) => quoted k +:+ ":" +:+ JSON_stringify v) props)
      +:+ "}"
  end.

(** A manager that dispatches [search] to the web provider. *)
Definition web_manager : ToolManager :=
  mkToolManager {[ Some "search" := web_provider ]} [("web", web_provider)]
                [search_tool].

(** A model that answers every request with a plain message. *)
Definition silent_model : Ollama :=
  mkOllama (fun _ _ _ => Ok (mkMessage assistant "Done." None None)).

(** A file provider: [read_file] answers with an error text, and
    [list_files] with two text blocks of which the second reports an
    error. *)
Definition list_files_tool : McpTool :=
  mkMcpTool (Some "list_files") (Some "List a directory")
            (Some (mkSchema (Some [("path", JObj [])]) (Some ["path"]))).

Definition read_file_tool : McpTool :=
  mkMcpTool (Some "read_file") (Some "Read a file")
            (Some (mkSchema (Some [("path", JObj [])]) (Some ["path"]))).

Definition listing : option CallToolResult :=
  Some (mkResult (ContentArray [Some (mkBlock "text" (Some "3 files found"));
                                Some (mkBlock "text" (Some "Error: one entry unreadable"))])).

Definition files_provider : Client :=
  mkClient 4
    (Ok (ToolArray [RawObject list_files_tool; RawObject read_file_tool]))
    (fun _ tool_name _ =>
       if tool_name =? "read_file" then Resolves 2 (text_result "Error: file not found")
       else Resolves 2 listing).

Definition files_manager : ToolManager :=
  mkToolManager
    (<[Some "read_file" := files_provider]> {[ Some "list_files" := files_provider ]})
    [("files", files_provider)]
    (map ToolManager.to_openai [list_files_tool; read_file_tool]).

Definition read_call : ToolCall :=
  mkToolCall "read_file" (JObj [("path", JStr "/nope")]).

Definition list_call : ToolCall :=
  mkToolCall "list_files" (JObj [("path", JStr "/")]).

Definition search_call : ToolCall :=
  mkToolCall "search" (JObj [("query", JStr "cats")]).

(** A model that asks for the same [read_file] call whatever it is told. *)
Definition stubborn_model : Ollama :=
  mkOllama (fun _ _ _ => Ok (mkMessage assistant "" (Some [read_call]) None)).

(** A model that asks for the same [search] call whatever it is told. *)
Definition searching_model : Ollama :=
  mkOllama (fun _ _ _ => Ok (mkMessage assistant "Let me search." (Some [search_call]) None)).

(** The error of a refused connection. *)
Definition connection_refused : JsError := mkError "fetch failed" (Some "ECONNREFUSED").

(** A model that asks for a [search] on the first two requests of the
    session and is unreachable afterwards. *)
Definition dropping_model : Ollama :=
  mkOllama (fun n _ _ =>
              if (n <=? 1)%nat then Ok (mkMessage assistant "" (Some [search_call]) None)
              else Err connection_refused).

(** A session with a transcript of three messages, after one turn. *)
Definition three_messages : Session :=
  mkSession [mkMessage system "You are a helpful AI assistant." None None;
             mkMessage user "hi" None None;
             mkMessage assistant "Hello!" None None]
            [] 1 0.

(** A provider whose [slow_tool] resolves after 500 time units. *)
Definition slow_provider : Client :=
  mkClient 3
    (Ok (ToolArray [RawObject (mkMcpTool (Some "slow_tool") None None)]))
    (fun _ _ _ => Resolves 500 (text_result "done")).



(** A provider whose tool list cannot be fetched, and one whose list
    holds a [null]. *)
Definition offline_provider : Client :=
  mkClient 5 (Err (Error "Connection closed")) (fun _ _ _ => Pending).

Definition careless_provider : Client :=
  mkClient 6
    (Ok (ToolArray [RawObject (mkMcpTool (Some "ping") None None); RawNull]))
    (fun _ _ _ => Pending).

(** A provider that never answers a call. *)
Definition stalled_manager : ToolManager :=
  mkToolManager {[ Some "ping" := careless_provider ]} [("careless", careless_provider)]
                [mkOpenAiTool "ping" "" [] []].

(** A configuration of two servers, a machine on which only the listed
    commands are installed, and a launcher that connects the web
    provider for the server [web] and the document provider for every
    other one. *)
Definition two_servers : Obj ToolManager.ServerConfig :=
  [("web", ToolManager.mkServerConfig "npx" (Some ["-y"; "web-server"]) None None);
   ("docs", ToolManager.mkServerConfig "uvx" None None None)].

Definition installed (available : list string) (cmd : string) : bool :=
  existsb (String.eqb cmd) available.

Definition launcher (serverName _ : string) (_ : list string) (_ : Obj string)
  : Result Client :=
  Ok (if serverName =? "web" then web_provider else docs_provider).



(** A manager with the tools of the file provider and [search]. *)
Definition both_manager : ToolManager :=
  mkToolManager
    (<[Some "search" := web_provider]>
       (<[Some "read_file" := files_provider]> {[ Some "list_files" := files_provider ]}))
    [("files", files_provider); ("web", web_provider)]
    (map ToolManager.to_openai [list_files_tool; read_file_tool] ++ [search_tool]).

(** A model that asks for [search] and for [list_files] in turn,
    beginning with [search]. *)
Definition alternating_model : Ollama :=
  mkOllama (fun n _ _ =>
              Ok (mkMessage assistant ""
                    (Some [if Nat.even n then search_call else list_call]) None)).

Definition alternating_chat : ChatManager.ChatManager :=
  ChatManager.mkChatManager alternating_model both_manager.

(** A model whose first answer of the session is an error. *)
Definition flaky_model : Ollama :=
  mkOllama (fun n _ _ =>
              match n with
              | O => Err (Error "model not found")
              | _ => Ok (mkMessage assistant "Done." None None)
              end).

(** An environment with a secret, a shell function and an unset name. *)
Definition shell_env : Obj (option string) :=
  [("HOME", Some "/home/u"); ("API_KEY", Some "secret"); ("PATH", Some "/usr/bin");
   ("SHELL", Some "() { :; }"); ("TERM", None)].

End Demo.

(* ================================================================== *)
(** * Facts about the JavaScript values *)
(* ================================================================== *)

Module JSFacts.
Import JS.

Ltac string_cases a b :=
  let E := fresh "E" in
  destruct (String.eqb_spec a b) as [E | E].

Section ObjectFacts.
Context {A : Type}.
Implicit Types (o : Obj A) (k : string) (v : A).

Lemma has_own_false_iff k o : has_own k o = false <-> get_own k o = None.
Proof. unfold has_own. destruct (get_own k o); split; congruence. Qed.

Lemma has_own_In k o : has_own k o = true <-> In k (map fst o).
Proof.
  unfold has_own. induction o as [| [k' v'] o IH]; simpl.
  - split; [discriminate | tauto].
  - string_cases k' k.
    + split; auto.
    + rewrite IH. split; [auto | intros [H | H]; [contradiction | exact H]].
Qed.

Lemma get_own_replace_own k k' v o :
  has_own k o = true ->
  get_own k' (replace_own k v o) = if k =? k' then Some v else get_own k' o.
Proof.
  unfold has_own. induction o as [| [k0 v0] o IH]; simpl; [discriminate |].
  string_cases k0 k; simpl.
  - intros _. rewrite E. destruct (k =? k'); reflexivity.
  - intros H. string_cases k0 k'.
    + string_cases k k'; [congruence | reflexivity].
    + apply IH, H.
Qed.

Lemma get_own_insert_index n k k' v o :
  get_own k o = None ->
  get_own k' (insert_index n k v o) = if k =? k' then Some v else get_own k' o.
Proof.
  induction o as [| [k0 v0] o IH]; simpl.
  - reflexivity.
  - string_cases k0 k; [discriminate |]. intros H.
    destruct (array_index k0) as [m |]; [destruct (m <? n)%N |]; simpl;
      try reflexivity.
    string_cases k0 k'.
    + string_cases k k'; [congruence | reflexivity].
    + apply IH, H.
Qed.

Lemma get_own_app_new k k' v o :
  get_own k o = None ->
  get_own k' (o ++ [(k, v)]) = if k =? k' then Some v else get_own k' o.
Proof.
  induction o as [| [k0 v0] o IH]; simpl.
  - reflexivity.
  - string_cases k0 k; [discriminate |]. intros H.
    string_cases k0 k'.
    + string_cases k k'; [congruence | reflexivity].
    + apply IH, H.
Qed.

(** Reading back after creating or overwriting an own property. *)
Lemma get_own_define_own k k' v o :
  get_own k' (define_own k v o) = if k =? k' then Some v else get_own k' o.
Proof.
  unfold define_own. destruct (has_own k o) eqn:H.
  - apply get_own_replace_own, H.
  - apply has_own_false_iff in H.
    destruct (array_index k); [apply get_own_insert_index | apply get_own_app_new];
      exact H.
Qed.

Lemma get_own_set_prop k k' v o :
  get_own k' (set_prop k v o)
  = if k =? "__proto__" then get_own k' o
    else if k =? k' then Some v else get_own k' o.
Proof.
  unfold set_prop. destruct (k =? "__proto__"); [reflexivity |].
  apply get_own_define_own.
Qed.

Lemma length_replace_own k v o : length (replace_own k v o) = length o.
Proof.
  induction o as [| [k0 v0] o IH]; simpl; [reflexivity |].
  destruct (k0 =? k); simpl; congruence.
Qed.

Lemma length_insert_index n k v o : length (insert_index n k v o) = S (length o).
Proof.
  induction o as [| [k0 v0] o IH]; simpl; [reflexivity |].
  destruct (array_index k0) as [m |]; [destruct (m <? n)%N |]; simpl; congruence.
Qed.

Lemma length_set_prop k v o : length (set_prop k v o) <= S (length o).
Proof.
  unfold set_prop, define_own.
  destruct (k =? "__proto__"); [lia |].
  destruct (has_own k o); [rewrite length_replace_own; lia |].
  destruct (array_index k); [rewrite length_insert_index; lia |].
  rewrite length_app; simpl; lia.
Qed.

(** A new index goes to the end when only smaller indices are there. *)
Lemma insert_index_last n k v o :
  forallb (fun k' => match array_index k' with
                     | Some m => (m <? n)%N
                     | None => false
                     end) (map fst o) = true ->
  insert_index n k v o = o ++ [(k, v)].
Proof.
  induction o as [| [k0 v0] o IH]; simpl; [reflexivity |].
  destruct (array_index k0) as [m |]; [| discriminate].
  destruct (m <? n)%N; [| discriminate]. simpl.
  intros H. rewrite IH by exact H. reflexivity.
Qed.
End ObjectFacts.

Lemma prefix_spec p s :
  String.prefix p s = true <-> exists rest, s = p +:+ rest.
Proof.
  revert s. induction p as [| a p IH]; intros s; simpl.
  - destruct s; simpl; split; eauto.
  - destruct s as [| b s]; simpl.
    + split; [discriminate | intros [rest H]; discriminate].
    + destruct (ascii_dec a b) as [-> | Hab].
      * rewrite IH. split; intros [rest H]; exists rest.
        -- simpl. rewrite H. reflexivity.
        -- simpl in H. injection H as H. exact H.
      * split; [discriminate | intros [rest H]; simpl in H; injection H as H1 H2; congruence].
Qed.

(** [includes] decides the substring relation of the specification. *)
Lemma includes_spec s sub : includes s sub = true <-> Spec.substring sub s.
Proof.
  unfold Spec.substring. induction s as [| c s IH].
  - destruct sub as [| a sub]; simpl.
    + split; [| reflexivity]. intros _. exists "", "". reflexivity.
    + split; [discriminate |]. intros (before & after & H).
      destruct before; discriminate.
  - cbn [includes]. destruct (String.prefix sub (String c s)) eqn:P.
    + apply prefix_spec in P as [rest P]. split; [| reflexivity].
      intros _. exists "", rest. exact P.
    + rewrite IH. split.
      * intros (before & after & ->). exists (String c before), after. reflexivity.
      * intros (before & after & H). destruct before as [| c' before]; simpl in H.
        -- assert (String.prefix sub (String c s) = true)
             by (apply prefix_spec; eauto).
           congruence.
        -- exists before, after. injection H as _ H. exact H.
Qed.

Lemma includes_middle before sub after :
  includes (before +:+ sub +:+ after) sub = true.
Proof. apply includes_spec. exists before, after. reflexivity. Qed.

(** [find] gives the first element that passes the test. *)
Lemma find_first {A : Type} (f : A -> bool) (l : list A) (x : A) :
  find f l = Some x <->
  exists before after,
    l = before ++ x :: after /\ f x = true /\ forall y, In y before -> f y = false.
Proof.
  induction l as [| a l IH]; simpl.
  - split; [discriminate |]. intros (before & after & H & _).
    destruct before; discriminate.
  - destruct (f a) eqn:Fa.
    + split.
      * intros [= ->]. exists [], l. simpl. tauto.
      * intros (before & after & H & Fx & Hb). destruct before as [| b before].
        -- simpl in H. congruence.
        -- simpl in H. injection H as -> _.
           rewrite Hb in Fa by (left; reflexivity). discriminate.
    + rewrite IH. split.
      * intros (before & after & -> & Fx & Hb). exists (a :: before), after.
        simpl. repeat split; auto. intros y [<- | Hy]; auto.
      * intros (before & after & H & Fx & Hb). destruct before as [| b before].
        -- simpl in H. injection H as -> _. congruence.
        -- simpl in H. injection H as -> ->. exists before, after.
           repeat split; auto. intros y Hy. apply Hb. right. exact Hy.
Qed.

Lemma existsb_eqb_In (k : string) (l : list string) :
  existsb (String.eqb k) l = true <-> In k l.
Proof.
  rewrite existsb_exists. split.
  - intros (x & Hx & E). apply String.eqb_eq in E. subst. exact Hx.
  - intros H. exists k. split; [exact H | apply String.eqb_refl].
Qed.

Lemma truthy_iff (p : string) : truthy p = true <-> p <> "".
Proof.
  unfold truthy. string_cases p ""; simpl; split; congruence.
Qed.

End JSFacts.

(* ================================================================== *)
(** * The parameter reconciler *)
(* ================================================================== *)

Section Reconciler.
Import JS Types Runtime JSFacts.
Variable declared : list string.

Lemma suggest_step_get (mapping : Obj string) (k0 k : string) :
  get_own k (ToolManager.suggest_step declared mapping k0)
  = if ((k0 =? k) && negb (existsb (String.eqb k0) declared)
        && negb (k0 =? "__proto__"))%bool
    then match ToolManager.findMostSimilarParameter k0 declared with
         | Some p => if truthy p then Some p else get_own k mapping
         | None => get_own k mapping
         end
    else get_own k mapping.
Proof.
  unfold ToolManager.suggest_step.
  destruct (existsb (String.eqb k0) declared); simpl.
  - rewrite andb_false_r. reflexivity.
  - destruct (ToolManager.findMostSimilarParameter k0 declared) as [p |].
    + destruct (truthy p).
      * rewrite get_own_set_prop.
        destruct (k0 =? "__proto__"), (k0 =? k); reflexivity.
      * destruct ((k0 =? k) && true && negb (k0 =? "__proto__"))%bool; reflexivity.
    + destruct ((k0 =? k) && true && negb (k0 =? "__proto__"))%bool; reflexivity.
Qed.

Lemma suggest_fold_get (ks : list string) (mapping : Obj string) (k : string) :
  get_own k (fold_left (ToolManager.suggest_step declared) ks mapping)
  = if (existsb (String.eqb k) ks && negb (existsb (String.eqb k) declared)
        && negb (k =? "__proto__"))%bool
    then match ToolManager.findMostSimilarParameter k declared with
         | Some p => if truthy p then Some p else get_own k mapping
         | None => get_own k mapping
         end
    else get_own k mapping.
Proof.
  revert mapping. induction ks as [| k0 ks IH]; intros mapping; simpl.
  - reflexivity.
  - rewrite IH, suggest_step_get. rewrite (String.eqb_sym k k0).
    string_cases k0 k.
    + subst k0. simpl.
      destruct (existsb (String.eqb k) ks),
               (existsb (String.eqb k) declared),
               (k =? "__proto__"); simpl; try reflexivity;
        destruct (ToolManager.findMostSimilarParameter k declared) as [p |];
        try reflexivity; destruct (truthy p); reflexivity.
    + simpl. reflexivity.
Qed.



End Reconciler.

Section ReconcilerClaims.
Import JS Types Runtime JSFacts.



End ReconcilerClaims.

(* ================================================================== *)
(** * Renaming the arguments *)
(* ================================================================== *)

Section FixToolArguments.
Import JS Types Runtime JSFacts.
Variable mappings : Obj string.

Let step (fixedArgs : Obj Json) (entry : string * Json) : Obj Json :=
  let '(key, value) := entry in
  set_prop (ChatManager.mappedKey mappings key) value fixedArgs.

Lemma mappedKey_final_key (key : string) :
  inherited key = false ->
  ChatManager.mappedKey mappings key = Spec.final_key mappings key.
Proof.
  unfold ChatManager.mappedKey, Spec.final_key, truthy. intros ->.
  destruct (get_own key mappings) as [s |]; [| reflexivity].
  destruct (s =? ""); reflexivity.
Qed.

Lemma fix_fold_get (entries fixedArgs : Obj Json) (k : string) :
  k <> "__proto__" ->
  (forall key, In key (map fst entries) -> inherited key = false) ->
  get_own k (fold_left step entries fixedArgs)
  = fold_left (fun found '(key, value) =>
                 if Spec.final_key mappings key =? k then Some value else found)
              entries (get_own k fixedArgs).
Proof.
  intros Hk. revert fixedArgs.
  induction entries as [| [key value] entries IH]; intros fixedArgs Hin; simpl.
  - reflexivity.
  - rewrite IH by (intros key' H; apply Hin; right; exact H).
    f_equal. rewrite get_own_set_prop.
    rewrite mappedKey_final_key by (apply Hin; left; reflexivity).
    string_cases (Spec.final_key mappings key) "__proto__"; [| reflexivity].
    string_cases (Spec.final_key mappings key) k; [congruence | reflexivity].
Qed.

Lemma fix_fold_length (entries fixedArgs : Obj Json) :
  length (fold_left step entries fixedArgs) <= length fixedArgs + length entries.
Proof.
  revert fixedArgs. induction entries as [| [key value] entries IH];
    intros fixedArgs; simpl; [lia |].
  specialize (IH (set_prop (ChatManager.mappedKey mappings key) value fixedArgs)).
  pose proof (length_set_prop (ChatManager.mappedKey mappings key) value fixedArgs).
  lia.
Qed.
End FixToolArguments.

Section FixToolArgumentsIdentity.
Import JS Types Runtime JSFacts.

(** Without suggestions the loop rebuilds the entries it reads. *)
Lemma fix_fold_rebuild (entries fixedArgs : Obj Json) :
  Spec.listed_after (map fst fixedArgs) entries = true ->
  (forall key, In key (map fst entries) -> inherited key = false) ->
  fold_left (fun acc '(key, value) =>
               set_prop (ChatManager.mappedKey [] key) value acc)
            entries fixedArgs
  = fixedArgs ++ entries.
Proof.
  revert fixedArgs.
  induction entries as [| [key value] entries IH]; intros fixedArgs Hord Hin.
  - simpl. rewrite app_nil_r. reflexivity.
  - cbn [fold_left Spec.listed_after] in *.
    apply andb_prop in Hord as [Hord Hrest]. apply andb_prop in Hord as [Hnew Hidx].
    assert (Hkey : inherited key = false) by (apply Hin; left; reflexivity).
    assert (Hstep : set_prop (ChatManager.mappedKey [] key) value fixedArgs
                    = fixedArgs ++ [(key, value)]).
    { unfold ChatManager.mappedKey. simpl. rewrite Hkey.
      unfold set_prop, define_own.
      assert ((key =? "__proto__") = false) as ->.
      { unfold inherited in Hkey. destruct (key =? "__proto__"); [discriminate | reflexivity]. }
      assert (has_own key fixedArgs = false) as ->.
      { apply not_true_is_false. intros H. apply has_own_In, existsb_eqb_In in H.
        rewrite H in Hnew. discriminate. }
      destruct (array_index key) as [n |]; [| reflexivity].
      apply insert_index_last, Hidx. }
    rewrite Hstep, IH.
    + rewrite <- app_assoc. reflexivity.
    + rewrite map_app. exact Hrest.
    + intros key' H. apply Hin. right. exact H.
Qed.

(** C10, as amended.  When no provided key names a member that objects
    inherit, the result holds, under every key other than [__proto__],
    the value of the last entry (in entry order) whose final key it is,
    the final key being the suggested key if there is one and it is
    not empty, else the original key; it never has more entries than
    the input and can have fewer; with no suggestion it is the input. *)
Theorem fixToolArguments_renames :
  (forall (args : Json) (mappings : Obj string) (entries : Obj Json),
      Object_entries args = Ok entries ->
      (forall key, In key (map fst entries) -> inherited key = false) ->
      exists fixedArgs,
        ChatManager.fixToolArguments args mappings = Ok fixedArgs
        /\ (forall k, k <> "__proto__" ->
                      get_own k fixedArgs = Spec.last_under mappings k entries)
        /\ length fixedArgs <= length entries
        /\ (mappings = [] -> Spec.own_key_order entries = true ->
            fixedArgs = entries))
  /\ ChatManager.fixToolArguments
       (JObj [("q", JStr "cats"); ("query", JStr "dogs")]) [("q", "query")]
     = Ok [("query", JStr "dogs")].
Proof.
  split; [| reflexivity].
  intros args mappings entries Hentries Hin.
  unfold ChatManager.fixToolArguments. rewrite Hentries.
  eexists. split; [reflexivity |]. split; [| split].
  - intros k Hk. apply (fix_fold_get mappings entries [] k Hk Hin).
  - apply (fix_fold_length mappings entries []).
  - intros -> Hord. apply (fix_fold_rebuild entries [] Hord Hin).
Qed.

Lemma fixToolArguments_renames_witness :
  let args := [("0", JStr "a"); ("Path", JStr "/tmp"); ("dir", JStr "/")] in
  (exists fixedArgs,
      ChatManager.fixToolArguments (JObj args) [("Path", "path"); ("dir", "path")]
      = Ok fixedArgs
      /\ get_own "path" fixedArgs = Some (JStr "/")
      /\ get_own "Path" fixedArgs = None
      /\ length fixedArgs <= 3)
  /\ ChatManager.fixToolArguments (JObj args) [] = Ok args.
Proof.
  intros args.
  assert (Hkeys : forall key, In key (map fst args) -> inherited key = false)
    by (intros key [<- | [<- | [<- | []]]]; reflexivity).
  split.
  - destruct (proj1 fixToolArguments_renames (JObj args)
                [("Path", "path"); ("dir", "path")] args eq_refl Hkeys)
      as (fixedArgs & Hfix & Hget & Hlen & _).
    exists fixedArgs. split; [exact Hfix |]. split; [| split].
    + rewrite Hget by discriminate. reflexivity.
    + rewrite Hget by discriminate. reflexivity.
    + exact Hlen.
  - destruct (proj1 fixToolArguments_renames (JObj args) [] args eq_refl Hkeys)
      as (fixedArgs & Hfix & _ & _ & Hsame).
    rewrite Hfix, (Hsame eq_refl eq_refl). reflexivity.
Defined.

(** C10 as stated fails: a suggestion that is present but empty is not
    used, and without any suggestion a key that names an inherited
    member is not kept. *)
Lemma fixToolArguments_counterexample :
  ChatManager.fixToolArguments (JObj [("a", JStr "x")]) [("a", "")]
    = Ok [("a", JStr "x")]
  /\ ChatManager.fixToolArguments (JObj [("toString", JStr "x")]) []
     <> Ok [("toString", JStr "x")].
Proof. split; [reflexivity | discriminate]. Qed.
End FixToolArgumentsIdentity.

(* ================================================================== *)
(** * Building the catalog *)
(* ================================================================== *)

Section Catalog.
Import JS Types Runtime JSFacts.

Lemma warn_each_normal (line : string) (n : nat) (s : Session) :
  exists s', ToolManager.warn_each line n s = (Normal tt, s').
Proof.
  revert s. induction n as [| n IH]; intros s; simpl.
  - eexists. reflexivity.
  - unfold bind, log. apply IH.
Qed.

(** What [fetchTools] returns is what section 4.1 says a provider
    contributes. *)
Lemma fetchTools_accepted (c : Client) (s : Session) :
  exists r s',
    ToolManager.fetchTools c s = (Normal r, s')
    /\ match r with Some ts => ts | None => [] end = Spec.accepted c.
Proof.
  unfold ToolManager.fetchTools, Spec.accepted.
  destruct (listTools c) as [[| | items] | e]; try (do 2 eexists; split; reflexivity).
  destruct (ToolManager.all_objects items); do 2 eexists; split; reflexivity.
Qed.

Lemma register_lookup (c : Client) (ts : list (option McpTool))
    (m : gmap (option string) Client) :
  ~ In None ts ->
  exists m',
    ToolManager.register c ts m = Ok m'
    /\ forall n, m' !! n
                 = if existsb (fun t => bool_decide (name t = n)) (ToolManager.objects ts)
                   then Some c else m !! n.
Proof.
  revert m. induction ts as [| [t |] ts IH]; intros m Hnull; simpl.
  - exists m. split; reflexivity.
  - destruct (IH (<[name t := c]> m)) as (m' & Hreg & Hm').
    { intros H. apply Hnull. right. exact H. }
    exists m'. split; [exact Hreg |]. intros n. rewrite Hm'.
    destruct (existsb _ (ToolManager.objects ts)); [rewrite orb_true_r; reflexivity |].
    rewrite orb_false_r, lookup_insert.
    destruct (decide (name t = n)) as [E | E].
    + rewrite bool_decide_eq_true_2 by exact E. reflexivity.
    + rewrite bool_decide_eq_false_2 by exact E. reflexivity.
  - exfalso. apply Hnull. left. reflexivity.
Qed.

Lemma collect_spec (cs : list (string * Client)) (allMcpTools : list McpTool)
    (m : gmap (option string) Client) (s : Session) :
  (forall entry, In entry cs -> ~ In None (Spec.accepted (snd entry))) ->
  exists m' s',
    ToolManager.collect cs allMcpTools m s
    = (Normal (allMcpTools ++ flat_map (fun entry => Spec.offered (snd entry)) cs, m'), s')
    /\ forall n, m' !! n
                 = fold_left (fun found entry =>
                                if Spec.offers n (snd entry) then Some (snd entry)
                                else found)
                             cs (m !! n).
Proof.
  revert allMcpTools m s. induction cs as [| [label c] cs IH];
    intros allMcpTools m s Hnull; simpl.
  - exists m, s. rewrite app_nil_r. split; reflexivity.
  - destruct (fetchTools_accepted c s) as (r & s1 & Hfetch & Hacc).
    unfold bind at 1. rewrite Hfetch.
    assert (Hc : ~ In None (Spec.accepted c))
      by (apply (Hnull (label, c)); left; reflexivity).
    assert (Hrest : forall entry, In entry cs -> ~ In None (Spec.accepted (snd entry)))
      by (intros entry H; apply Hnull; right; exact H).
    destruct r as [ts |]; simpl in Hacc.
    + subst ts. destruct (register_lookup c (Spec.accepted c) m Hc) as (m1 & Hreg & Hm1).
      unfold bind at 1. rewrite Hreg. simpl.
      destruct (IH (allMcpTools ++ ToolManager.objects (Spec.accepted c)) m1 s1 Hrest)
        as (m' & s' & Hcollect & Hm').
      exists m', s'. split.
      * rewrite Hcollect, <- app_assoc. reflexivity.
      * intros n. rewrite Hm', Hm1. reflexivity.
    + destruct (IH allMcpTools m s1 Hrest) as (m' & s' & Hcollect & Hm').
      exists m', s'. split.
      * rewrite Hcollect. unfold Spec.offered. rewrite <- Hacc. reflexivity.
      * intros n. rewrite Hm'. unfold Spec.offers, Spec.offered. rewrite <- Hacc.
        reflexivity.
Qed.

(** C8, as amended.  When every provider answers without a [null]
    element, initialisation succeeds; the dispatch table then maps each
    name to the last provider that offers it, while the catalog keeps
    one entry for every named tool of every provider, in provider order,
    also when two providers offer the same name. *)
Theorem initialize_catalog_and_dispatch :
  forall (newClients : list (string * Client)) (s : Session),
    newClients <> [] ->
    (forall entry, In entry newClients -> ~ In None (Spec.accepted (snd entry))) ->
    exists this s',
      ToolManager.initialize ToolManager.new_ToolManager newClients s = (Normal this, s')
      /\ (forall n, toolMap this !! n = Spec.last_offering n newClients)
      /\ tools this
         = map ToolManager.to_openai
               (filter ToolManager.has_name
                       (flat_map (fun entry => Spec.offered (snd entry)) newClients))
      /\ clients this = newClients.
Proof.
  intros newClients s Hne Hnull.
  destruct (collect_spec newClients [] ∅ s Hnull) as (m & s1 & Hcollect & Hm).
  unfold ToolManager.initialize.
  destruct newClients as [| entry rest]; [contradiction |].
  unfold bind at 1. simpl toolMap. rewrite Hcollect.
  unfold ToolManager.convertToOpenaiTools. unfold bind at 1.
  destruct (warn_each_normal "Tool missing name:"
              (length (filter (fun t => negb (ToolManager.has_name t))
                 ([] ++ flat_map (fun entry => Spec.offered (snd entry)) (entry :: rest))))
              s1) as (s2 & Hwarn).
  unfold bind at 1. rewrite Hwarn. unfold ret.
  do 2 eexists. split; [reflexivity |]. simpl. repeat split.
  intros n. rewrite Hm, lookup_empty. reflexivity.
Qed.

Lemma initialize_catalog_and_dispatch_witness :
  exists this s',
    ToolManager.initialize ToolManager.new_ToolManager Demo.two_providers
                           Demo.empty_session = (Normal this, s')
    /\ toolMap this !! Some "search" = Some Demo.docs_provider
    /\ map fn_name (tools this) = ["search"; "search"; "open"].
Proof.
  destruct (initialize_catalog_and_dispatch Demo.two_providers Demo.empty_session)
    as (this & s' & Hinit & Hmap & Htools & _).
  - discriminate.
  - intros entry [<- | [<- | []]]; simpl; intros [H | H];
      try discriminate; try destruct H as [H | H]; try discriminate; auto.
  - exists this, s'. split; [exact Hinit |]. split.
    + rewrite Hmap. reflexivity.
    + rewrite Htools. reflexivity.
Defined.

(** C8 as stated fails: with two providers that offer [search], the
    catalog handed to the model lists [search] twice, and looking the
    name up in it finds the entry of the first provider, not of the one
    the call is dispatched to. *)
Lemma catalog_names_counterexample :
  exists this s',
    ToolManager.initialize ToolManager.new_ToolManager Demo.two_providers
                           Demo.empty_session = (Normal this, s')
    /\ ~ List.NoDup (map fn_name (tools this))
    /\ option_map fn_description (ToolManager.getToolParameterInfo this "search")
       = Some "Search the web"
    /\ option_map client_id (toolMap this !! Some "search") = Some 2.
Proof.
  do 2 eexists. split; [reflexivity |]. split; [| split; reflexivity].
  simpl. intros H. apply NoDup_cons_iff in H as [Hnot _]. apply Hnot. simpl. auto.
Qed.
End Catalog.

(* ================================================================== *)
(** * Executing a tool *)
(* ================================================================== *)

Section Executor.
Import JS Types Runtime JSFacts.

Lemma quiet_ret {A : Type} (a : A) : quiet (ret a).
Proof. intros s. split; reflexivity. Qed.

Lemma quiet_throw {A : Type} (e : JsError) : quiet (@throw A e).
Proof. intros s. split; reflexivity. Qed.

Lemma quiet_log (line : string) : quiet (log line).
Proof. intros s. split; reflexivity. Qed.

Lemma quiet_of_result {A : Type} (r : Result A) : quiet (of_result r).
Proof. destruct r; [apply quiet_ret | apply quiet_throw]. Qed.

Lemma quiet_bind {A B : Type} (m : M A) (k : A -> M B) :
  quiet m -> (forall a, quiet (k a)) -> quiet (bind m k).
Proof.
  intros Hm Hk s. unfold bind. specialize (Hm s).
  destruct (m s) as [[a | e | |] s1]; simpl in *; try exact Hm.
  destruct (Hk a s1) as [H1 H2]. destruct Hm as [H3 H4]. split; congruence.
Qed.

Lemma quiet_try_catch {A : Type} (m : M A) (handler : JsError -> M A) :
  quiet m -> (forall e, quiet (handler e)) -> quiet (try_catch m handler).
Proof.
  intros Hm Hh s. unfold try_catch. specialize (Hm s).
  destruct (m s) as [[a | e | |] s1]; simpl in *; try exact Hm.
  destruct (Hh e s1) as [H1 H2]. destruct Hm as [H3 H4]. split; congruence.
Qed.

Lemma quiet_await {A : Type} (p : Promise A) : quiet (await p).
Proof. intros s. destruct p; split; reflexivity. Qed.

Lemma quiet_callTool (this : ToolManager) (toolName : string) (args : Json) :
  quiet (ToolManager.callTool this toolName args).
Proof.
  unfold ToolManager.callTool. destruct (toolMap this !! Some toolName) as [c |].
  - apply quiet_try_catch.
    + apply quiet_bind; [intros s; split; reflexivity | intros p; apply quiet_await].
    + intros e. apply quiet_bind; [apply quiet_log | intros; apply quiet_ret].
  - apply quiet_bind; [apply quiet_log | intros; apply quiet_ret].
Qed.

Lemma quiet_invoke (JSON_parse : string -> Result Json)
    (this : ChatManager.ChatManager) (toolCall : ToolCall) :
  quiet (ChatManager.invoke JSON_parse this toolCall).
Proof.
  unfold ChatManager.invoke.
  apply quiet_bind.
  { unfold ChatManager.parseToolArguments.
    destruct (call_arguments toolCall); try apply quiet_ret.
    destruct (JSON_parse s); [apply quiet_ret |].
    apply quiet_bind; [apply quiet_log | intros; apply quiet_ret]. }
  intros args. apply quiet_bind; [apply quiet_log | intros _].
  apply quiet_bind; [apply quiet_of_result | intros mappings].
  apply quiet_bind; [apply quiet_of_result | intros fixedArgs].
  apply quiet_bind; [apply quiet_callTool | intros result; apply quiet_ret].
Qed.

(** C7.  The provider call and the timer are raced over the logical
    clock: a provider that settles before the timer decides the outcome,
    a provider that settles after it, or never, gives the time-out
    failure and never a hung call; the delay is 30000 unless the call
    gives one, and is the one asked for when [setTimeout] accepts it. *)
Theorem callToolWithTimeout_race :
  (forall (JSON_parse : string -> Result Json) (timer_first : bool)
          (client : Client) (tool_name : string) (args : Json)
          (timeout : option Z) (s : Session),
      let timeoutMs := match timeout with
                       | Some ms => ms
                       | None => ToolManager.default_timeoutMs
                       end in
      let p := client_callTool client (provider_calls s) tool_name
                 (ToolManager.parsedArgs_of JSON_parse args) in
      let run := ToolManager.callToolWithTimeout JSON_parse timer_first client
                   tool_name args timeout s in
      (forall t r, p = Resolves t r -> (t < timer_delay timeoutMs)%N ->
                   run = (Normal r, provider_called s))
      /\ (forall t e, p = Rejects t e -> (t < timer_delay timeoutMs)%N ->
                      run = (Throw (Error ("Tool call failed: " +:+ message e)),
                             provider_called s))
      /\ (p = Pending
          \/ (exists t r, p = Resolves t r /\ (timer_delay timeoutMs < t)%N)
          \/ (exists t e, p = Rejects t e /\ (timer_delay timeoutMs < t)%N) ->
          run = (Throw (Error ("Tool call failed: Tool call timed out after "
                               +:+ NilZero.string_of_int (Z.to_int timeoutMs)
                               +:+ "ms")),
                 provider_called s))
      /\ fst run <> Hang)
  /\ ToolManager.default_timeoutMs = 30000%Z
  /\ (forall ms, (1 <= ms <= 2147483647)%Z -> timer_delay ms = Z.to_N ms)
  /\ (forall timer_first,
         ToolManager.callToolWithTimeout Demo.JSON_parse timer_first
           Demo.slow_provider "slow_tool" (JObj []) (Some 50%Z) Demo.empty_session
         = (Throw (Error "Tool call failed: Tool call timed out after 50ms"),
            provider_called Demo.empty_session)).
Proof.
  split; [| split; [reflexivity | split]].
  - intros JSON_parse timer_first client tool_name args timeout s timeoutMs p run.
    assert (Hrun : run = match race_with_timer timer_first p (timer_delay timeoutMs)
                                 (ToolManager.timeout_error timeoutMs) with
                         | Ok result => (Normal result, provider_called s)
                         | Err error =>
                             (Throw (Error ("Tool call failed: " +:+ message error)),
                              provider_called s)
                         end).
    { subst run. unfold ToolManager.callToolWithTimeout, bind, provider_call.
      fold timeoutMs. fold p.
      destruct (race_with_timer timer_first p (timer_delay timeoutMs)
                  (ToolManager.timeout_error timeoutMs)); reflexivity. }
    rewrite Hrun. clear Hrun. unfold race_with_timer. repeat split.
    + intros t r -> Ht.
      assert ((timer_delay timeoutMs <? t)%N = false) as -> by (apply N.ltb_ge; lia).
      assert ((timer_delay timeoutMs =? t)%N = false) as -> by (apply N.eqb_neq; lia).
      reflexivity.
    + intros t e -> Ht.
      assert ((timer_delay timeoutMs <? t)%N = false) as -> by (apply N.ltb_ge; lia).
      assert ((timer_delay timeoutMs =? t)%N = false) as -> by (apply N.eqb_neq; lia).
      reflexivity.
    + intros [-> | [(t & r & -> & Ht) | (t & e & -> & Ht)]]; [reflexivity | |];
        (assert ((timer_delay timeoutMs <? t)%N = true) as -> by (apply N.ltb_lt; lia));
        reflexivity.
    + destruct p as [t r | t e |]; simpl;
        try destruct ((timer_delay timeoutMs <? t)%N
                      || (timer_delay timeoutMs =? t)%N && timer_first)%bool;
        discriminate.
  - intros ms Hms. unfold timer_delay.
    assert ((ms <? 1)%Z = false) as -> by (apply Z.ltb_ge; lia).
    assert ((2147483647 <? ms)%Z = false) as -> by (apply Z.ltb_ge; lia).
    reflexivity.
  - intros timer_first. destruct timer_first; reflexivity.
Qed.

Lemma callToolWithTimeout_race_witness :
  ToolManager.callToolWithTimeout Demo.JSON_parse false Demo.web_provider
    "search" (JObj [("query", JStr "cats")]) (Some 50%Z) Demo.empty_session
  = (Normal (Demo.text_result "3 pages found"), provider_called Demo.empty_session)
  /\ timer_delay 50 = 50%N.
Proof.
  split.
  - apply (proj1 (proj1 callToolWithTimeout_race Demo.JSON_parse false
                    Demo.web_provider "search" (JObj [("query", JStr "cats")])
                    (Some 50%Z) Demo.empty_session) 5%N
                 (Demo.text_result "3 pages found")).
    + reflexivity.
    + vm_compute. reflexivity.
  - apply (proj1 (proj2 (proj2 callToolWithTimeout_race))). lia.
Defined.

(** C9.  [callTool] never throws and never times out: without a
    provider for the name, or when the provider rejects, it returns
    [undefined]; when the provider resolves, after whatever time, it
    returns that value, and it waits for ever on a provider that never
    settles.  A call that returned [undefined] leaves the transcript as
    it was and the batch goes on. *)
Theorem callTool_never_throws :
  (forall (this : ToolManager) (toolName : string) (args : Json) (s : Session),
      (forall e s', ToolManager.callTool this toolName args s <> (Throw e, s'))
      /\ (toolMap this !! Some toolName = None ->
          ToolManager.callTool this toolName args s
          = (Normal None,
             logged ("Tool '" +:+ toolName +:+ "' not found among available tools.") s))
      /\ (forall c t e,
             toolMap this !! Some toolName = Some c ->
             client_callTool c (provider_calls s) toolName args = Rejects t e ->
             ToolManager.callTool this toolName args s
             = (Normal None,
                logged ("Error calling tool '" +:+ toolName +:+ "': " +:+ message e)
                       (provider_called s)))
      /\ (forall c t r,
             toolMap this !! Some toolName = Some c ->
             client_callTool c (provider_calls s) toolName args = Resolves t r ->
             ToolManager.callTool this toolName args s = (Normal r, provider_called s))
      /\ (forall c,
             toolMap this !! Some toolName = Some c ->
             client_callTool c (provider_calls s) toolName args = Pending ->
             ToolManager.callTool this toolName args s = (Hang, provider_called s)))
  /\ (forall (JSON_parse : string -> Result Json) (JSON_stringify : Json -> string)
             (this : ChatManager.ChatManager) (handle : list ToolCall -> M unit)
             (toolCall : ToolCall) (args : Json) (mappings : Obj string)
             (s s1 : Session),
         ChatManager.invoke JSON_parse this toolCall s
         = (Normal (args, mappings, None), s1) ->
         ChatManager.handle_call JSON_parse JSON_stringify this handle toolCall s
         = (Normal ChatManager.Continue, s1)
         /\ messages s1 = messages s).
Proof.
  split.
  - intros this toolName args s. unfold ToolManager.callTool.
    destruct (toolMap this !! Some toolName) as [c |] eqn:Hc.
    + unfold try_catch, bind, provider_call, await.
      destruct (client_callTool c (provider_calls s) toolName args)
        as [t r | t e |] eqn:Hp; simpl.
      all: split; [discriminate |]; split; [discriminate |].
      all: split; [| split].
      all: try (intros c' t' x [= <-] Hp'; rewrite Hp in Hp'; try discriminate;
                injection Hp' as <- <-; reflexivity).
      all: intros c' [= <-] Hp'; rewrite Hp in Hp'; try discriminate; reflexivity.
    + split; [discriminate |]. split; [reflexivity |]. repeat split; discriminate.
  - intros JSON_parse JSON_stringify this handle toolCall args mappings s s1 Hinvoke.
    split.
    + unfold ChatManager.handle_call, bind. rewrite Hinvoke. reflexivity.
    + pose proof (quiet_invoke JSON_parse this toolCall s) as [H _].
      rewrite Hinvoke in H. exact H.
Qed.

Lemma callTool_never_throws_witness :
  ChatManager.handle_call Demo.JSON_parse Demo.JSON_stringify
    (ChatManager.mkChatManager Demo.silent_model Demo.web_manager)
    (fun _ => ret tt) (mkToolCall "list_files" (JObj [])) Demo.empty_session
  = (Normal ChatManager.Continue,
     logged "Tool 'list_files' not found among available tools."
            (logged "Using tool: list_files" Demo.empty_session)).
Proof.
  apply (proj2 callTool_never_throws Demo.JSON_parse Demo.JSON_stringify
           (ChatManager.mkChatManager Demo.silent_model Demo.web_manager)
           (fun _ => ret tt) (mkToolCall "list_files" (JObj [])) (JObj []) []).
  reflexivity.
Defined.
End Executor.


(* ================================================================== *)
(** * Arguments that do not decode *)
(* ================================================================== *)

Section DecodeFailure.
Import JS Types Runtime JSFacts.

(** C5, as amended.  When the arguments are a text that [JSON.parse]
    rejects, the batch handler of the session and [callToolWithTimeout]
    go on with [{value: text}] in its place, whereas [executeToolCall]
    reports the failure and throws it to its caller before any provider
    is called. *)
Theorem decode_failure_fallback :
  forall (JSON_parse : string -> Result Json) (text : string) (e : JsError),
    JSON_parse text = Err e ->
    let fallback := JObj [("value", JStr text)] in
    (forall s,
        ChatManager.parseToolArguments JSON_parse (JStr text) s
        = (Normal fallback, logged ("Failed to parse tool arguments: " +:+ message e) s))
    /\ (forall this toolName s,
           ChatManager.invoke JSON_parse this (mkToolCall toolName (JStr text)) s
           = ChatManager.invoke JSON_parse this (mkToolCall toolName fallback)
               (logged ("Failed to parse tool arguments: " +:+ message e) s))
    /\ (forall timer_first client tool_name timeout s,
           ToolManager.callToolWithTimeout JSON_parse timer_first client tool_name
             (JStr text) timeout s
           = ToolManager.callToolWithTimeout JSON_parse timer_first client tool_name
               fallback timeout s)
    /\ (forall timer_first this toolName s,
           toolName <> "" ->
           ToolManager.executeToolCall JSON_parse timer_first this
             (mkToolCall toolName (JStr text)) s
           = (Throw e, logged ("Error parsing arguments string: " +:+ message e) s)).
Proof.
  intros JSON_parse text e Hparse fallback. repeat split.
  - intros s. unfold ChatManager.parseToolArguments. rewrite Hparse. reflexivity.
  - intros this toolName s. unfold ChatManager.invoke, ChatManager.parseToolArguments.
    simpl. rewrite Hparse. reflexivity.
  - intros timer_first client tool_name timeout s.
    unfold ToolManager.callToolWithTimeout, ToolManager.parsedArgs_of.
    rewrite Hparse. reflexivity.
  - intros timer_first this toolName s Hname.
    unfold ToolManager.executeToolCall, ToolManager.parseToolCall. simpl.
    apply truthy_iff in Hname. rewrite Hname. simpl. rewrite Hparse. reflexivity.
Qed.

Lemma decode_failure_fallback_witness :
  ChatManager.parseToolArguments Demo.JSON_parse (JStr "{oops") Demo.empty_session
  = (Normal (JObj [("value", JStr "{oops")]),
     logged "Failed to parse tool arguments: Unexpected token in JSON: {oops"
            Demo.empty_session).
Proof.
  apply (proj1 (decode_failure_fallback Demo.JSON_parse "{oops"
                  (Error "Unexpected token in JSON: {oops") eq_refl)).
Defined.

(** C5 as stated fails for [executeToolCall]: the decode failure reaches
    its caller as an exception and the provider is never called. *)
Lemma decode_failure_counterexample :
  ToolManager.executeToolCall Demo.JSON_parse true Demo.web_manager
    (mkToolCall "search" (JStr "{oops")) Demo.empty_session
  = (Throw (Error "Unexpected token in JSON: {oops"),
     mkSession [] ["Error parsing arguments string: Unexpected token in JSON: {oops"]
               0 0).
Proof. reflexivity. Qed.
End DecodeFailure.

(* ================================================================== *)
(** * The batch handler *)
(* ================================================================== *)

Section BatchHandler.
Import JS Types Runtime JSFacts.
Variable JSON_parse : string -> Result Json.
Variable JSON_stringify : Json -> string.
Variable this : ChatManager.ChatManager.

#[local] Abbreviation invoke := (ChatManager.invoke JSON_parse this).
#[local] Abbreviation handle_call :=
  (ChatManager.handle_call JSON_parse JSON_stringify this).
#[local] Abbreviation for_each_call :=
  (ChatManager.for_each_call JSON_parse JSON_stringify this).
#[local] Abbreviation handleToolCalls :=
  (ChatManager.handleToolCalls JSON_parse JSON_stringify this).
#[local] Abbreviation recover := (ChatManager.recover JSON_stringify this).
#[local] Abbreviation banner := "Model is using tools to help answer...".

Lemma handle_call_after_invoke (handle : list ToolCall -> M unit)
    (toolCall : ToolCall) (args : Json) (mappings : Obj string)
    (result : option CallToolResult) (s s1 : Session) :
  invoke toolCall s = (Normal (args, mappings, result), s1) ->
  handle_call handle toolCall s
  = ChatManager.handle_result JSON_stringify this handle toolCall args mappings
                              result s1.
Proof.
  intros H. unfold ChatManager.handle_call, bind. rewrite H. reflexivity.
Qed.

Lemma handleToolCalls_unfold (fuel : nat) (toolCalls : list ToolCall) (s : Session) :
  handleToolCalls (S fuel) toolCalls s
  = match for_each_call (handleToolCalls fuel) toolCalls (logged banner s) with
    | (Normal ChatManager.Continue, s1) =>
        ChatManager.final_response this (handleToolCalls fuel) toolCalls s1
    | (Normal ChatManager.Return, s1) => (Normal tt, s1)
    | (Throw e, s1) => (Throw e, s1)
    | (Hang, s1) => (Hang, s1)
    | (OutOfFuel, s1) => (OutOfFuel, s1)
    end.
Proof.
  cbn [ChatManager.handleToolCalls]. unfold bind, log.
  destruct (for_each_call _ _ _) as [[[|] | e | |] s1]; reflexivity.
Qed.

Lemma recover_unfold (handle : list ToolCall -> M unit) (toolCall : ToolCall)
    (s : Session) :
  recover handle toolCall s
  = let absorb := ChatManager.rethrow_if_refused "Error handling tool response: " in
    match chat (ChatManager.ollama this) (model_calls s) (messages s)
               (tools (ChatManager.toolManager this)) with
    | Ok reply =>
        let s2 := pushed reply (model_called s) in
        match ChatManager.tool_calls_of reply with
        | [] => (Normal tt, s2)
        | newToolCalls =>
            if ChatManager.hasNewToolCalls JSON_stringify toolCall newToolCalls
            then try_catch (handle newToolCalls) absorb s2
            else (Normal tt,
                  logged "There was an issue with the tool call. Trying again." s2)
        end
    | Err e => absorb e (model_called s)
    end.
Proof.
  unfold ChatManager.recover, try_catch, bind, ollama_chat, push, log, ret.
  destruct (chat _ _ _ _) as [reply | e]; [| reflexivity].
  destruct (ChatManager.tool_calls_of reply) as [| call rest]; [reflexivity |].
  destruct (ChatManager.hasNewToolCalls _ _ _); reflexivity.
Qed.

Lemma processUserInput_unfold (fuel : nat) (userInput : string) (s : Session) :
  ChatManager.processUserInput JSON_parse JSON_stringify this fuel userInput s
  = let asked := pushed (mkMessage user userInput None None) s in
    match chat (ChatManager.ollama this) (model_calls asked) (messages asked)
               (tools (ChatManager.toolManager this)) with
    | Ok response =>
        let s1 := pushed response (model_called asked) in
        match ChatManager.tool_calls_of response with
        | [] => (Normal tt, logged ("Assistant: " +:+ content response) s1)
        | toolCalls =>
            try_catch (handleToolCalls fuel toolCalls)
                      (fun error => bind pop (fun _ => throw error)) s1
        end
    | Err e => (Throw e, popped (model_called asked))
    end.
Proof.
  unfold ChatManager.processUserInput, try_catch, bind, ollama_chat, push, log, pop,
    throw.
  destruct (chat _ _ _ _) as [response | e]; [| reflexivity].
  destruct (ChatManager.tool_calls_of response) as [| call rest]; reflexivity.
Qed.

(** The loop over a batch is the loop over its first part followed, if
    that did not return, by the loop over the rest. *)
Lemma for_each_call_app (handle : list ToolCall -> M unit)
    (before rest : list ToolCall) (s : Session) :
  for_each_call handle (before ++ rest) s
  = match for_each_call handle before s with
    | (Normal ChatManager.Continue, s1) => for_each_call handle rest s1
    | other => other
    end.
Proof.
  revert s. induction before as [| c before IH]; intros s; simpl.
  - reflexivity.
  - unfold bind. destruct (handle_call handle c s) as [[[|] | e | |] s1];
      try reflexivity. apply IH.
Qed.

(** A call after which the loop goes on made no request to the model. *)
Lemma handle_call_Continue (handle : list ToolCall -> M unit)
    (c : ToolCall) (s s1 : Session) :
  handle_call handle c s = (Normal ChatManager.Continue, s1) ->
  model_calls s1 = model_calls s.
Proof.
  unfold ChatManager.handle_call, bind.
  pose proof (quiet_invoke JSON_parse this c s) as [_ Hq].
  destruct (invoke c s) as [[[[args mappings] result] | e | |] s0];
    simpl in Hq; try discriminate.
  unfold ChatManager.handle_result.
  destruct result as [r |].
  - destruct (ChatManager.soft_failure (result_content r)) as [errorText |].
    + unfold bind, push.
      destruct (ChatManager.recover _ _ _ _ _) as [[[] | e | |] s2]; discriminate.
    + unfold bind, push, ret. intros [= <-]. exact Hq.
  - unfold ret. intros [= <-]. exact Hq.
Qed.

Lemma for_each_call_Continue (handle : list ToolCall -> M unit)
    (calls : list ToolCall) (s s1 : Session) :
  for_each_call handle calls s = (Normal ChatManager.Continue, s1) ->
  model_calls s1 = model_calls s.
Proof.
  revert s. induction calls as [| c calls IH]; intros s; simpl.
  - unfold ret. intros [= <-]. reflexivity.
  - unfold bind. destruct (handle_call handle c s) as [[[|] | e | |] s0] eqn:Hc;
      try discriminate.
    intros H. rewrite (IH _ H). apply (handle_call_Continue handle c s s0 Hc).
Qed.

Lemma soft_failure_spec (c : Content) (text : string) :
  ChatManager.soft_failure c = Some text
  <-> exists rest,
        c = ContentArray (Some (mkBlock "text" (Some text)) :: rest)
        /\ Spec.substring "Error" text.
Proof.
  unfold ChatManager.soft_failure. split.
  - destruct c as [[| [[ty [t |]] |] rest] | rendered b]; try discriminate.
    string_cases ty "text"; simpl; [| discriminate].
    destruct (includes t "Error") eqn:Hinc; [| discriminate].
    intros [= <-]. subst ty. exists rest. split; [reflexivity |].
    apply includes_spec, Hinc.
  - intros (rest & -> & Hsub). apply includes_spec in Hsub. simpl.
    rewrite Hsub. reflexivity.
Qed.

Lemma append_assoc (a b c : string) : (a +:+ b) +:+ c = a +:+ b +:+ c.
Proof.
  induction a as [| x a IH]; [reflexivity |].
  change (String x ((a +:+ b) +:+ c) = String x (a +:+ b +:+ c)). rewrite IH. reflexivity.
Qed.

Lemma substring_here (sub rest : string) : Spec.substring sub (sub +:+ rest).
Proof. exists "", rest. reflexivity. Qed.

Lemma substring_after (sub p s : string) :
  Spec.substring sub s -> Spec.substring sub (p +:+ s).
Proof.
  intros (before & after & ->). exists (p +:+ before), after.
  rewrite append_assoc. reflexivity.
Qed.

Lemma substring_before (sub s t : string) :
  Spec.substring sub s -> Spec.substring sub (s +:+ t).
Proof.
  intros (before & after & ->). exists before, (after +:+ t).
  rewrite !append_assoc. reflexivity.
Qed.

Lemma diagnostic_has_error_text (toolName errorText : string)
    (toolInfo : option OpenAiTool) (args : Json) (mappings : Obj string) :
  Spec.substring errorText
    (ChatManager.createDetailedErrorMessage toolName errorText toolInfo args mappings).
Proof.
  unfold ChatManager.createDetailedErrorMessage.
  destruct toolInfo as [info |]; [apply substring_before |];
    do 4 apply substring_after; apply substring_here.
Qed.

Lemma diagnostic_has_expected_parameters (toolName errorText : string)
    (info : OpenAiTool) (args : Json) (mappings : Obj string) :
  Spec.substring "Expected parameters"
    (ChatManager.createDetailedErrorMessage toolName errorText (Some info) args mappings).
Proof.
  unfold ChatManager.createDetailedErrorMessage.
  apply substring_after. apply (substring_here "Expected parameters").
Qed.

(** C3, as amended.  A result is a soft failure exactly when its content
    is an array whose first item is a text block with ["Error"] in its
    text.  For a soft failure the message appended to the transcript is
    the diagnostic, which holds the error text and, when the tool is in
    the catalog, ["Expected parameters"], and the recovery round
    follows; any other result is appended as its flattened text and the
    batch goes on. *)
Theorem soft_failure_diagnostic :
  (forall (c : Content) (text : string),
      ChatManager.soft_failure c = Some text
      <-> exists rest,
            c = ContentArray (Some (mkBlock "text" (Some text)) :: rest)
            /\ Spec.substring "Error" text)
  /\ (forall (handle : list ToolCall -> M unit) (toolCall : ToolCall)
             (args : Json) (mappings : Obj string) (r : CallToolResult)
             (s s1 : Session),
         invoke toolCall s = (Normal (args, mappings, Some r), s1) ->
         match ChatManager.soft_failure (result_content r) with
         | Some errorText =>
             let toolInfo :=
               ToolManager.getToolParameterInfo (ChatManager.toolManager this)
                                                (call_name toolCall) in
             let diagnostic :=
               ChatManager.createDetailedErrorMessage (call_name toolCall) errorText
                                                      toolInfo args mappings in
             handle_call handle toolCall s
             = bind (recover handle toolCall) (fun _ => ret ChatManager.Return)
                    (pushed (ChatManager.tool_message (call_name toolCall) diagnostic) s1)
             /\ Spec.substring errorText diagnostic
             /\ (toolInfo <> None -> Spec.substring "Expected parameters" diagnostic)
         | None =>
             handle_call handle toolCall s
             = (Normal ChatManager.Continue,
                pushed (ChatManager.tool_message (call_name toolCall)
                          (toolTypes.formatToolResponse (result_content r))) s1)
         end).
Proof.
  split; [exact soft_failure_spec |].
  intros handle toolCall args mappings r s s1 Hinvoke.
  rewrite (handle_call_after_invoke handle _ _ _ _ _ _ Hinvoke).
  unfold ChatManager.handle_result.
  destruct (ChatManager.soft_failure (result_content r)) as [errorText |].
  - split; [reflexivity |]. split; [apply diagnostic_has_error_text |].
    destruct (ToolManager.getToolParameterInfo _ _) as [info |]; [| congruence].
    intros _. apply diagnostic_has_expected_parameters.
  - reflexivity.
Qed.

Lemma hasNewToolCalls_false (toolCall : ToolCall) (newToolCalls : list ToolCall) :
  (forall call, In call newToolCalls ->
                call_name call = call_name toolCall
                /\ JSON_stringify (call_arguments call)
                   = JSON_stringify (call_arguments toolCall)) ->
  ChatManager.hasNewToolCalls JSON_stringify toolCall newToolCalls = false.
Proof.
  intros H. unfold ChatManager.hasNewToolCalls.
  apply not_true_is_false. intros Hex. apply existsb_exists in Hex as (call & Hin & Hd).
  destruct (H call Hin) as [E1 E2]. rewrite E1, E2, !String.eqb_refl in Hd.
  discriminate.
Qed.

(** C1.  When a call of the batch gives a soft failure and the model
    answers the diagnostic with calls that all have the name of the
    failed call and the same argument text, the handler reports that
    there was no progress and returns: the calls before it made no
    request to the model, the recovery made one, the handler does not
    call itself and the rest of the batch is not run.  When the batch is
    the one the first answer of the turn asked for, the turn ends there
    after two requests to the model. *)
Theorem recovery_stops_on_identical_batch :
  forall (fuel : nat) (before after : list ToolCall) (toolCall : ToolCall)
         (s s0 s1 : Session) (args : Json) (mappings : Obj string)
         (r : CallToolResult) (errorText : string) (reply : OllamaMessage)
         (newToolCalls : list ToolCall),
    for_each_call (handleToolCalls fuel) before (logged banner s)
    = (Normal ChatManager.Continue, s0) ->
    invoke toolCall s0 = (Normal (args, mappings, Some r), s1) ->
    ChatManager.soft_failure (result_content r) = Some errorText ->
    let diagnostic :=
      ChatManager.tool_message (call_name toolCall)
        (ChatManager.createDetailedErrorMessage (call_name toolCall) errorText
           (ToolManager.getToolParameterInfo (ChatManager.toolManager this)
                                            (call_name toolCall))
           args mappings) in
    chat (ChatManager.ollama this) (model_calls s1) (messages s1 ++ [diagnostic])
         (tools (ChatManager.toolManager this)) = Ok reply ->
    tool_calls reply = Some newToolCalls ->
    newToolCalls <> [] ->
    (forall call, In call newToolCalls ->
                  call_name call = call_name toolCall
                  /\ JSON_stringify (call_arguments call)
                     = JSON_stringify (call_arguments toolCall)) ->
    let final :=
      logged "There was an issue with the tool call. Trying again."
             (pushed reply (model_called (pushed diagnostic s1))) in
    handleToolCalls (S fuel) (before ++ toolCall :: after) s = (Normal tt, final)
    /\ model_calls final = S (model_calls s)
    /\ (forall (userInput : string) (turn : Session) (response : OllamaMessage),
           let asked := pushed (mkMessage user userInput None None) turn in
           chat (ChatManager.ollama this) (model_calls asked) (messages asked)
                (tools (ChatManager.toolManager this)) = Ok response ->
           tool_calls response = Some (before ++ toolCall :: after) ->
           s = pushed response (model_called asked) ->
           ChatManager.processUserInput JSON_parse JSON_stringify this (S fuel)
                                        userInput turn
           = (Normal tt, final)
           /\ model_calls final = 2 + model_calls turn).
Proof.
  intros fuel before after toolCall s s0 s1 args mappings r errorText reply
         newToolCalls Hbefore Hinvoke Hsoft diagnostic Hchat Hcalls Hne Hsame final.
  assert (Hrun : handleToolCalls (S fuel) (before ++ toolCall :: after) s
                 = (Normal tt, final)).
  { rewrite handleToolCalls_unfold, for_each_call_app, Hbefore.
    cbn [ChatManager.for_each_call]. unfold bind at 1.
    rewrite (handle_call_after_invoke _ _ _ _ _ _ _ Hinvoke).
    unfold ChatManager.handle_result. rewrite Hsoft.
    unfold bind, push, ret. fold diagnostic. rewrite recover_unfold.
    cbn [model_calls messages pushed]. rewrite Hchat.
    unfold ChatManager.tool_calls_of. rewrite Hcalls.
    destruct newToolCalls as [| call rest]; [contradiction |].
    cbv beta iota zeta.
    rewrite (hasNewToolCalls_false toolCall (call :: rest) Hsame). reflexivity. }
  assert (Hcount : model_calls final = S (model_calls s)).
  { simpl. f_equal.
    pose proof (quiet_invoke JSON_parse this toolCall s0) as [_ Hq].
    rewrite Hinvoke in Hq. simpl in Hq. rewrite Hq.
    apply (for_each_call_Continue _ _ _ _ Hbefore). }
  split; [exact Hrun |]. split; [exact Hcount |].
  intros userInput turn response asked Hresponse Htools Hs. subst asked.
  split.
  - rewrite processUserInput_unfold. cbv zeta. rewrite Hresponse.
    unfold ChatManager.tool_calls_of. rewrite Htools, <- Hs.
    destruct (before ++ toolCall :: after) as [| call rest] eqn:Hbatch.
    + destruct before; discriminate.
    + unfold try_catch. rewrite Hrun. reflexivity.
  - rewrite Hcount, Hs. reflexivity.
Qed.

Lemma hasNewTools_spec (toolCalls newToolCalls : list ToolCall) :
  ChatManager.hasNewTools toolCalls newToolCalls = true
  <-> exists call,
        In call newToolCalls /\ ~ In (call_name call) (map call_name toolCalls).
Proof.
  unfold ChatManager.hasNewTools. rewrite existsb_exists.
  split; intros (call & Hin & H); exists call; (split; [exact Hin |]).
  - apply negb_true_iff, bool_decide_eq_false in H.
    intros Hc. apply H, elem_of_list_to_set, list_elem_of_In, Hc.
  - apply negb_true_iff, bool_decide_eq_false. intros Hc. apply H.
    apply elem_of_list_to_set, list_elem_of_In in Hc. exact Hc.
Qed.

Lemma final_response_unfold (handle : list ToolCall -> M unit)
    (toolCalls : list ToolCall) (s1 : Session) :
  ChatManager.final_response this handle toolCalls s1
  = let absorb := ChatManager.rethrow_if_refused "Error getting final response: " in
    match chat (ChatManager.ollama this) (model_calls s1) (messages s1)
               (tools (ChatManager.toolManager this)) with
    | Ok reply =>
        let s2 := logged ("Assistant: " +:+ content reply)
                         (pushed reply (model_called s1)) in
        match ChatManager.tool_calls_of reply with
        | [] => (Normal tt, s2)
        | newToolCalls =>
            if ChatManager.hasNewTools toolCalls newToolCalls
            then try_catch (handle newToolCalls) absorb s2
            else (Normal tt, s2)
        end
    | Err e => absorb e (model_called s1)
    end.
Proof.
  unfold ChatManager.final_response, try_catch, bind, ollama_chat, push, log, ret.
  destruct (chat _ _ _ _) as [reply | e]; [| reflexivity].
  destruct (ChatManager.tool_calls_of reply) as [| call rest]; [reflexivity |].
  destruct (ChatManager.hasNewTools toolCalls (call :: rest)); reflexivity.
Qed.

(** C6, as amended.  After a batch in which no call gave a soft failure
    the handler sends one request to the model.  If the answer has a
    tool call whose name is not the name of a call of that batch, the
    handler runs itself on the new calls, under the [catch] of the final
    round; if every new call has the name of a call of that batch, or
    there is none, the turn ends there.  An error whose cause is a
    refused connection is thrown again; any other error of the request
    or of the inner run is printed after ["Error getting final
    response: "] and the handler returns. *)
Theorem final_response_recursion :
  forall (fuel : nat) (toolCalls : list ToolCall) (s s1 : Session),
    for_each_call (handleToolCalls fuel) toolCalls (logged banner s)
    = (Normal ChatManager.Continue, s1) ->
    let absorb (e : JsError) (s0 : Session) : Completion unit * Session :=
      if is_ECONNREFUSED e then (Throw e, s0)
      else (Normal tt, logged ("Error getting final response: " +:+ message e) s0) in
    let request :=
      chat (ChatManager.ollama this) (model_calls s1) (messages s1)
           (tools (ChatManager.toolManager this)) in
    model_calls s1 = model_calls s
    /\ (forall reply,
           request = Ok reply ->
           let s2 := logged ("Assistant: " +:+ content reply)
                            (pushed reply (model_called s1)) in
           ((exists call,
                In call (ChatManager.tool_calls_of reply)
                /\ ~ In (call_name call) (map call_name toolCalls)) ->
            handleToolCalls (S fuel) toolCalls s
            = match handleToolCalls fuel (ChatManager.tool_calls_of reply) s2 with
              | (Throw e, s3) => absorb e s3
              | other => other
              end)
           /\ ((forall call,
                   In call (ChatManager.tool_calls_of reply) ->
                   In (call_name call) (map call_name toolCalls)) ->
               handleToolCalls (S fuel) toolCalls s = (Normal tt, s2)))
    /\ (forall e,
           request = Err e ->
           handleToolCalls (S fuel) toolCalls s = absorb e (model_called s1)).
Proof.
  intros fuel toolCalls s s1 Hloop absorb request.
  assert (Habsorb : forall e s0,
             ChatManager.rethrow_if_refused "Error getting final response: " e s0
             = absorb e s0).
  { intros e s0. unfold ChatManager.rethrow_if_refused, absorb.
    destruct (is_ECONNREFUSED e); reflexivity. }
  assert (Hrun : handleToolCalls (S fuel) toolCalls s
                 = ChatManager.final_response this (handleToolCalls fuel)
                                              toolCalls s1).
  { rewrite handleToolCalls_unfold, Hloop. reflexivity. }
  rewrite Hrun, final_response_unfold. fold request.
  split; [| split].
  - apply (for_each_call_Continue _ _ _ _ Hloop).
  - intros reply Hreply s2. rewrite Hreply. fold s2. split.
    + intros Hnew. apply hasNewTools_spec in Hnew.
      destruct (ChatManager.tool_calls_of reply) as [| call rest] eqn:Hcalls.
      * simpl in Hnew. discriminate.
      * cbv beta iota zeta. rewrite Hnew. unfold try_catch.
        destruct (handleToolCalls fuel (call :: rest) s2) as [[[] | e | |] s3];
          try reflexivity.
        apply Habsorb.
    + intros Hold.
      destruct (ChatManager.tool_calls_of reply) as [| call rest] eqn:Hcalls;
        [reflexivity |].
      assert (Hno : ChatManager.hasNewTools toolCalls (call :: rest) = false).
      { apply not_true_is_false. intros H. apply hasNewTools_spec in H.
        destruct H as (c & Hin & Hnot). apply Hnot, Hold, Hin. }
      cbv beta iota zeta. rewrite Hno. reflexivity.
  - intros e He. rewrite He. apply Habsorb.
Qed.

(** When the first request of a turn fails, the user message is taken
    off again and the transcript is the one before the turn. *)
Lemma processUserInput_first_request_fails (fuel : nat) (userInput : string)
    (s : Session) (e : JsError) :
  chat (ChatManager.ollama this) (model_calls s)
       (messages s ++ [mkMessage user userInput None None])
       (tools (ChatManager.toolManager this)) = Err e ->
  ChatManager.processUserInput JSON_parse JSON_stringify this fuel userInput s
  = (Throw e, model_called s).
Proof.
  intros H. rewrite processUserInput_unfold. cbn [model_calls messages pushed].
  rewrite H. unfold popped, model_called. simpl. rewrite removelast_last.
  reflexivity.
Qed.
End BatchHandler.

Section SessionExamples.
Import JS Types Runtime JSFacts.

Lemma soft_failure_diagnostic_witness :
  let this := ChatManager.mkChatManager Demo.stubborn_model Demo.files_manager in
  let handle := ChatManager.handleToolCalls Demo.JSON_parse Demo.JSON_stringify this 0 in
  exists diagnostic s1,
    ChatManager.handle_call Demo.JSON_parse Demo.JSON_stringify this handle
                            Demo.read_call Demo.empty_session
    = bind (ChatManager.recover Demo.JSON_stringify this handle Demo.read_call)
           (fun _ => ret ChatManager.Return)
           (pushed (ChatManager.tool_message "read_file" diagnostic) s1)
    /\ Spec.substring "Error: file not found" diagnostic
    /\ Spec.substring "Expected parameters" diagnostic.
Proof.
  intros this handle.
  pose proof (proj2 (soft_failure_diagnostic Demo.JSON_parse Demo.JSON_stringify this)
                handle Demo.read_call (JObj [("path", JStr "/nope")]) []
                (mkResult (ContentArray [Some (mkBlock "text" (Some "Error: file not found"))]))
                Demo.empty_session
                (provider_called (logged "Using tool: read_file" Demo.empty_session))
                eq_refl) as H.
  simpl ChatManager.soft_failure in H. destruct H as (Hcall & Htext & Hexpected).
  do 2 eexists. split; [exact Hcall |]. split; [exact Htext |].
  apply Hexpected. discriminate.
Defined.

(** C3 as stated fails: the flattened text of this result has ["Error"]
    in it, in its second block, yet the result is not taken for a soft
    failure; it is appended as it is and the batch goes on. *)
Lemma soft_failure_counterexample :
  let this := ChatManager.mkChatManager Demo.silent_model Demo.files_manager in
  let flattened := "3 files found" +:+ nl +:+ "Error: one entry unreadable" in
  option_map (fun r => toolTypes.formatToolResponse (result_content r)) Demo.listing
  = Some flattened
  /\ includes flattened "Error" = true
  /\ option_map (fun r => ChatManager.soft_failure (result_content r)) Demo.listing
     = Some None
  /\ ChatManager.handle_call Demo.JSON_parse Demo.JSON_stringify this
       (fun _ => ret tt) Demo.list_call Demo.empty_session
     = (Normal ChatManager.Continue,
        mkSession [ChatManager.tool_message "list_files" flattened]
                  ["Using tool: list_files"] 0 1).
Proof. repeat split. Qed.

Lemma recovery_stops_on_identical_batch_witness :
  let this := ChatManager.mkChatManager Demo.stubborn_model Demo.files_manager in
  exists final,
    ChatManager.processUserInput Demo.JSON_parse Demo.JSON_stringify this 1
      "read /nope" Demo.empty_session = (Normal tt, final)
    /\ model_calls final = 2
    /\ List.last (console final) ""
       = "There was an issue with the tool call. Trying again.".
Proof.
  intros this.
  set (response := mkMessage assistant "" (Some [Demo.read_call]) None).
  set (s := pushed response
              (model_called (pushed (mkMessage user "read /nope" None None)
                                    Demo.empty_session))).
  destruct (recovery_stops_on_identical_batch Demo.JSON_parse Demo.JSON_stringify this
              0 [] [] Demo.read_call s
              (logged "Model is using tools to help answer..." s)
              (provider_called
                 (logged "Using tool: read_file"
                    (logged "Model is using tools to help answer..." s)))
              (JObj [("path", JStr "/nope")]) []
              (mkResult (ContentArray [Some (mkBlock "text" (Some "Error: file not found"))]))
              "Error: file not found" response [Demo.read_call])
    as (_ & _ & Hturn); try reflexivity.
  - discriminate.
  - intros call [<- | []]. split; reflexivity.
  - destruct (Hturn "read /nope" Demo.empty_session response eq_refl eq_refl eq_refl)
      as [Hrun Hcount].
    eexists. split; [exact Hrun |]. split; [exact Hcount | reflexivity].
Defined.

Lemma final_response_recursion_witness :
  let this := ChatManager.mkChatManager Demo.searching_model Demo.files_manager in
  let s2 :=
    logged "Assistant: Let me search."
      (pushed (mkMessage assistant "Let me search." (Some [Demo.search_call]) None)
         (model_called
            (pushed (ChatManager.tool_message "list_files"
                       ("3 files found" +:+ nl +:+ "Error: one entry unreadable"))
               (provider_called
                  (logged "Using tool: list_files"
                     (logged "Model is using tools to help answer..."
                             Demo.empty_session)))))) in
  ChatManager.handleToolCalls Demo.JSON_parse Demo.JSON_stringify this 2
    [Demo.list_call] Demo.empty_session
  = ChatManager.handleToolCalls Demo.JSON_parse Demo.JSON_stringify this 1
      [Demo.search_call] s2
  /\ fst (ChatManager.handleToolCalls Demo.JSON_parse Demo.JSON_stringify this 1
            [Demo.search_call] s2) = Normal tt.
Proof.
  intros this s2. split; [| reflexivity].
  rewrite (proj1 (proj1 (proj2 (final_response_recursion Demo.JSON_parse
                                   Demo.JSON_stringify this 1 [Demo.list_call]
                                   Demo.empty_session _ eq_refl))
                        (mkMessage assistant "Let me search." (Some [Demo.search_call]) None)
                        eq_refl)).
  - reflexivity.
  - exists Demo.search_call. split; [left; reflexivity |].
    simpl. intros [H | []]. discriminate.
Defined.

Lemma alternating_never_ends (fuel : nat) (s : Session) :
  fst (ChatManager.handleToolCalls Demo.JSON_parse Demo.JSON_stringify Demo.alternating_chat fuel
         [if Nat.even (model_calls s) then Demo.list_call else Demo.search_call] s)
  = OutOfFuel.
Proof.
  revert s. induction fuel as [| fuel IH]; intros s; [reflexivity |].
  rewrite handleToolCalls_unfold.
  destruct s as [ms cs n p]. cbn [model_calls].
  destruct (Nat.even n) eqn:Hn.
  - match goal with
    | |- context [ChatManager.for_each_call ?a ?b ?c ?h ?l ?s0] =>
        assert (Hloop : ChatManager.for_each_call a b c h l s0
                        = (Normal ChatManager.Continue,
                           pushed (ChatManager.tool_message "list_files"
                                     ("3 files found" +:+ nl +:+ "Error: one entry unreadable"))
                             (provider_called (logged "Using tool: list_files" s0))))
          by reflexivity
    end.
    rewrite Hloop, final_response_unfold.
    cbn [model_calls pushed provider_called logged messages].
    unfold Demo.alternating_chat at 1. unfold Demo.alternating_model at 1. cbn [ChatManager.ollama chat].
    rewrite Hn. cbv zeta. cbn [ChatManager.tool_calls_of tool_calls].
    assert (Hnew : ChatManager.hasNewTools [Demo.list_call] [Demo.search_call] = true)
      by reflexivity.
    rewrite Hnew. unfold try_catch.
    match goal with
    | |- context [ChatManager.handleToolCalls _ _ _ fuel _ ?s2] =>
        set (next := s2);
        assert (Hcount : model_calls next = S n) by reflexivity;
        pose proof (IH next) as Hrec
    end.
    rewrite Hcount, Nat.even_succ, <- Nat.negb_even, Hn in Hrec. cbn [negb] in Hrec.
    destruct (ChatManager.handleToolCalls _ _ _ fuel _ next) as [[[] | e | |] s3];
      simpl in Hrec; try discriminate. reflexivity.
  - match goal with
    | |- context [ChatManager.for_each_call ?a ?b ?c ?h ?l ?s0] =>
        assert (Hloop : ChatManager.for_each_call a b c h l s0
                        = (Normal ChatManager.Continue,
                           pushed (ChatManager.tool_message "search" "3 pages found")
                             (provider_called (logged "Using tool: search" s0))))
          by reflexivity
    end.
    rewrite Hloop, final_response_unfold.
    cbn [model_calls pushed provider_called logged messages].
    unfold Demo.alternating_chat at 1. unfold Demo.alternating_model at 1. cbn [ChatManager.ollama chat].
    rewrite Hn. cbv zeta. cbn [ChatManager.tool_calls_of tool_calls].
    assert (Hnew : ChatManager.hasNewTools [Demo.search_call] [Demo.list_call] = true)
      by reflexivity.
    rewrite Hnew. unfold try_catch.
    match goal with
    | |- context [ChatManager.handleToolCalls _ _ _ fuel _ ?s2] =>
        set (next := s2);
        assert (Hcount : model_calls next = S n) by reflexivity;
        pose proof (IH next) as Hrec
    end.
    rewrite Hcount, Nat.even_succ, <- Nat.negb_even, Hn in Hrec. cbn [negb] in Hrec.
    destruct (ChatManager.handleToolCalls _ _ _ fuel _ next) as [[[] | e | |] s3];
      simpl in Hrec; try discriminate. reflexivity.
Qed.

(** C6 as stated fails in both directions.  First, the final answer asks
    again for [search], the only tool of the batch: its name set is not
    a strict subset of the names already tried, yet the handler does not
    run again and the turn ends after one request to the model.  Second,
    a model that asks for [search] and [list_files] in turn: the third
    answer asks for [search], whose name set is a strict subset of the
    names tried in the turn, so the turn is to end; the handler compares
    with the batch just handled, [list_files], and runs again: [search]
    is called a second time, and the turn has not ended at any depth of
    recursion. *)
Lemma final_response_counterexample :
  (let this := ChatManager.mkChatManager Demo.searching_model Demo.web_manager in
   Spec.claimed_to_recurse [Demo.search_call] [Demo.search_call]
   /\ ChatManager.handleToolCalls Demo.JSON_parse Demo.JSON_stringify this 3
        [Demo.search_call] Demo.empty_session
      = (Normal tt,
         mkSession
           [ChatManager.tool_message "search" "3 pages found";
            mkMessage assistant "Let me search." (Some [Demo.search_call]) None]
           ["Model is using tools to help answer..."; "Using tool: search";
            "Assistant: Let me search."]
           1 1))
  /\ (let turn fuel :=
         ChatManager.processUserInput Demo.JSON_parse Demo.JSON_stringify
           Demo.alternating_chat fuel "go" Demo.empty_session in
      ~ Spec.claimed_to_recurse [Demo.search_call; Demo.list_call] [Demo.search_call]
      /\ ChatManager.hasNewTools [Demo.list_call] [Demo.search_call] = true
      /\ fst (turn 3) = OutOfFuel
      /\ map (fun m => (role m, option_map (map call_name) (tool_calls m), tool_call_id m))
             (messages (snd (turn 3)))
         = [(user, None, None);
            (assistant, Some ["search"], None); (tool, None, Some "search");
            (assistant, Some ["list_files"], None); (tool, None, Some "list_files");
            (assistant, Some ["search"], None); (tool, None, Some "search");
            (assistant, Some ["list_files"], None)]
      /\ forall fuel, fst (turn fuel) = OutOfFuel).
Proof.
  split.
  - intros this. split; [| reflexivity].
    unfold Spec.claimed_to_recurse. intros [_ Hstrict]. apply Hstrict. reflexivity.
  - intros turn. split; [| split; [| split; [| split]]]; try reflexivity.
    + unfold Spec.claimed_to_recurse. intros H. apply H. split.
      * intros x Hx. apply elem_of_list_to_set in Hx. apply elem_of_list_to_set.
        apply list_elem_of_In in Hx. apply list_elem_of_In.
        destruct Hx as [<- | []]. left. reflexivity.
      * intros Hsub. specialize (Hsub "list_files"). unfold Spec.name_set in Hsub.
        rewrite !elem_of_list_to_set, !list_elem_of_In in Hsub.
        destruct Hsub as [H0 | []]; [right; left; reflexivity | discriminate].
    + intros fuel. unfold turn. rewrite processUserInput_unfold.
      cbv zeta. cbn [model_calls messages pushed Demo.empty_session
                     Demo.alternating_chat ChatManager.ollama Demo.alternating_model chat
                     Nat.even ChatManager.tool_calls_of tool_calls].
      unfold try_catch.
      match goal with
      | |- context [ChatManager.handleToolCalls _ _ _ fuel _ ?s1] =>
          pose proof (alternating_never_ends fuel s1) as Hrec
      end.
      cbn [model_calls pushed model_called Demo.empty_session Nat.even] in Hrec.
      destruct (ChatManager.handleToolCalls _ _ _ fuel _ _) as [[[] | e | |] s3];
        simpl in Hrec; try discriminate. reflexivity.
Qed.

(** C2 fails on the code.  A transcript of three messages, the user
    sends ["hello"], the model asks for [search], the tool answers, and
    the next request to the model is refused: the turn throws, one
    message is taken off, and the transcript is left with five messages,
    the user message among them. *)
Theorem rollback_after_refused_final_request :
  let this := ChatManager.mkChatManager Demo.dropping_model Demo.web_manager in
  exists after,
    ChatManager.processUserInput Demo.JSON_parse Demo.JSON_stringify this 3
      "hello" Demo.three_messages = (Throw Demo.connection_refused, after)
    /\ length (messages Demo.three_messages) = 3
    /\ length (messages after) = 5
    /\ messages after
       = messages Demo.three_messages
         ++ [mkMessage user "hello" None None;
             mkMessage assistant "" (Some [Demo.search_call]) None].
Proof. intros this. eexists. repeat split. Qed.
End SessionExamples.

(* ================================================================== *)
(** * What a session keeps: the session only grows *)
(* ================================================================== *)

Section Growing.
Import JS Types Runtime JSFacts.

Lemma advances_refl (s : Session) : advances s s.
Proof.
  repeat split; try lia; exists []; rewrite app_nil_r; reflexivity.
Qed.

Lemma advances_trans (s1 s2 s3 : Session) :
  advances s1 s2 -> advances s2 s3 -> advances s1 s3.
Proof.
  intros ((m1 & Hm1) & (c1 & Hc1) & Hn1 & Hp1) ((m2 & Hm2) & (c2 & Hc2) & Hn2 & Hp2).
  repeat split; try lia.
  - exists (m1 ++ m2). rewrite Hm2, Hm1, app_assoc. reflexivity.
  - exists (c1 ++ c2). rewrite Hc2, Hc1, app_assoc. reflexivity.
Qed.

Lemma advances_logged (line : string) (s : Session) : advances s (logged line s).
Proof.
  repeat split; simpl; try lia; [exists [] | exists [line]];
    rewrite ?app_nil_r; reflexivity.
Qed.

Lemma advances_pushed (m : OllamaMessage) (s : Session) : advances s (pushed m s).
Proof.
  repeat split; simpl; try lia; [exists [m] | exists []];
    rewrite ?app_nil_r; reflexivity.
Qed.

Lemma advances_model_called (s : Session) : advances s (model_called s).
Proof.
  repeat split; simpl; try lia; exists []; rewrite app_nil_r; reflexivity.
Qed.

Lemma advances_provider_called (s : Session) : advances s (provider_called s).
Proof.
  repeat split; simpl; try lia; exists []; rewrite app_nil_r; reflexivity.
Qed.

Lemma growing_ret {A : Type} (a : A) : growing (ret a).
Proof. intros s. apply advances_refl. Qed.

Lemma growing_throw {A : Type} (e : JsError) : growing (@throw A e).
Proof. intros s. apply advances_refl. Qed.

Lemma growing_log (line : string) : growing (log line).
Proof. intros s. apply advances_logged. Qed.

Lemma growing_push (m : OllamaMessage) : growing (push m).
Proof. intros s. apply advances_pushed. Qed.

Lemma growing_of_result {A : Type} (r : Result A) : growing (of_result r).
Proof. destruct r; [apply growing_ret | apply growing_throw]. Qed.

Lemma growing_await {A : Type} (p : Promise A) : growing (await p).
Proof. intros s. destruct p; apply advances_refl. Qed.

Lemma growing_bind {A B : Type} (m : M A) (k : A -> M B) :
  growing m -> (forall a, growing (k a)) -> growing (bind m k).
Proof.
  intros Hm Hk s. unfold bind. specialize (Hm s).
  destruct (m s) as [[a | e | |] s1]; simpl in *; try exact Hm.
  apply (advances_trans _ _ _ Hm). apply Hk.
Qed.

Lemma growing_try_catch {A : Type} (m : M A) (handler : JsError -> M A) :
  growing m -> (forall e, growing (handler e)) -> growing (try_catch m handler).
Proof.
  intros Hm Hh s. unfold try_catch. specialize (Hm s).
  destruct (m s) as [[a | e | |] s1]; simpl in *; try exact Hm.
  apply (advances_trans _ _ _ Hm). apply Hh.
Qed.

Lemma growing_ollama_chat (o : Ollama) (ts : list OpenAiTool) :
  growing (ollama_chat o ts).
Proof.
  intros s. unfold ollama_chat. destruct (chat o _ _ _); apply advances_model_called.
Qed.

Lemma growing_provider_call (c : Client) (n : string) (a : Json) :
  growing (provider_call c n a).
Proof. intros s. apply advances_provider_called. Qed.

Lemma growing_callTool (this : ToolManager) (toolName : string) (a : Json) :
  growing (ToolManager.callTool this toolName a).
Proof.
  unfold ToolManager.callTool. destruct (toolMap this !! Some toolName) as [c |].
  - apply growing_try_catch.
    + apply growing_bind; [apply growing_provider_call | intros p; apply growing_await].
    + intros e. apply growing_bind; [apply growing_log | intros; apply growing_ret].
  - apply growing_bind; [apply growing_log | intros; apply growing_ret].
Qed.

Lemma growing_rethrow_if_refused (label : string) (e : JsError) :
  growing (ChatManager.rethrow_if_refused label e).
Proof.
  unfold ChatManager.rethrow_if_refused.
  destruct (is_ECONNREFUSED e); [apply growing_throw | apply growing_log].
Qed.

Variable JSON_parse : string -> Result Json.
Variable JSON_stringify : Json -> string.
Variable this : ChatManager.ChatManager.

Lemma growing_invoke (toolCall : ToolCall) :
  growing (ChatManager.invoke JSON_parse this toolCall).
Proof.
  unfold ChatManager.invoke.
  apply growing_bind.
  { unfold ChatManager.parseToolArguments.
    destruct (call_arguments toolCall); try apply growing_ret.
    destruct (JSON_parse s); [apply growing_ret |].
    apply growing_bind; [apply growing_log | intros; apply growing_ret]. }
  intros a. apply growing_bind; [apply growing_log | intros _].
  apply growing_bind; [apply growing_of_result | intros mappings].
  apply growing_bind; [apply growing_of_result | intros fixedArgs].
  apply growing_bind; [apply growing_callTool | intros result; apply growing_ret].
Qed.

Section WithHandler.
Variable handle : list ToolCall -> M unit.
Hypothesis growing_handle : forall calls, growing (handle calls).

Lemma growing_recover (toolCall : ToolCall) :
  growing (ChatManager.recover JSON_stringify this handle toolCall).
Proof.
  unfold ChatManager.recover. apply growing_try_catch.
  - apply growing_bind; [apply growing_ollama_chat | intros reply].
    apply growing_bind; [apply growing_push | intros _].
    destruct (ChatManager.tool_calls_of reply) as [| c rest]; [apply growing_ret |].
    destruct (ChatManager.hasNewToolCalls _ _ _);
      [apply growing_handle | apply growing_log].
  - intros e. apply growing_rethrow_if_refused.
Qed.

Lemma growing_handle_call (toolCall : ToolCall) :
  growing (ChatManager.handle_call JSON_parse JSON_stringify this handle toolCall).
Proof.
  unfold ChatManager.handle_call.
  apply growing_bind; [apply growing_invoke | intros [[a mappings] result]].
  unfold ChatManager.handle_result. destruct result as [r |]; [| apply growing_ret].
  destruct (ChatManager.soft_failure (result_content r)) as [errorText |].
  - apply growing_bind; [apply growing_push | intros _].
    apply growing_bind; [apply growing_recover | intros _; apply growing_ret].
  - apply growing_bind; [apply growing_push | intros _; apply growing_ret].
Qed.

Lemma growing_for_each_call (toolCalls : list ToolCall) :
  growing (ChatManager.for_each_call JSON_parse JSON_stringify this handle toolCalls).
Proof.
  induction toolCalls as [| c rest IH]; simpl; [apply growing_ret |].
  apply growing_bind; [apply growing_handle_call | intros [|]];
    [exact IH | apply growing_ret].
Qed.

Lemma growing_final_response (toolCalls : list ToolCall) :
  growing (ChatManager.final_response this handle toolCalls).
Proof.
  unfold ChatManager.final_response. apply growing_try_catch.
  - apply growing_bind; [apply growing_ollama_chat | intros reply].
    apply growing_bind; [apply growing_push | intros _].
    apply growing_bind; [apply growing_log | intros _].
    destruct (ChatManager.tool_calls_of reply) as [| c rest]; [apply growing_ret |].
    destruct (ChatManager.hasNewTools _ _); [apply growing_handle | apply growing_ret].
  - intros e. apply growing_rethrow_if_refused.
Qed.
End WithHandler.

(** X1.  The batch handler only ever adds to the session: whatever the model
    and the providers answer, however the handler ends and for every
    budget, the transcript and the console it leaves extend the ones it
    found, and no message that was there is changed or removed. *)
Theorem handleToolCalls_growing :
  forall (fuel : nat) (toolCalls : list ToolCall) (s : Session),
    advances s (snd (ChatManager.handleToolCalls JSON_parse JSON_stringify this
                       fuel toolCalls s)).
Proof.
  induction fuel as [| fuel IH]; intros toolCalls.
  - intros s. apply advances_refl.
  - change (growing (ChatManager.handleToolCalls JSON_parse JSON_stringify this
                       (S fuel) toolCalls)).
    cbn [ChatManager.handleToolCalls].
    apply growing_bind; [apply growing_log | intros _].
    apply growing_bind; [apply growing_for_each_call; exact IH | intros [|]].
    + apply growing_final_response. exact IH.
    + apply growing_ret.
Qed.

(** X2.  A turn never touches what earlier turns left in the transcript:
    however it ends, the transcript before the turn is an initial part
    of the transcript after it. *)
Theorem processUserInput_keeps_history :
  forall (fuel : nat) (userInput : string) (s : Session),
  exists more,
    messages (snd (ChatManager.processUserInput JSON_parse JSON_stringify this
                     fuel userInput s))
    = messages s ++ more.
Proof.
  intros fuel userInput s.
  unfold ChatManager.processUserInput, bind at 1, push at 1.
  set (asked := pushed (mkMessage user userInput None None) s).
  set (body := bind (ollama_chat _ _) _).
  assert (Hbody : growing body).
  { apply growing_bind; [apply growing_ollama_chat | intros response].
    apply growing_bind; [apply growing_push | intros _].
    destruct (ChatManager.tool_calls_of response) as [| c rest];
      [apply growing_log | intros s0; apply handleToolCalls_growing]. }
  unfold try_catch. destruct (Hbody asked) as ((more & Hmore) & _).
  destruct (body asked) as [[a | e | |] s1]; simpl in *;
    try (exists (mkMessage user userInput None None :: more);
         rewrite Hmore, <- app_assoc; reflexivity).
  unfold bind, pop, throw. simpl. rewrite Hmore.
  destruct more as [| m more] using rev_ind.
  - rewrite app_nil_r, removelast_last. exists []. rewrite app_nil_r. reflexivity.
  - rewrite app_assoc, removelast_last.
    exists (mkMessage user userInput None None :: more).
    rewrite <- app_assoc. reflexivity.
Qed.

(** X3.  The roll-back of a failed turn is exact only for the first request.
    When a turn throws, the transcript is the one before the turn
    exactly when it was the first request to the model that failed; in
    every other case the user message of the turn stays in it. *)
Theorem rollback_exact_iff_first_request_fails :
  forall (fuel : nat) (userInput : string) (s s' : Session) (e : JsError),
    ChatManager.processUserInput JSON_parse JSON_stringify this fuel userInput s
    = (Throw e, s') ->
    (messages s' = messages s
     <-> chat (ChatManager.ollama this) (model_calls s)
              (messages s ++ [mkMessage user userInput None None])
              (tools (ChatManager.toolManager this)) = Err e)
    /\ (messages s' = messages s
        \/ exists more,
             messages s' = messages s ++ mkMessage user userInput None None :: more).
Proof.
  intros fuel userInput s s' e. rewrite processUserInput_unfold.
  cbv zeta. cbn [model_calls messages pushed].
  destruct (chat _ _ _ _) as [response | e0] eqn:Hchat.
  - destruct (ChatManager.tool_calls_of response) as [| call rest]; [discriminate |].
    unfold try_catch.
    match goal with
    | |- context [ChatManager.handleToolCalls _ _ _ fuel ?calls ?s0] =>
        pose proof (handleToolCalls_growing fuel calls s0) as ((more & Hmore) & _);
        destruct (ChatManager.handleToolCalls JSON_parse JSON_stringify this fuel calls s0)
          as [[[] | e1 | |] s1]; try discriminate
    end.
    unfold bind, pop, throw. intros [= -> <-]. simpl in Hmore. simpl.
    assert (Hleft : exists kept,
               removelast (messages s1)
               = messages s ++ mkMessage user userInput None None :: kept).
    { rewrite Hmore. destruct more as [| m more] using rev_ind.
      - rewrite app_nil_r, removelast_last. exists []. reflexivity.
      - rewrite app_assoc, removelast_last. exists (response :: more).
        rewrite <- !app_assoc. reflexivity. }
    destruct Hleft as (kept & Hkept). rewrite Hkept. split.
    + split; [| discriminate]. intros H. exfalso.
      apply (f_equal (@length _)) in H. rewrite length_app in H. simpl in H. lia.
    + right. exists kept. reflexivity.
  - intros [= -> <-]. simpl. rewrite removelast_last. split; [| left; reflexivity].
    split; reflexivity.
Qed.

(** A [try] that starts with a request to the model has sent it,
    however it ends. *)
Lemma request_sent {A : Type} (k : OllamaMessage -> M A) (handler : JsError -> M A)
    (s : Session) :
  (forall reply, growing (k reply)) -> (forall e, growing (handler e)) ->
  advances (model_called s)
    (snd (try_catch
            (bind (ollama_chat (ChatManager.ollama this)
                               (tools (ChatManager.toolManager this))) k)
            handler s)).
Proof.
  intros Hk Hh. unfold try_catch, bind, ollama_chat.
  destruct (chat _ _ _ _) as [reply | e].
  - pose proof (Hk reply (model_called s)) as H.
    destruct (k reply (model_called s)) as [[a | e | |] s1]; simpl in *; try exact H.
    apply (advances_trans _ _ _ H). apply Hh.
  - apply Hh.
Qed.

Lemma callTool_no_throw (tm : ToolManager) (toolName : string) (a : Json)
    (s s' : Session) (e : JsError) :
  ToolManager.callTool tm toolName a s <> (Throw e, s').
Proof.
  unfold ToolManager.callTool. destruct (toolMap tm !! Some toolName) as [c |].
  - unfold try_catch, bind, provider_call, await.
    destruct (client_callTool c (provider_calls s) toolName a); discriminate.
  - discriminate.
Qed.

Lemma invoke_throws (toolCall : ToolCall) (s s' : Session) (e : JsError) :
  ChatManager.invoke JSON_parse this toolCall s = (Throw e, s') ->
  e = TypeError_nullish.
Proof.
  unfold ChatManager.invoke, bind.
  destruct (ChatManager.parseToolArguments JSON_parse (call_arguments toolCall) s)
    as [[a | e0 | |] s0] eqn:Hparse; try discriminate.
  - unfold log, of_result.
    destruct (ToolManager.suggestParameterMapping _ _ a) as [mappings | e1] eqn:Hs.
    + unfold ret at 1.
      destruct (ChatManager.fixToolArguments a mappings) as [fixedArgs | e2] eqn:Hf.
      * unfold ret at 1.
        destruct (ToolManager.callTool _ _ _ _) as [[r | e3 | |] s3] eqn:Hc;
          try discriminate.
        exfalso. apply (callTool_no_throw _ _ _ _ _ _ Hc).
      * unfold throw. intros [= <- _].
        unfold ChatManager.fixToolArguments in Hf.
        destruct a; simpl in Hf; congruence.
    + unfold throw. intros [= <- _].
      unfold ToolManager.suggestParameterMapping in Hs.
      destruct (ToolManager.getToolParameterInfo _ _); [| discriminate].
      unfold Object_keys in Hs. destruct a; simpl in Hs; congruence.
  - unfold ChatManager.parseToolArguments in Hparse.
    destruct (call_arguments toolCall); try discriminate.
    destruct (JSON_parse s1); discriminate.
Qed.

Lemma refused_only {A : Type} (m : M unit) (label : string) (s s' : Session)
    (e : JsError) :
  try_catch m (ChatManager.rethrow_if_refused label) s = (Throw e, s') ->
  is_ECONNREFUSED e = true.
Proof.
  unfold try_catch, ChatManager.rethrow_if_refused.
  destruct (m s) as [[[] | e0 | |] s0]; try discriminate.
  destruct (is_ECONNREFUSED e0) eqn:He; [| discriminate].
  unfold throw. intros [= <- _]. exact He.
Qed.

Lemma for_each_call_throws (handle : list ToolCall -> M unit)
    (toolCalls : list ToolCall) (s s' : Session) (e : JsError) :
  ChatManager.for_each_call JSON_parse JSON_stringify this handle toolCalls s
  = (Throw e, s') ->
  is_ECONNREFUSED e = true \/ e = TypeError_nullish.
Proof.
  revert s. induction toolCalls as [| c rest IH]; intros s; simpl; [discriminate |].
  unfold bind at 1.
  destruct (ChatManager.handle_call _ _ _ _ c s) as [[[|] | e0 | |] s0] eqn:Hc;
    try discriminate.
  - apply IH.
  - intros [= <- _]. revert Hc. unfold ChatManager.handle_call, bind at 1.
    destruct (ChatManager.invoke JSON_parse this c s)
      as [[[[a mappings] result] | e1 | |] s1] eqn:Hi; try discriminate.
    + unfold ChatManager.handle_result. destruct result as [r |]; [| discriminate].
      destruct (ChatManager.soft_failure (result_content r)); [| discriminate].
      unfold bind at 1, push at 1. unfold bind at 1.
      destruct (ChatManager.recover _ _ _ _ _) as [[[] | e2 | |] sr] eqn:Hr;
        try discriminate.
      intros [= <- _]. left. apply (refused_only (A := unit) _ _ _ _ _ Hr).
    + intros [= <- _]. right. apply (invoke_throws _ _ _ _ Hi).
Qed.

(** X4.  The only exceptions that leave the batch handler are a refused
    connection to the model and the [TypeError] of arguments that are
    [null]: every other failure of a model request is absorbed, and a
    failing tool never makes the handler throw. *)
Theorem handleToolCalls_throws_only :
  forall (fuel : nat) (toolCalls : list ToolCall) (s s' : Session) (e : JsError),
    ChatManager.handleToolCalls JSON_parse JSON_stringify this fuel toolCalls s
    = (Throw e, s') ->
    is_ECONNREFUSED e = true \/ e = TypeError_nullish.
Proof.
  intros [| fuel] toolCalls s s' e; [discriminate |].
  cbn [ChatManager.handleToolCalls]. unfold bind at 1, log at 1. unfold bind at 1.
  destruct (ChatManager.for_each_call _ _ _ _ toolCalls _) as [[[|] | e0 | |] s0] eqn:Hl;
    try discriminate.
  - intros H. left. apply (refused_only (A := unit) _ _ _ _ _ H).
  - intros [= <- _]. apply (for_each_call_throws _ _ _ _ _ Hl).
Qed.

Lemma handle_call_Continue_messages (handle : list ToolCall -> M unit)
    (c : ToolCall) (s s1 : Session) :
  ChatManager.handle_call JSON_parse JSON_stringify this handle c s
  = (Normal ChatManager.Continue, s1) ->
  messages s1 = messages s
  \/ exists text, messages s1 = messages s ++ [ChatManager.tool_message (call_name c) text].
Proof.
  unfold ChatManager.handle_call, bind at 1.
  pose proof (quiet_invoke JSON_parse this c s) as [Hq _].
  destruct (ChatManager.invoke JSON_parse this c s)
    as [[[[a mappings] result] | e | |] s0]; simpl in Hq; try discriminate.
  unfold ChatManager.handle_result. destruct result as [r |].
  - destruct (ChatManager.soft_failure (result_content r)).
    + unfold bind at 1, push at 1. unfold bind at 1.
      destruct (ChatManager.recover _ _ _ _ _) as [[[] | e | |] sr]; discriminate.
    + unfold bind, push, ret. intros [= <-]. right. eexists. simpl.
      rewrite Hq. reflexivity.
  - unfold ret. intros [= <-]. left. exact Hq.
Qed.

(** X5.  A batch that is run to its end without a soft failure appends only
    tool messages: at most one for each call, in the order of the
    calls, each tagged with the name of its call. *)
Theorem batch_appends_tagged_results :
  forall (handle : list ToolCall -> M unit) (toolCalls : list ToolCall)
         (s s1 : Session),
    ChatManager.for_each_call JSON_parse JSON_stringify this handle toolCalls s
    = (Normal ChatManager.Continue, s1) ->
    exists more,
      messages s1 = messages s ++ more
      /\ Forall (fun m => role m = tool /\ tool_calls m = None) more
      /\ sublist (map tool_call_id more) (map (fun c => Some (call_name c)) toolCalls).
Proof.
  intros handle toolCalls. induction toolCalls as [| c rest IH]; intros s s1; simpl.
  - unfold ret. intros [= <-]. exists []. rewrite app_nil_r.
    repeat split; constructor.
  - unfold bind at 1.
    destruct (ChatManager.handle_call _ _ _ _ c s) as [[[|] | e | |] s0] eqn:Hc;
      try discriminate.
    intros Hrest. destruct (IH _ _ Hrest) as (more & Hm & Hall & Hsub).
    destruct (handle_call_Continue_messages _ _ _ _ Hc) as [H0 | [text H0]].
    + exists more. rewrite Hm, H0. repeat split; [exact Hall |].
      apply sublist_cons. exact Hsub.
    + exists (ChatManager.tool_message (call_name c) text :: more).
      rewrite Hm, H0, <- app_assoc. repeat split.
      * constructor; [split; reflexivity | exact Hall].
      * simpl. apply sublist_skip. exact Hsub.
Qed.

Lemma recover_requests (handle : list ToolCall -> M unit) (c : ToolCall)
    (s : Session) :
  (forall calls, growing (handle calls)) ->
  model_calls s < model_calls (snd (ChatManager.recover JSON_stringify this handle c s)).
Proof.
  intros Hhandle. unfold ChatManager.recover.
  match goal with
  | |- context [try_catch (bind _ ?k) ?h s] =>
      destruct (request_sent k h s) as (_ & _ & Hm & _)
  end.
  - intros reply. apply growing_bind; [apply growing_push | intros _].
    destruct (ChatManager.tool_calls_of reply); [apply growing_ret |].
    destruct (ChatManager.hasNewToolCalls _ _ _); [apply Hhandle | apply growing_log].
  - intros e. apply growing_rethrow_if_refused.
  - apply Nat.lt_le_trans with (model_calls (model_called s)); [simpl; lia | exact Hm].
Qed.

Lemma final_response_requests (handle : list ToolCall -> M unit)
    (toolCalls : list ToolCall) (s : Session) :
  (forall calls, growing (handle calls)) ->
  model_calls s < model_calls (snd (ChatManager.final_response this handle toolCalls s)).
Proof.
  intros Hhandle. unfold ChatManager.final_response.
  match goal with
  | |- context [try_catch (bind _ ?k) ?h s] =>
      destruct (request_sent k h s) as (_ & _ & Hm & _)
  end.
  - intros reply. apply growing_bind; [apply growing_push | intros _].
    apply growing_bind; [apply growing_log | intros _].
    destruct (ChatManager.tool_calls_of reply); [apply growing_ret |].
    destruct (ChatManager.hasNewTools _ _); [apply Hhandle | apply growing_ret].
  - intros e. apply growing_rethrow_if_refused.
  - apply Nat.lt_le_trans with (model_calls (model_called s)); [simpl; lia | exact Hm].
Qed.

(** X6.  The handler never returns without having consulted the model: a
    run that ends normally has sent at least one request to it. *)
Theorem handleToolCalls_consults_model :
  forall (fuel : nat) (toolCalls : list ToolCall) (s s' : Session),
    ChatManager.handleToolCalls JSON_parse JSON_stringify this fuel toolCalls s
    = (Normal tt, s') ->
    model_calls s < model_calls s'.
Proof.
  intros [| fuel] toolCalls s s'; [discriminate |].
  set (handle := ChatManager.handleToolCalls JSON_parse JSON_stringify this fuel).
  assert (Hhandle : forall calls, growing (handle calls))
    by (intros calls s0; apply handleToolCalls_growing).
  assert (Hloop : forall calls s0 s1,
             ChatManager.for_each_call JSON_parse JSON_stringify this handle calls s0
             = (Normal ChatManager.Return, s1) ->
             model_calls s0 < model_calls s1).
  { induction calls as [| c rest IH]; intros s0 s1; simpl; [discriminate |].
    unfold bind at 1.
    destruct (ChatManager.handle_call _ _ _ _ c s0) as [[[|] | e | |] sh] eqn:Hc;
      try discriminate.
    - intros H. apply IH in H.
      pose proof (growing_handle_call handle Hhandle c s0) as (_ & _ & Hn & _).
      rewrite Hc in Hn. simpl in Hn. lia.
    - unfold ret. intros [= <-]. revert Hc.
      unfold ChatManager.handle_call, bind at 1.
      pose proof (growing_invoke c s0) as (_ & _ & Hn & _).
      destruct (ChatManager.invoke JSON_parse this c s0)
        as [[[[a mappings] result] | e | |] si]; simpl in Hn; try discriminate.
      unfold ChatManager.handle_result. destruct result as [r |]; [| discriminate].
      destruct (ChatManager.soft_failure (result_content r)) as [errorText |];
        [| discriminate].
      unfold bind at 1, push at 1. unfold bind at 1.
      pose proof (recover_requests handle c
                    (pushed (ChatManager.tool_message (call_name c)
                               (ChatManager.createDetailedErrorMessage (call_name c)
                                  errorText
                                  (ToolManager.getToolParameterInfo
                                     (ChatManager.toolManager this) (call_name c))
                                  a mappings)) si) Hhandle) as Hm.
      destruct (ChatManager.recover _ _ _ _ _) as [[[] | e | |] sr]; try discriminate.
      intros [= <-]. simpl in Hm. lia. }
  cbn [ChatManager.handleToolCalls]. fold handle.
  unfold bind at 1, log at 1. unfold bind at 1.
  destruct (ChatManager.for_each_call _ _ _ _ toolCalls _) as [[[|] | e | |] s0] eqn:Hl;
    try discriminate.
  - intros H.
    pose proof (growing_for_each_call handle Hhandle toolCalls
                  (logged "Model is using tools to help answer..." s))
      as (_ & _ & Hn & _).
    rewrite Hl in Hn. simpl in Hn.
    pose proof (final_response_requests handle toolCalls s0 Hhandle) as Hm.
    rewrite H in Hm. simpl in Hm. lia.
  - unfold ret. intros [= <-]. apply Hloop in Hl. simpl in Hl. exact Hl.
Qed.

Lemma report_turn_error_logs (err : JsError) (s : Session) :
  exists lines,
    ChatManager.report_turn_error err s
    = (Normal tt, mkSession (messages s) (console s ++ lines) (model_calls s)
                            (provider_calls s)).
Proof.
  unfold ChatManager.report_turn_error.
  destruct (is_ECONNREFUSED err).
  - unfold bind, log, logged. simpl. eexists.
    rewrite <- !app_assoc. simpl. reflexivity.
  - unfold log, logged. eexists. reflexivity.
Qed.

Lemma chat_loop_spec (fuel : nat) (prompts : list ChatManager.Prompted) (s : Session) :
  let r := ChatManager.chat_loop JSON_parse JSON_stringify this fuel prompts s in
  (fst r = Normal tt \/ fst r = Hang \/ fst r = OutOfFuel)
  /\ exists more, messages (snd r) = messages s ++ more.
Proof.
  revert s. induction prompts as [| result rest IH]; intros s; cbn zeta.
  - simpl. split; [auto |]. exists []. rewrite app_nil_r. reflexivity.
  - cbn [ChatManager.chat_loop].
    destruct (toLowerCase (ChatManager.getUserInput result) =? "exit").
    + simpl. split; [auto |]. exists []. rewrite app_nil_r. reflexivity.
    + unfold bind, try_catch.
      destruct (processUserInput_keeps_history fuel (ChatManager.getUserInput result) s)
        as (more & Hmore).
      destruct (ChatManager.processUserInput _ _ _ _ _ s) as [[[] | e | |] s1];
        simpl in Hmore.
      * destruct (IH s1) as (Hend & more' & Hm). split; [exact Hend |].
        exists (more ++ more'). rewrite Hm, Hmore, app_assoc. reflexivity.
      * destruct (report_turn_error_logs e s1) as (lines & ->).
        destruct (IH (mkSession (messages s1) (console s1 ++ lines) (model_calls s1)
                                (provider_calls s1)))
          as (Hend & more' & Hm).
        split; [exact Hend |].
        exists (more ++ more'). rewrite Hm. simpl. rewrite Hmore, app_assoc.
        reflexivity.
      * simpl. split; [auto |]. exists more. exact Hmore.
      * simpl. split; [auto |]. exists more. exact Hmore.
Qed.

Lemma start_unfold (fuel : nat) (prompts : list ChatManager.Prompted) (s : Session) :
  ChatManager.start JSON_parse JSON_stringify this fuel prompts s
  = match ChatManager.chat_loop JSON_parse JSON_stringify this fuel prompts
            (logged ("Chat started. Type " +:+ ChatManager.double_quote +:+ "exit"
                     +:+ ChatManager.double_quote +:+ " to end the conversation.") s)
    with
    | (Throw e, s') => (Normal tt, logged ("Error: " +:+ message e) s')
    | other => other
    end.
Proof.
  unfold ChatManager.start, try_catch, bind, log.
  destruct (ChatManager.chat_loop _ _ _ _ _ _) as [[[] | e | |] s1]; reflexivity.
Qed.

Lemma report_turn_error_reported (err : JsError) (s : Session) :
  ChatManager.report_turn_error err s = (Normal tt, Spec.reported err s).
Proof.
  unfold ChatManager.report_turn_error, Spec.reported.
  destruct (is_ECONNREFUSED err).
  - unfold bind, log, logged. simpl. rewrite <- !app_assoc. reflexivity.
  - reflexivity.
Qed.

(** One round of the loop, for a line that is not [exit]. *)
Lemma chat_loop_turn (fuel : nat) (text : string) (rest : list ChatManager.Prompted)
    (s : Session) :
  toLowerCase text <> "exit" ->
  ChatManager.chat_loop JSON_parse JSON_stringify this fuel
    (ChatManager.Line text :: rest) s
  = match ChatManager.processUserInput JSON_parse JSON_stringify this fuel text s with
    | (Normal _, s1) =>
        ChatManager.chat_loop JSON_parse JSON_stringify this fuel rest s1
    | (Throw err, s1) =>
        ChatManager.chat_loop JSON_parse JSON_stringify this fuel rest
          (Spec.reported err s1)
    | other => other
    end.
Proof.
  intros Hline. cbn [ChatManager.chat_loop ChatManager.getUserInput].
  apply String.eqb_neq in Hline. rewrite Hline. unfold bind, try_catch.
  destruct (ChatManager.processUserInput _ _ _ _ _ s) as [[[] | err | |] s1];
    try reflexivity.
  rewrite report_turn_error_reported. reflexivity.
Qed.

Lemma start_chat_loop (fuel : nat) (prompts : list ChatManager.Prompted) (s : Session) :
  ChatManager.start JSON_parse JSON_stringify this fuel prompts s
  = ChatManager.chat_loop JSON_parse JSON_stringify this fuel prompts
      (logged Spec.chat_started s).
Proof.
  rewrite start_unfold.
  change ("Chat started. Type " +:+ ChatManager.double_quote +:+ "exit"
          +:+ ChatManager.double_quote +:+ " to end the conversation.")
    with Spec.chat_started.
  destruct (chat_loop_spec fuel prompts (logged Spec.chat_started s)) as (Hend & _).
  destruct (ChatManager.chat_loop _ _ _ _ _ _) as [[[] | e | |] s1];
    try reflexivity.
  simpl in Hend. destruct Hend as [H | [H | H]]; discriminate.
Qed.

(** X7.  A turn that fails does not end the session.  [start] itself
    never throws and keeps the transcript it found; when the turn of a
    line throws, the error is printed (four lines about the lost
    connection when it was refused, else ["Error processing input: "]
    and the message) and the loop goes on with the next prompt from
    the session the failed turn left. *)
Theorem start_reports_failed_turn :
  (forall (fuel : nat) (prompts : list ChatManager.Prompted) (s : Session),
      let r := ChatManager.start JSON_parse JSON_stringify this fuel prompts s in
      (fst r = Normal tt \/ fst r = Hang \/ fst r = OutOfFuel)
      /\ exists more, messages (snd r) = messages s ++ more)
  /\ (forall (fuel : nat) (text : string) (rest : list ChatManager.Prompted)
             (s s1 : Session) (err : JsError),
         toLowerCase text <> "exit" ->
         ChatManager.processUserInput JSON_parse JSON_stringify this fuel text
           (logged Spec.chat_started s) = (Throw err, s1) ->
         ChatManager.start JSON_parse JSON_stringify this fuel
           (ChatManager.Line text :: rest) s
         = ChatManager.chat_loop JSON_parse JSON_stringify this fuel rest
             (mkSession
                (messages s1)
                (console s1
                 ++ (if is_ECONNREFUSED err
                     then [nl +:+ "Error: Lost connection to Ollama server. Please ensure Ollama is running.";
                           "You can:";
                           "1. Start Ollama and type your message again";
                           "2. Type " +:+ ChatManager.double_quote +:+ "exit"
                           +:+ ChatManager.double_quote +:+ " to quit" +:+ nl]
                     else ["Error processing input: " +:+ message err]))
                (model_calls s1) (provider_calls s1))).
Proof.
  split.
  - intros fuel prompts s. cbn zeta. rewrite start_unfold.
    match goal with
    | |- context [ChatManager.chat_loop _ _ _ _ _ ?s0] =>
        destruct (chat_loop_spec fuel prompts s0) as (Hend & more & Hm)
    end.
    destruct (ChatManager.chat_loop _ _ _ _ _ _) as [[[] | e | |] s1]; simpl in *.
    + split; [auto |]. exists more. exact Hm.
    + destruct Hend as [H | [H | H]]; discriminate.
    + split; [auto |]. exists more. exact Hm.
    + split; [auto |]. exists more. exact Hm.
  - intros fuel text rest s s1 err Hline Hturn.
    rewrite start_chat_loop, chat_loop_turn by exact Hline. rewrite Hturn.
    reflexivity.
Qed.

Lemma chat_loop_turns (fuel : nat) (lines : list string)
    (result : ChatManager.Prompted) (after : list ChatManager.Prompted) (s : Session) :
  Forall (fun text => toLowerCase text <> "exit") lines ->
  toLowerCase (ChatManager.getUserInput result) = "exit" ->
  ChatManager.chat_loop JSON_parse JSON_stringify this fuel
    (map ChatManager.Line lines ++ result :: after) s
  = Spec.turns JSON_parse JSON_stringify this fuel lines s.
Proof.
  intros Hlines Hexit. revert s. induction Hlines as [| text lines Hline _ IH]; intros s.
  - simpl. rewrite Hexit. reflexivity.
  - cbn [map app]. rewrite chat_loop_turn by exact Hline. cbn [Spec.turns].
    destruct (ChatManager.processUserInput _ _ _ _ _ s) as [[[] | err | |] s1];
      try reflexivity; apply IH.
Qed.

(** X8.  [start] returns as soon as the prompt gives [exit], in any
    case of its letters, or is cancelled.  The session is then the
    first line on the console followed by one turn for each line read
    before, and nothing that the prompt would give afterwards is read:
    with no line before, [start] returns at once. *)
Theorem start_returns_at_exit :
  (forall (fuel : nat) (lines : list string) (result : ChatManager.Prompted)
          (after : list ChatManager.Prompted) (s : Session),
      Forall (fun text => toLowerCase text <> "exit") lines ->
      toLowerCase (ChatManager.getUserInput result) = "exit" ->
      ChatManager.start JSON_parse JSON_stringify this fuel
        (map ChatManager.Line lines ++ result :: after) s
      = Spec.turns JSON_parse JSON_stringify this fuel lines
          (logged ("Chat started. Type " +:+ ChatManager.double_quote +:+ "exit"
                   +:+ ChatManager.double_quote +:+ " to end the conversation.") s))
  /\ (forall (fuel : nat) (result : ChatManager.Prompted)
             (after : list ChatManager.Prompted) (s : Session),
         toLowerCase (ChatManager.getUserInput result) = "exit" ->
         ChatManager.start JSON_parse JSON_stringify this fuel (result :: after) s
         = (Normal tt,
            logged ("Chat started. Type " +:+ ChatManager.double_quote +:+ "exit"
                    +:+ ChatManager.double_quote +:+ " to end the conversation.") s)).
Proof.
  assert (Hrun : forall fuel lines result after s,
             Forall (fun text => toLowerCase text <> "exit") lines ->
             toLowerCase (ChatManager.getUserInput result) = "exit" ->
             ChatManager.start JSON_parse JSON_stringify this fuel
               (map ChatManager.Line lines ++ result :: after) s
             = Spec.turns JSON_parse JSON_stringify this fuel lines
                 (logged Spec.chat_started s)).
  { intros fuel lines result after s Hlines Hexit.
    rewrite start_chat_loop. apply chat_loop_turns; assumption. }
  split.
  - exact Hrun.
  - intros fuel result after s Hexit.
    exact (Hrun fuel [] result after s (List.Forall_nil _) Hexit).
Qed.
End Growing.

Section SessionWitnesses.
Import JS Types Runtime JSFacts.

Lemma rollback_exact_iff_first_request_fails_witness :
  let this := ChatManager.mkChatManager Demo.dropping_model Demo.web_manager in
  exists after,
    ChatManager.processUserInput Demo.JSON_parse Demo.JSON_stringify this 3
      "hello" Demo.three_messages = (Throw Demo.connection_refused, after)
    /\ messages after <> messages Demo.three_messages
    /\ exists more,
         messages after
         = messages Demo.three_messages ++ mkMessage user "hello" None None :: more.
Proof.
  intros this. eexists. split; [reflexivity |].
  destruct (rollback_exact_iff_first_request_fails Demo.JSON_parse Demo.JSON_stringify
              this 3 "hello" Demo.three_messages _ Demo.connection_refused eq_refl)
    as (Hiff & Hkept).
  split.
  - intros H. apply Hiff in H. discriminate.
  - destruct Hkept as [H | H]; [apply Hiff in H; discriminate | exact H].
Defined.

Lemma handleToolCalls_throws_only_witness :
  is_ECONNREFUSED Demo.connection_refused = true
  \/ Demo.connection_refused = TypeError_nullish.
Proof.
  apply (handleToolCalls_throws_only Demo.JSON_parse Demo.JSON_stringify
           (ChatManager.mkChatManager Demo.dropping_model Demo.web_manager)
           1 [Demo.search_call] (mkSession [] [] 2 0)
           (mkSession [ChatManager.tool_message "search" "3 pages found"]
                      ["Model is using tools to help answer..."; "Using tool: search"]
                      3 1)).
  reflexivity.
Defined.

Lemma batch_appends_tagged_results_witness :
  exists more,
    more = [ChatManager.tool_message "list_files"
              ("3 files found" +:+ nl +:+ "Error: one entry unreadable")]
    /\ sublist (map tool_call_id more)
               (map (fun c => Some (call_name c)) [Demo.search_call; Demo.list_call]).
Proof.
  destruct (batch_appends_tagged_results Demo.JSON_parse Demo.JSON_stringify
              (ChatManager.mkChatManager Demo.silent_model Demo.files_manager)
              (fun _ => ret tt) [Demo.search_call; Demo.list_call] Demo.empty_session
              (pushed (ChatManager.tool_message "list_files"
                         ("3 files found" +:+ nl +:+ "Error: one entry unreadable"))
                 (provider_called
                    (logged "Using tool: list_files"
                       (logged "Tool 'search' not found among available tools."
                          (logged "Using tool: search" Demo.empty_session)))))
              eq_refl)
    as (more & Hm & _ & Hsub).
  simpl in Hm. subst more. eexists. split; [reflexivity | exact Hsub].
Defined.

Lemma handleToolCalls_consults_model_witness :
  let run := ChatManager.handleToolCalls Demo.JSON_parse Demo.JSON_stringify
               (ChatManager.mkChatManager Demo.searching_model Demo.web_manager)
               3 [Demo.search_call] Demo.empty_session in
  fst run = Normal tt /\ model_calls Demo.empty_session < model_calls (snd run).
Proof.
  intros run. split; [reflexivity |].
  apply (handleToolCalls_consults_model Demo.JSON_parse Demo.JSON_stringify
           (ChatManager.mkChatManager Demo.searching_model Demo.web_manager)
           3 [Demo.search_call] Demo.empty_session (snd run)).
  reflexivity.
Defined.

Lemma start_reports_failed_turn_witness :
  let this := ChatManager.mkChatManager Demo.flaky_model Demo.web_manager in
  ChatManager.start Demo.JSON_parse Demo.JSON_stringify this 2
    [ChatManager.Line "hi"; ChatManager.Line "again"; ChatManager.Line "exit"]
    Demo.empty_session
  = (Normal tt,
     mkSession [mkMessage user "again" None None;
                mkMessage assistant "Done." None None]
               [Spec.chat_started; "Error processing input: model not found";
                "Assistant: Done."]
               2 0).
Proof.
  intros this.
  rewrite (proj2 (start_reports_failed_turn Demo.JSON_parse Demo.JSON_stringify this)
                 2 "hi" [ChatManager.Line "again"; ChatManager.Line "exit"]
                 Demo.empty_session
                 (mkSession [] [Spec.chat_started] 1 0) (Error "model not found")).
  - reflexivity.
  - discriminate.
  - reflexivity.
Defined.

Lemma start_returns_at_exit_witness :
  let this := ChatManager.mkChatManager Demo.silent_model Demo.web_manager in
  ChatManager.start Demo.JSON_parse Demo.JSON_stringify this 2
    [ChatManager.Line "hi"; ChatManager.Line "EXIT"; ChatManager.Line "more"]
    Demo.empty_session
  = (Normal tt,
     mkSession [mkMessage user "hi" None None; mkMessage assistant "Done." None None]
               [Spec.chat_started; "Assistant: Done."] 1 0)
  /\ ChatManager.start Demo.JSON_parse Demo.JSON_stringify this 2
       [ChatManager.Cancelled; ChatManager.Line "more"] Demo.empty_session
     = (Normal tt, mkSession [] [Spec.chat_started] 0 0).
Proof.
  intros this.
  assert (Hlines : Forall (fun text => toLowerCase text <> "exit") ["hi"])
    by (repeat constructor; discriminate).
  pose proof (proj1 (start_returns_at_exit Demo.JSON_parse Demo.JSON_stringify this) 2
                ["hi"] (ChatManager.Line "EXIT") [ChatManager.Line "more"]
                Demo.empty_session Hlines eq_refl) as Hrun.
  pose proof (proj2 (start_returns_at_exit Demo.JSON_parse Demo.JSON_stringify this) 2
                ChatManager.Cancelled [ChatManager.Line "more"]
                Demo.empty_session eq_refl) as Hnow.
  cbn [map app] in Hrun. split.
  - rewrite Hrun. reflexivity.
  - rewrite Hnow. reflexivity.
Defined.
End SessionWitnesses.


(* ================================================================== *)
(** * More on the catalog *)
(* ================================================================== *)

Section CatalogInvariants.
Import JS Types Runtime JSFacts.

Lemma warn_each_console (line : string) (n : nat) (s : Session) :
  ToolManager.warn_each line n s
  = (Normal tt, mkSession (messages s) (console s ++ repeat line n) (model_calls s)
                          (provider_calls s)).
Proof.
  revert s. induction n as [| n IH]; intros s; simpl.
  - rewrite app_nil_r. destruct s; reflexivity.
  - unfold bind, log. rewrite IH. simpl. rewrite <- app_assoc. reflexivity.
Qed.

Lemma convertToOpenaiTools_run (ts : list McpTool) (s : Session) :
  ToolManager.convertToOpenaiTools ts s
  = (Normal (map ToolManager.to_openai (filter ToolManager.has_name ts)),
     mkSession (messages s)
               (console s ++ repeat "Tool missing name:"
                                    (length (filter (fun t => negb (ToolManager.has_name t)) ts)))
               (model_calls s) (provider_calls s)).
Proof.
  unfold ToolManager.convertToOpenaiTools, bind.
  rewrite warn_each_console. reflexivity.
Qed.

(** X9.  The catalog keeps the tools that have a name, in their order and
    under their names, so no entry has an empty name; one warning is
    printed for every tool that is dropped, and nothing else changes. *)
Theorem convertToOpenaiTools_named :
  forall (ts : list McpTool) (s : Session),
  exists catalog dropped,
    ToolManager.convertToOpenaiTools ts s
    = (Normal catalog,
       mkSession (messages s) (console s ++ repeat "Tool missing name:" dropped)
                 (model_calls s) (provider_calls s))
    /\ Forall (fun t => fn_name t <> "") catalog
    /\ map fn_name catalog
       = flat_map (fun t => match name t with
                            | Some n => if truthy n then [n] else []
                            | None => []
                            end) ts
    /\ length catalog + dropped = length ts.
Proof.
  intros ts s. rewrite convertToOpenaiTools_run.
  do 2 eexists. split; [reflexivity |]. clear s.
  induction ts as [| t ts (IH1 & IH2 & IH3)].
  - repeat split. constructor.
  - assert (Hname : ToolManager.has_name t
                    = match name t with Some n => truthy n | None => false end)
      by reflexivity.
    destruct (ToolManager.has_name t) eqn:Hh.
    + rewrite (filter_cons_True (fun t => Is_true (ToolManager.has_name t)))
        by (rewrite Hh; exact I).
      rewrite (filter_cons_False (fun t => Is_true (negb (ToolManager.has_name t))))
        by (rewrite Hh; intros []).
      destruct (name t) as [n |] eqn:Hn; [| discriminate].
      simpl. rewrite Hn, <- Hname. repeat split.
      * constructor; [| exact IH1]. unfold ToolManager.to_openai. simpl.
        rewrite Hn. apply truthy_iff. congruence.
      * rewrite IH2. reflexivity.
      * lia.
    + rewrite (filter_cons_False (fun t => Is_true (ToolManager.has_name t)))
        by (rewrite Hh; intros []).
      rewrite (filter_cons_True (fun t => Is_true (negb (ToolManager.has_name t))))
        by (rewrite Hh; exact I).
      assert (Hnone : match name t with
                      | Some n => if truthy n then [n] else []
                      | None => []
                      end = []).
      { destruct (name t); [rewrite <- Hname |]; reflexivity. }
      simpl. rewrite Hnone. simpl. repeat split; [exact IH1 | exact IH2 | lia].
Qed.

Lemma register_never_null (c : Client) (ts : list (option McpTool))
    (m m' : gmap (option string) Client) :
  ToolManager.register c ts m = Ok m' -> ~ In None ts.
Proof.
  revert m. induction ts as [| [t |] ts IH]; intros m; simpl.
  - intros _ [].
  - intros H [E | Hin]; [discriminate | exact (IH _ H Hin)].
  - discriminate.
Qed.

Lemma register_null (c : Client) (ts : list (option McpTool))
    (m : gmap (option string) Client) (e : JsError) :
  ToolManager.register c ts m = Err e ->
  e = Error "Cannot read properties of null (reading 'name')".
Proof.
  revert m. induction ts as [| [t |] ts IH]; intros m; simpl.
  - discriminate.
  - apply IH.
  - intros [= <-]. reflexivity.
Qed.

Lemma collect_success (cs : list (string * Client)) (allMcpTools : list McpTool)
    (m : gmap (option string) Client) (s : Session)
    (r : list McpTool * gmap (option string) Client) (s' : Session) :
  ToolManager.collect cs allMcpTools m s = (Normal r, s') ->
  forall entry, In entry cs -> ~ In None (Spec.accepted (snd entry)).
Proof.
  revert allMcpTools m s. induction cs as [| [label c] cs IH];
    intros allMcpTools m s; simpl.
  - intros _ entry [].
  - destruct (fetchTools_accepted c s) as (r0 & s1 & Hfetch & Hacc).
    unfold bind at 1. rewrite Hfetch. destruct r0 as [ts |]; simpl in Hacc.
    + subst ts. unfold bind at 1.
      destruct (ToolManager.register c (Spec.accepted c) m) as [m1 | e] eqn:Hreg;
        simpl; [| discriminate].
      intros H entry [<- | Hin]; [exact (register_never_null _ _ _ _ Hreg) |].
      exact (IH _ _ _ H entry Hin).
    + intros H entry [<- | Hin]; [simpl; rewrite <- Hacc; intros [] |].
      exact (IH _ _ _ H entry Hin).
Qed.

(** What a successful initialisation leaves. *)
Lemma initialize_success (this0 this : ToolManager) (cs : list (string * Client))
    (s s' : Session) :
  ToolManager.initialize this0 cs s = (Normal this, s') ->
  (forall n, toolMap this !! n
             = fold_left (fun found entry =>
                            if Spec.offers n (snd entry) then Some (snd entry)
                            else found)
                         cs (toolMap this0 !! n))
  /\ tools this
     = map ToolManager.to_openai
           (filter ToolManager.has_name
                   (flat_map (fun entry => Spec.offered (snd entry)) cs)).
Proof.
  unfold ToolManager.initialize. destruct cs as [| entry rest]; [discriminate |].
  set (cs := entry :: rest). unfold bind at 1.
  destruct (ToolManager.collect cs [] (toolMap this0) s) as [[[all m] | e | |] s1] eqn:Hc;
    try discriminate.
  destruct (collect_spec cs [] (toolMap this0) s (collect_success _ _ _ _ _ _ Hc))
    as (m' & s1' & Hc' & Hm).
  rewrite Hc in Hc'. injection Hc' as -> -> ->.
  unfold bind. rewrite convertToOpenaiTools_run. unfold ret. intros [= <- _].
  simpl. split; [exact Hm | reflexivity].
Qed.

Lemma fold_offering_is_Some (n : option string) (cs : list (string * Client))
    (init : option Client) :
  is_Some (fold_left (fun found entry =>
                        if Spec.offers n (snd entry) then Some (snd entry) else found)
                     cs init)
  <-> is_Some init \/ exists entry, In entry cs /\ Spec.offers n (snd entry) = true.
Proof.
  revert init. induction cs as [| entry cs IH]; intros init; simpl.
  - split; [auto | intros [H | (entry & [] & _)]; exact H].
  - rewrite IH. destruct (Spec.offers n (snd entry)) eqn:Ho.
    + split; [intros _ | intros _; left; eexists; reflexivity].
      right. exists entry. auto.
    + split.
      * intros [H | (e & Hin & He)]; [auto | right; exists e; auto].
      * intros [H | (e & [<- | Hin] & He)]; [auto | congruence | right; exists e; auto].
Qed.

Lemma offers_spec (n : option string) (c : Client) :
  Spec.offers n c = true <-> exists t, In t (Spec.offered c) /\ name t = n.
Proof.
  unfold Spec.offers. rewrite existsb_exists. split.
  - intros (t & Hin & Ht). exists t. split; [exact Hin |].
    apply bool_decide_eq_true_1 in Ht. exact Ht.
  - intros (t & Hin & Ht). exists t. split; [exact Hin |].
    apply bool_decide_eq_true_2. exact Ht.
Qed.

Lemma catalog_lookup_is_Some (n : string) (ts : list McpTool) :
  n <> "" ->
  is_Some (find (fun t => fn_name t =? n)
                (map ToolManager.to_openai (filter ToolManager.has_name ts)))
  <-> exists t, In t ts /\ name t = Some n.
Proof.
  intros Hn. induction ts as [| t ts IH].
  - simpl. split; [intros [x H]; discriminate | intros (t & [] & _)].
  - assert (Hname : ToolManager.has_name t
                    = match name t with Some n => truthy n | None => false end)
      by reflexivity.
    destruct (ToolManager.has_name t) eqn:Hh.
    + rewrite (filter_cons_True (fun t => Is_true (ToolManager.has_name t)))
        by (rewrite Hh; exact I).
      destruct (name t) as [n0 |] eqn:Hn0; [| discriminate].
      simpl. rewrite Hn0. string_cases n0 n.
      * split; [intros _ | intros _; eexists; reflexivity].
        exists t. split; [left; reflexivity | congruence].
      * rewrite IH. split.
        -- intros (t' & Hin & Ht'). exists t'. auto.
        -- intros (t' & [<- | Hin] & Ht'); [congruence | exists t'; auto].
    + rewrite (filter_cons_False (fun t => Is_true (ToolManager.has_name t)))
        by (rewrite Hh; intros []).
      rewrite IH. split.
      * intros (t' & Hin & Ht'). exists t'. split; [right; exact Hin | exact Ht'].
      * intros (t' & [<- | Hin] & Ht'); [| exists t'; auto].
        rewrite Ht' in Hname. symmetry in Hname.
        apply not_true_iff_false in Hname. exfalso. apply Hname, truthy_iff, Hn.
Qed.

(** X10.  After a successful initialisation the catalog shown to the model
    and the dispatch table agree on every name that is not empty: a
    tool of the catalog can always be dispatched, and a name that can
    be dispatched is in the catalog. *)
Theorem initialize_dispatches_catalog :
  forall (newClients : list (string * Client)) (s s' : Session) (this : ToolManager),
    ToolManager.initialize ToolManager.new_ToolManager newClients s = (Normal this, s') ->
    forall n, n <> "" ->
      (is_Some (toolMap this !! Some n)
       <-> is_Some (ToolManager.getToolParameterInfo this n)).
Proof.
  intros cs s s' this Hinit n Hn.
  destruct (initialize_success _ _ _ _ _ Hinit) as (Hmap & Htools).
  unfold ToolManager.getToolParameterInfo.
  rewrite Hmap, Htools, fold_offering_is_Some, catalog_lookup_is_Some by exact Hn.
  simpl. rewrite lookup_empty. split.
  - intros [[x H] | (entry & Hin & Ho)]; [discriminate |].
    apply offers_spec in Ho as (t & Ht & Hname).
    exists t. split; [| exact Hname]. apply in_flat_map. exists entry. auto.
  - intros (t & Hin & Hname). right.
    apply in_flat_map in Hin as (entry & Hin & Ht).
    exists entry. split; [exact Hin |]. apply offers_spec. exists t. auto.
Qed.

Lemma initialize_dispatches_catalog_witness :
  exists this s',
    ToolManager.initialize ToolManager.new_ToolManager Demo.two_providers
                           Demo.empty_session = (Normal this, s')
    /\ (is_Some (toolMap this !! Some "open")
        <-> is_Some (ToolManager.getToolParameterInfo this "open")).
Proof.
  do 2 eexists. split; [reflexivity |].
  eapply (initialize_dispatches_catalog Demo.two_providers Demo.empty_session).
  - reflexivity.
  - discriminate.
Defined.

Lemma collect_null (cs : list (string * Client)) (allMcpTools : list McpTool)
    (m : gmap (option string) Client) (s : Session) :
  (exists entry, In entry cs /\ In None (Spec.accepted (snd entry))) ->
  exists s',
    ToolManager.collect cs allMcpTools m s
    = (Throw (Error "Cannot read properties of null (reading 'name')"), s').
Proof.
  revert allMcpTools m s. induction cs as [| [label c] cs IH];
    intros allMcpTools m s (entry & Hin & Hnull); simpl; [destruct Hin |].
  destruct (fetchTools_accepted c s) as (r0 & s1 & Hfetch & Hacc).
  unfold bind at 1. rewrite Hfetch. destruct r0 as [ts |]; simpl in Hacc.
  - subst ts. unfold bind at 1.
    destruct (ToolManager.register c (Spec.accepted c) m) as [m1 | e] eqn:Hreg; simpl.
    + destruct Hin as [<- | Hin];
        [exfalso; exact (register_never_null _ _ _ _ Hreg Hnull) |].
      apply IH. exists entry. auto.
    + apply register_null in Hreg as ->. eexists. reflexivity.
  - destruct Hin as [<- | Hin]; [simpl in Hnull; rewrite <- Hacc in Hnull; destruct Hnull |].
    apply IH. exists entry. auto.
Qed.

(** X11.  One [null] in the tool list of any provider aborts the whole
    initialisation: the list passes the format check, because [null] is
    an object for [typeof], and reading its name throws; no provider is
    skipped and no catalog is built. *)
Theorem initialize_null_element_throws :
  forall (this : ToolManager) (newClients : list (string * Client)) (s : Session),
    (exists entry, In entry newClients /\ In None (Spec.accepted (snd entry))) ->
    exists s',
      ToolManager.initialize this newClients s
      = (Throw (Error "Cannot read properties of null (reading 'name')"), s').
Proof.
  intros this cs s Hnull. unfold ToolManager.initialize.
  destruct cs as [| entry rest]; [destruct Hnull as (e & [] & _) |].
  destruct (collect_null (entry :: rest) [] (toolMap this) s Hnull) as (s' & Hc).
  unfold bind at 1. rewrite Hc. eexists. reflexivity.
Qed.

Lemma initialize_null_element_throws_witness :
  exists s',
    ToolManager.initialize ToolManager.new_ToolManager
      [("web", Demo.web_provider); ("careless", Demo.careless_provider)]
      Demo.empty_session
    = (Throw (Error "Cannot read properties of null (reading 'name')"), s').
Proof.
  apply initialize_null_element_throws.
  exists ("careless", Demo.careless_provider). split.
  - right. left. reflexivity.
  - simpl. right. left. reflexivity.
Defined.

Lemma fetchTools_fst (c : Client) (s s0 : Session) :
  fst (ToolManager.fetchTools c s) = fst (ToolManager.fetchTools c s0).
Proof.
  unfold ToolManager.fetchTools.
  destruct (listTools c) as [[| | items] | e]; try reflexivity.
  destruct (ToolManager.all_objects items); reflexivity.
Qed.

Lemma fetchTools_normal (c : Client) (s : Session) :
  exists r, fst (ToolManager.fetchTools c s) = Normal r.
Proof.
  destruct (fetchTools_accepted c s) as (r & s' & H & _). exists r. rewrite H. reflexivity.
Qed.

Lemma collect_fst (cs : list (string * Client)) (allMcpTools : list McpTool)
    (m : gmap (option string) Client) (s s0 : Session) :
  fst (ToolManager.collect cs allMcpTools m s)
  = fst (ToolManager.collect cs allMcpTools m s0).
Proof.
  revert allMcpTools m s s0. induction cs as [| [label c] cs IH];
    intros allMcpTools m s s0; simpl; [reflexivity |].
  unfold bind at 1 3.
  pose proof (fetchTools_fst c s s0) as Hf.
  destruct (fetchTools_normal c s) as (r & Hr).
  destruct (ToolManager.fetchTools c s) as [r1 s1].
  destruct (ToolManager.fetchTools c s0) as [r2 s2].
  simpl in Hf, Hr. subst r1. subst r2.
  destruct r as [ts |]; [| apply IH].
  unfold bind. destruct (ToolManager.register c ts m) as [m1 | e]; simpl;
    [apply IH | reflexivity].
Qed.

Lemma collect_ends (cs : list (string * Client)) (allMcpTools : list McpTool)
    (m : gmap (option string) Client) (s : Session) :
  fst (ToolManager.collect cs allMcpTools m s) <> Hang
  /\ fst (ToolManager.collect cs allMcpTools m s) <> OutOfFuel.
Proof.
  revert allMcpTools m s. induction cs as [| [label c] cs IH];
    intros allMcpTools m s; simpl; [split; discriminate |].
  destruct (fetchTools_accepted c s) as (r & s1 & Hfetch & _).
  unfold bind at 1 3. rewrite Hfetch. destruct r as [ts |]; [| apply IH].
  unfold bind. destruct (ToolManager.register c ts m) as [m1 | e]; simpl;
    [apply IH | split; discriminate].
Qed.

Lemma collect_skip (pre post : list (string * Client)) (label : string) (c : Client)
    (allMcpTools : list McpTool) (m : gmap (option string) Client) (s : Session) :
  (forall s0, fst (ToolManager.fetchTools c s0) = Normal None) ->
  fst (ToolManager.collect (pre ++ (label, c) :: post) allMcpTools m s)
  = fst (ToolManager.collect (pre ++ post) allMcpTools m s).
Proof.
  intros Hc. revert allMcpTools m s. induction pre as [| [l0 c0] pre IH];
    intros allMcpTools m s; simpl.
  - unfold bind at 1. specialize (Hc s).
    destruct (ToolManager.fetchTools c s) as [r1 s1]. simpl in Hc. subst r1.
    apply collect_fst.
  - unfold bind at 1 3. destruct (ToolManager.fetchTools c0 s) as [[[ts |] | e | |] s1];
      try reflexivity; [| apply IH].
    unfold bind. destruct (ToolManager.register c0 ts m) as [m1 | e]; simpl;
      [apply IH | reflexivity].
Qed.

Lemma initialize_fst (this : ToolManager) (cs : list (string * Client)) (s : Session) :
  cs <> [] ->
  fst (ToolManager.initialize this cs s)
  = match fst (ToolManager.collect cs [] (toolMap this) s) with
    | Normal (allMcpTools, m) =>
        Normal (mkToolManager m cs
                  (map ToolManager.to_openai (filter ToolManager.has_name allMcpTools)))
    | Throw e => Throw e
    | Hang => Hang
    | OutOfFuel => OutOfFuel
    end.
Proof.
  intros Hne. unfold ToolManager.initialize. destruct cs as [| entry rest]; [contradiction |].
  unfold bind at 1.
  destruct (ToolManager.collect (entry :: rest) [] (toolMap this) s)
    as [[[all m] | e | |] s1]; try reflexivity.
  unfold bind. rewrite convertToOpenaiTools_run. reflexivity.
Qed.

(** X12.  A provider whose tool list cannot be fetched, or is not a list of
    objects, is skipped: with other providers connected, the
    initialisation ends as it does without that provider, with the same
    dispatch table and the same catalog, or the same error. *)
Theorem initialize_skips_failing_provider :
  forall (this : ToolManager) (pre post : list (string * Client)) (label : string)
         (c : Client) (s : Session),
    (forall s0, fst (ToolManager.fetchTools c s0) = Normal None) ->
    pre ++ post <> [] ->
    match fst (ToolManager.initialize this (pre ++ (label, c) :: post) s),
          fst (ToolManager.initialize this (pre ++ post) s) with
    | Normal a, Normal b => toolMap a = toolMap b /\ tools a = tools b
    | Throw e, Throw e' => e = e'
    | _, _ => False
    end.
Proof.
  intros this pre post label c s Hc Hne.
  pose proof (collect_skip pre post label c [] (toolMap this) s Hc) as Hskip.
  destruct (collect_ends (pre ++ (label, c) :: post) [] (toolMap this) s)
    as (Hhang & Hfuel).
  rewrite !initialize_fst by (try exact Hne; destruct pre; discriminate).
  destruct (ToolManager.collect (pre ++ (label, c) :: post) [] (toolMap this) s)
    as [r s1].
  destruct (ToolManager.collect (pre ++ post) [] (toolMap this) s) as [r' s2].
  simpl in Hskip, Hhang, Hfuel. subst r'.
  destruct r as [[all m] | e | |]; simpl; try congruence. split; reflexivity.
Qed.

Lemma initialize_skips_failing_provider_witness :
  match fst (ToolManager.initialize ToolManager.new_ToolManager
               [("web", Demo.web_provider); ("offline", Demo.offline_provider);
                ("docs", Demo.docs_provider)] Demo.empty_session),
        fst (ToolManager.initialize ToolManager.new_ToolManager Demo.two_providers
               Demo.empty_session) with
  | Normal a, Normal b => toolMap a = toolMap b /\ tools a = tools b
  | Throw e, Throw e' => e = e'
  | _, _ => False
  end.
Proof.
  apply (initialize_skips_failing_provider ToolManager.new_ToolManager
           [("web", Demo.web_provider)] [("docs", Demo.docs_provider)]
           "offline" Demo.offline_provider Demo.empty_session).
  - intros s0. reflexivity.
  - discriminate.
Defined.
End CatalogInvariants.


(* ================================================================== *)
(** * More on the executor *)
(* ================================================================== *)

Section ExecutorOutcomes.
Import JS Types Runtime JSFacts.
Variable JSON_parse : string -> Result Json.
Variable timer_first : bool.

Lemma callToolWithTimeout_outcomes (client : Client) (tool_name : string)
    (args : Json) (timeout : option Z) (s : Session) :
  let r := ToolManager.callToolWithTimeout JSON_parse timer_first client tool_name
             args timeout s in
  snd r = provider_called s
  /\ match fst r with
     | Normal _ => True
     | Throw e => String.prefix "Tool call failed: " (message e) = true
     | Hang | OutOfFuel => False
     end.
Proof.
  unfold ToolManager.callToolWithTimeout, bind, provider_call. cbn zeta.
  destruct (race_with_timer _ _ _ _) as [result | error]; split;
    try reflexivity; try exact I.
  apply prefix_spec. eexists. reflexivity.
Qed.

(** X13.  [executeToolCall] always ends, never touches the transcript and
    never consults the model.  It returns a text only for a name of the
    dispatch table and after exactly one request to the provider; it
    throws either before any request was made, or after that one
    request with a message that starts with ["Tool call failed: "]. *)
Theorem executeToolCall_outcomes :
  forall (this : ToolManager) (toolCall : ToolCall) (s : Session),
    let r := ToolManager.executeToolCall JSON_parse timer_first this toolCall s in
    messages (snd r) = messages s
    /\ model_calls (snd r) = model_calls s
    /\ match fst r with
       | Normal _ =>
           is_Some (toolMap this !! Some (call_name toolCall))
           /\ provider_calls (snd r) = S (provider_calls s)
       | Throw e =>
           provider_calls (snd r) = provider_calls s
           \/ (provider_calls (snd r) = S (provider_calls s)
               /\ String.prefix "Tool call failed: " (message e) = true)
       | Hang | OutOfFuel => False
       end.
Proof.
  intros this toolCall s.
  remember (ToolManager.executeToolCall JSON_parse timer_first this toolCall s) as r
    eqn:Hrun.
  cbn zeta. unfold ToolManager.executeToolCall, bind in Hrun.
  assert (Hparse :
    (exists args, ToolManager.parseToolCall JSON_parse toolCall s
                  = (Normal (call_name toolCall, args), s))
    \/ (exists e s', ToolManager.parseToolCall JSON_parse toolCall s = (Throw e, s')
                     /\ messages s' = messages s /\ model_calls s' = model_calls s
                     /\ provider_calls s' = provider_calls s)).
  { unfold ToolManager.parseToolCall.
    destruct (truthy (call_name toolCall)); simpl;
      [| right; do 2 eexists; split; [reflexivity | auto]].
    destruct (call_arguments toolCall) as [| b | x | raw | items | props];
      try (left; eexists; reflexivity).
    destruct (JSON_parse raw) as [v | e]; [left; eexists; reflexivity |].
    right. do 2 eexists. split; [reflexivity | auto]. }
  destruct Hparse as [(args & Hp) | (e & s' & Hp & Hm & Hc & Hn)];
    rewrite Hp in Hrun; [| subst r; simpl; auto].
  destruct (toolMap this !! Some (call_name toolCall)) as [client |] eqn:Hlookup;
    [| subst r; simpl; auto].
  destruct (callToolWithTimeout_outcomes client (call_name toolCall) args None s)
    as (Hs & Hr).
  destruct (ToolManager.callToolWithTimeout _ _ _ _ _ _ _) as [[result | e | |] s1];
    simpl in Hs, Hr; subst s1 r; simpl; try contradiction; repeat split; eauto.
Qed.
End ExecutorOutcomes.

(* ================================================================== *)
(** * Reconciliation followed by renaming *)
(* ================================================================== *)

Section ReconcileThenRename.
Import JS Types Runtime JSFacts.

Lemma set_prop_keys {A : Type} (k k' : string) (v : A) (o : Obj A) :
  In k' (map fst (set_prop k v o)) -> k' = k \/ In k' (map fst o).
Proof.
  rewrite <- !has_own_In. unfold has_own. rewrite get_own_set_prop.
  destruct (k =? "__proto__"); [auto |].
  string_cases k k'; [auto |]. auto.
Qed.

Lemma fix_fold_keys (mappings : Obj string) (entries fixedArgs : Obj Json) (k : string) :
  In k (map fst (fold_left (fun acc '(key, value) =>
                              set_prop (ChatManager.mappedKey mappings key) value acc)
                           entries fixedArgs)) ->
  In k (map fst fixedArgs)
  \/ exists key, In key (map fst entries) /\ k = ChatManager.mappedKey mappings key.
Proof.
  revert fixedArgs. induction entries as [| [key value] entries IH];
    intros fixedArgs; simpl; [auto |].
  intros H. apply IH in H as [H | (key' & Hin & ->)].
  - apply set_prop_keys in H as [-> | H]; [| auto].
    right. exists key. auto.
  - right. exists key'. auto.
Qed.

Section Declared.
Variable declared : list string.

(** The key a provided key is renamed to gets no suggestion itself. *)
Lemma mapped_key_settled (ks : list string) (key : string) (m : Obj string) :
  In key ks ->
  inherited key = false ->
  ToolManager.suggest_step declared m
    (ChatManager.mappedKey (fold_left (ToolManager.suggest_step declared) ks []) key)
  = m.
Proof.
  intros Hin Hkey. rewrite mappedKey_final_key by exact Hkey.
  unfold Spec.final_key. rewrite suggest_fold_get. simpl get_own.
  assert (Hsame : ToolManager.suggest_step declared m key = m
                  \/ exists p, ToolManager.findMostSimilarParameter key declared = Some p
                               /\ truthy p = true).
  { unfold ToolManager.suggest_step.
    destruct (existsb (String.eqb key) declared); [auto |].
    destruct (ToolManager.findMostSimilarParameter key declared) as [p |]; [| auto].
    destruct (truthy p) eqn:Hp; [right; exists p; auto | auto]. }
  destruct (existsb (String.eqb key) ks && negb (existsb (String.eqb key) declared)
            && negb (key =? "__proto__"))%bool eqn:Hguard.
  - apply andb_prop in Hguard as [Hguard _]. apply andb_prop in Hguard as [_ Hd].
    apply negb_true_iff in Hd.
    destruct (ToolManager.findMostSimilarParameter key declared) as [p |] eqn:Hfind.
    + destruct (truthy p) eqn:Hp.
      * unfold truthy in Hp. apply negb_true_iff in Hp. rewrite Hp.
        unfold ToolManager.findMostSimilarParameter in Hfind.
        apply find_some in Hfind as [Hp_in _].
        unfold ToolManager.suggest_step.
        apply existsb_eqb_In in Hp_in. rewrite Hp_in. reflexivity.
      * destruct Hsame as [H | (p' & [= <-] & Hp')]; [exact H | congruence].
    + destruct Hsame as [H | (p' & Hp' & _)]; [exact H | discriminate].
  - destruct Hsame as [H | (p & Hfind & Hp)]; [exact H |].
    unfold ToolManager.suggest_step.
    destruct (existsb (String.eqb key) declared) eqn:Hd; [reflexivity |].
    exfalso. apply existsb_eqb_In in Hin.
    assert (Hproto : (key =? "__proto__") = false).
    { unfold inherited in Hkey. destruct (key =? "__proto__"); [discriminate | reflexivity]. }
    rewrite Hin, Hproto in Hguard. discriminate.
Qed.

Lemma settled_fold (keys : list string) (m : Obj string) :
  (forall k, In k keys -> forall m0, ToolManager.suggest_step declared m0 k = m0) ->
  fold_left (ToolManager.suggest_step declared) keys m = m.
Proof.
  revert m. induction keys as [| k keys IH]; intros m H; simpl; [reflexivity |].
  rewrite H by (left; reflexivity). apply IH. intros k' Hk'. apply H. right. exact Hk'.
Qed.
End Declared.

(** X14.  One round of reconciliation is enough.  When no provided key names
    a member that objects inherit, the reconciler has nothing to suggest
    for the arguments that were renamed by its own suggestions. *)
Theorem reconciliation_settles :
  forall (this : ToolManager) (toolName : string) (args : Json)
         (mapping : Obj string) (fixedArgs : Obj Json),
    ToolManager.suggestParameterMapping this toolName args = Ok mapping ->
    ChatManager.fixToolArguments args mapping = Ok fixedArgs ->
    (forall ks, Object_keys args = Ok ks ->
                forall key, In key ks -> inherited key = false) ->
    ToolManager.suggestParameterMapping this toolName (JObj fixedArgs) = Ok [].
Proof.
  intros this toolName args mapping fixedArgs Hsuggest Hfix Hkeys.
  unfold ToolManager.suggestParameterMapping in *.
  destruct (ToolManager.getToolParameterInfo this toolName) as [t |]; [| reflexivity].
  unfold ChatManager.fixToolArguments in Hfix. unfold Object_keys in *.
  destruct (Object_entries args) as [entries | e]; [| discriminate].
  injection Hsuggest as <-. injection Hfix as <-.
  simpl. f_equal. apply settled_fold. intros k Hk m0.
  apply fix_fold_keys in Hk as [[] | (key & Hin & ->)].
  apply mapped_key_settled; [exact Hin |]. apply (Hkeys _ eq_refl key Hin).
Qed.

Lemma reconciliation_settles_witness :
  ToolManager.suggestParameterMapping Demo.search_catalog "search"
    (JObj [("Query", JStr "cats"); ("limit", JNum 5)]) = Ok [("Query", "query")]
  /\ ChatManager.fixToolArguments (JObj [("Query", JStr "cats"); ("limit", JNum 5)])
       [("Query", "query")] = Ok [("query", JStr "cats"); ("limit", JNum 5)]
  /\ ToolManager.suggestParameterMapping Demo.search_catalog "search"
       (JObj [("query", JStr "cats"); ("limit", JNum 5)]) = Ok [].
Proof.
  split; [reflexivity |]. split; [reflexivity |].
  apply (reconciliation_settles Demo.search_catalog "search"
           (JObj [("Query", JStr "cats"); ("limit", JNum 5)]) [("Query", "query")]).
  - reflexivity.
  - reflexivity.
  - intros ks [= <-] key [<- | [<- | []]]; reflexivity.
Defined.

(** X15.  Renaming never invents a key: when no provided key names a member
    that objects inherit, every key of the arguments that are sent to
    the provider is a provided key or a declared parameter of the
    tool. *)
Theorem renamed_keys_are_provided_or_declared :
  forall (this : ToolManager) (toolName : string) (args : Json) (ks : list string)
         (mapping : Obj string) (fixedArgs : Obj Json),
    ToolManager.suggestParameterMapping this toolName args = Ok mapping ->
    ChatManager.fixToolArguments args mapping = Ok fixedArgs ->
    Object_keys args = Ok ks ->
    (forall key, In key ks -> inherited key = false) ->
    forall k, In k (map fst fixedArgs) ->
      In k ks
      \/ exists t, ToolManager.getToolParameterInfo this toolName = Some t
                   /\ In k (Object_keys_of (properties t)).
Proof.
  intros this toolName args ks mapping fixedArgs Hsuggest Hfix Hks Hkeys k Hk.
  unfold ToolManager.suggestParameterMapping in Hsuggest.
  unfold ChatManager.fixToolArguments in Hfix. unfold Object_keys in *.
  destruct (Object_entries args) as [entries | e]; [| discriminate].
  injection Hks as <-. injection Hfix as <-.
  apply fix_fold_keys in Hk as [[] | (key & Hin & ->)].
  rewrite mappedKey_final_key by (apply Hkeys, Hin). unfold Spec.final_key.
  destruct (ToolManager.getToolParameterInfo this toolName) as [t |];
    injection Hsuggest as <-; [| left; exact Hin].
  rewrite suggest_fold_get. simpl get_own.
  destruct (_ && _ && _)%bool; [| left; exact Hin].
  destruct (ToolManager.findMostSimilarParameter key _) as [p |] eqn:Hfind;
    [| left; exact Hin].
  destruct (truthy p) eqn:Hp; [| left; exact Hin].
  unfold truthy in Hp. apply negb_true_iff in Hp. rewrite Hp.
  right. exists t. split; [reflexivity |].
  unfold ToolManager.findMostSimilarParameter in Hfind.
  apply find_some in Hfind as [Hp_in _]. exact Hp_in.
Qed.

Lemma renamed_keys_are_provided_or_declared_witness :
  In "query" ["Query"; "limit"]
  \/ exists t, ToolManager.getToolParameterInfo Demo.search_catalog "search" = Some t
               /\ In "query" (Object_keys_of (properties t)).
Proof.
  apply (renamed_keys_are_provided_or_declared Demo.search_catalog "search"
           (JObj [("Query", JStr "cats"); ("limit", JNum 5)]) ["Query"; "limit"]
           [("Query", "query")] [("query", JStr "cats"); ("limit", JNum 5)]).
  - reflexivity.
  - reflexivity.
  - reflexivity.
  - intros key [<- | [<- | []]]; reflexivity.
  - left. reflexivity.
Defined.

(** X16.  A provided key that is empty once its underscores and hyphens are
    removed, such as the empty key or ["_"], is similar to every name:
    unless it is itself declared, it is renamed to the first declared
    parameter. *)
Theorem blank_key_takes_first_parameter :
  forall (this : ToolManager) (toolName : string) (t : OpenAiTool) (args : Json)
         (ks : list string) (k first : string) (others : list string),
    ToolManager.getToolParameterInfo this toolName = Some t ->
    Object_keys_of (properties t) = first :: others ->
    first <> "" ->
    Object_keys args = Ok ks ->
    In k ks ->
    ~ In k (first :: others) ->
    ToolManager.normalize k = "" ->
    exists mapping,
      ToolManager.suggestParameterMapping this toolName args = Ok mapping
      /\ get_own k mapping = Some first.
Proof.
  intros this toolName t args ks k first others Htool Hdecl Hfirst Hks Hin Hnot Hblank.
  unfold ToolManager.suggestParameterMapping. rewrite Htool, Hks, Hdecl.
  eexists. split; [reflexivity |]. rewrite suggest_fold_get.
  apply existsb_eqb_In in Hin. rewrite Hin.
  destruct (existsb (String.eqb k) (first :: others)) eqn:Hd;
    [apply existsb_eqb_In in Hd; contradiction |].
  assert (Hproto : (k =? "__proto__") = false).
  { string_cases k "__proto__"; [subst k; discriminate | reflexivity]. }
  rewrite Hproto. simpl andb. cbv iota.
  unfold ToolManager.findMostSimilarParameter. simpl find. rewrite Hblank.
  assert (Hinc : includes (ToolManager.normalize first) "" = true).
  { apply includes_spec. exists "", (ToolManager.normalize first). reflexivity. }
  rewrite Hinc. simpl. apply truthy_iff in Hfirst. rewrite Hfirst. reflexivity.
Qed.

Lemma blank_key_takes_first_parameter_witness :
  exists mapping,
    ToolManager.suggestParameterMapping Demo.search_catalog "search"
      (JObj [("_", JStr "cats")]) = Ok mapping
    /\ get_own "_" mapping = Some "query".
Proof.
  apply (blank_key_takes_first_parameter Demo.search_catalog "search" Demo.search_tool
           (JObj [("_", JStr "cats")]) ["_"] "_" "query" []).
  - reflexivity.
  - reflexivity.
  - discriminate.
  - reflexivity.
  - left. reflexivity.
  - intros [H | []]. discriminate.
  - reflexivity.
Defined.
End ReconcileThenRename.


(* ================================================================== *)
(** * Starting the providers *)
(* ================================================================== *)

Section StartupFacts.
Import JS Types Runtime JSFacts.

(** X17.  [resolveCommand] only ever gives a command that is installed: the
    requested one whenever it is installed, else the first installed
    one in the fixed list of alternatives, whatever family the
    requested command belongs to; it throws only when neither the
    command nor any alternative is installed. *)
Theorem resolveCommand_gives_installed :
  forall (validateCommand : string -> bool) (cmd : string) (s : Session),
    match fst (ToolManager.resolveCommand validateCommand cmd s) with
    | Normal resolved =>
        validateCommand resolved = true
        /\ (validateCommand cmd = true -> resolved = cmd)
        /\ (validateCommand cmd = false ->
            exists before after,
              ToolManager.alternatives = before ++ resolved :: after
              /\ forall alt, In alt before -> validateCommand alt = false)
    | Throw _ =>
        validateCommand cmd = false
        /\ forall alt, In alt ToolManager.alternatives -> validateCommand alt = false
    | Hang | OutOfFuel => False
    end.
Proof.
  intros validateCommand cmd s. unfold ToolManager.resolveCommand.
  destruct (validateCommand cmd) eqn:Hcmd.
  - simpl. split; [exact Hcmd | split]; [reflexivity | discriminate].
  - destruct (find validateCommand ToolManager.alternatives) as [alt |] eqn:Hfind;
      unfold bind, log, ret, throw; simpl.
    + pose proof Hfind as Hfirst. apply find_first in Hfirst as (before & after & H & Halt & Hb).
      split; [exact Halt | split]; [discriminate |].
      intros _. exists before, after. split; [exact H | exact Hb].
    + split; [reflexivity |]. intros alt Hin.
      apply (find_none _ _ Hfind alt Hin).
Qed.

Lemma fromEntries_get {A : Type} (entries : list (string * A)) (acc : Obj A)
    (k : string) (v : A) :
  List.NoDup (map fst entries) ->
  get_own k (fold_left (fun o '(k, v) => define_own k v o) entries acc) = Some v
  <-> In (k, v) entries \/ (~ In k (map fst entries) /\ get_own k acc = Some v).
Proof.
  revert acc. induction entries as [| [k0 v0] entries IH]; intros acc Hnd; simpl.
  - split; [auto | intros [[] | [_ H]]; exact H].
  - apply NoDup_cons_iff in Hnd as [Hnew Hnd]. rewrite (IH _ Hnd), get_own_define_own.
    string_cases k0 k.
    + subst k0. split.
      * intros [H | [_ [= <-]]]; [auto | auto].
      * intros [[[= <-] | H] | [H _]].
        -- right. split; [exact Hnew | reflexivity].
        -- exfalso. apply Hnew. apply (in_map fst) in H. exact H.
        -- exfalso. apply H. left. reflexivity.
    + split.
      * intros [H | [H1 H2]]; [auto |]. right. split; [| exact H2].
        intros [H | H]; [congruence | contradiction].
      * intros [[[= -> _] | H] | [H1 H2]]; [congruence | auto |].
        right. split; [| exact H2]. intros H. apply H1. right. exact H.
Qed.

Lemma inherited_entry_spec (entry : string * option string) (k v : string) :
  In (k, v) (ToolManager.inherited_entry entry)
  <-> entry = (k, Some v)
      /\ In k ToolManager.DEFAULT_INHERITED_ENV_VARS
      /\ String.prefix "()" v = false.
Proof.
  unfold ToolManager.inherited_entry. destruct entry as [key [value |]].
  - destruct (existsb (String.eqb key) ToolManager.DEFAULT_INHERITED_ENV_VARS) eqn:Hk;
      destruct (String.prefix "()" value) eqn:Hv; cbn [andb negb]; split;
      try (intros []; fail).
    + intros ([= -> ->] & H1 & H2). congruence.
    + intros [[= -> ->] | []]. apply existsb_eqb_In in Hk. auto.
    + intros ([= -> ->] & H1 & H2). left. reflexivity.
    + intros ([= -> ->] & H1 & H2). apply existsb_eqb_In in H1. congruence.
    + intros ([= -> ->] & H1 & H2). apply existsb_eqb_In in H1. congruence.
  - split; [intros [] | intros ([=] & _)].
Qed.

Lemma inherited_keys (process_env : Obj (option string)) (k : string) :
  In k (map fst (flat_map ToolManager.inherited_entry process_env)) ->
  In k (map fst process_env).
Proof.
  intros H. apply in_map_iff in H as ([k' v] & <- & Hin).
  apply in_flat_map in Hin as (entry & Hentry & Hin).
  apply inherited_entry_spec in Hin as (-> & _). apply (in_map fst) in Hentry. exact Hentry.
Qed.

Lemma inherited_NoDup (process_env : Obj (option string)) :
  List.NoDup (map fst process_env) ->
  List.NoDup (map fst (flat_map ToolManager.inherited_entry process_env)).
Proof.
  induction process_env as [| [key value] rest IH]; intros Hnd; [constructor |].
  simpl in Hnd. cbn [flat_map].
  apply NoDup_cons_iff in Hnd as [Hnew Hnd]. rewrite map_app.
  assert (Hhead : ToolManager.inherited_entry (key, value) = []
                  \/ exists v, ToolManager.inherited_entry (key, value) = [(key, v)]).
  { unfold ToolManager.inherited_entry. destruct value as [v |]; [| auto].
    destruct (_ && _)%bool; [right; exists v; reflexivity | auto]. }
  destruct Hhead as [-> | (v & ->)]; simpl; [apply IH, Hnd |].
  constructor; [| apply IH, Hnd]. intros H. apply Hnew, inherited_keys, H.
Qed.

(** X18.  The environment handed to a server that configures none holds
    exactly the variables of the process whose name is one of the six
    inherited names and whose value is set and does not start with
    ["()"]: no other variable of the process leaks to the server. *)
Theorem getDefaultEnvironment_inherits :
  forall (process_env : Obj (option string)) (k v : string),
    List.NoDup (map fst process_env) ->
    (get_own k (ToolManager.getDefaultEnvironment process_env) = Some v
     <-> In k ToolManager.DEFAULT_INHERITED_ENV_VARS
         /\ In (k, Some v) process_env
         /\ String.prefix "()" v = false).
Proof.
  intros process_env k v Hnd.
  unfold ToolManager.getDefaultEnvironment, Object_fromEntries.
  rewrite fromEntries_get by (apply inherited_NoDup, Hnd). simpl get_own.
  rewrite in_flat_map. split.
  - intros [(entry & Hentry & Hin) | [_ H]]; [| discriminate].
    apply inherited_entry_spec in Hin as (-> & Hk & Hv). auto.
  - intros (Hk & Hin & Hv). left. exists (k, Some v). split; [exact Hin |].
    apply inherited_entry_spec. auto.
Qed.

Lemma getDefaultEnvironment_inherits_witness :
  (get_own "PATH" (ToolManager.getDefaultEnvironment Demo.shell_env) = Some "/usr/bin"
   <-> In "PATH" ToolManager.DEFAULT_INHERITED_ENV_VARS
       /\ In ("PATH", Some "/usr/bin") Demo.shell_env
       /\ String.prefix "()" "/usr/bin" = false)
  /\ ToolManager.getDefaultEnvironment Demo.shell_env
     = [("HOME", "/home/u"); ("PATH", "/usr/bin")].
Proof.
  split; [| reflexivity].
  apply (getDefaultEnvironment_inherits Demo.shell_env "PATH" "/usr/bin").
  repeat constructor; simpl; intuition discriminate.
Defined.

Lemma resolveCommand_gives_installed_witness :
  fst (ToolManager.resolveCommand (Demo.installed ["npm"; "pip"]) "uvx" Demo.empty_session)
  = Normal "npm"
  /\ Demo.installed ["npm"; "pip"] "npm" = true.
Proof.
  split; [reflexivity |].
  pose proof (resolveCommand_gives_installed (Demo.installed ["npm"; "pip"]) "uvx"
                Demo.empty_session) as H.
  exact (proj1 H).
Defined.

Section Connecting.
Variable validateCommand : string -> bool.
Variable process_env : Obj (option string).
Variable connect : string -> string -> list string -> Obj string -> Result Client.

Lemma resolveCommand_installed_fst (cmd : string) (s : Session) :
  match fst (ToolManager.resolveCommand validateCommand cmd s) with
  | Normal resolved => validateCommand resolved = true
  | _ => True
  end.
Proof.
  unfold ToolManager.resolveCommand. destruct (validateCommand cmd) eqn:Hcmd; [exact Hcmd |].
  destruct (find validateCommand ToolManager.alternatives) as [alt |] eqn:Hfind;
    [| exact I].
  apply find_some in Hfind as [_ Halt]. exact Halt.
Qed.

Lemma resolveCommand_normal (cmd resolved : string) (s s' : Session) :
  ToolManager.resolveCommand validateCommand cmd s = (Normal resolved, s') ->
  validateCommand resolved = true.
Proof.
  intros H.
  pose proof (resolveCommand_installed_fst cmd s) as Hi. rewrite H in Hi. exact Hi.
Qed.

Lemma connect_each_spec (servers : Obj ToolManager.ServerConfig)
    (connected cs : list (string * Client)) (s s' : Session) :
  List.NoDup (map fst servers) ->
  (forall k, In k (map fst connected) -> ~ In k (map fst servers)) ->
  ToolManager.connect_each validateCommand process_env connect servers connected s
  = (Normal cs, s') ->
  exists new,
    cs = connected ++ new
    /\ Forall2 (fun server entry =>
                  fst entry = fst server
                  /\ exists resolved,
                       validateCommand resolved = true
                       /\ connect (fst server) resolved
                                  (match ToolManager.args (snd server) with
                                   | Some a => a
                                   | None => []
                                   end)
                                  (match ToolManager.env (snd server) with
                                   | Some e => e
                                   | None => ToolManager.getDefaultEnvironment process_env
                                   end)
                          = Ok (snd entry))
               servers new.
Proof.
  revert connected s. induction servers as [| [serverName serverConfig] rest IH];
    intros connected s Hnd Hdisj; simpl.
  - intros [= <- _]. exists []. rewrite app_nil_r. split; [reflexivity | constructor].
  - unfold bind at 1.
    destruct (ToolManager.resolveCommand validateCommand _ s)
      as [[resolved | e | |] s1] eqn:Hres; try discriminate.
    unfold bind at 1.
    destruct (connect serverName resolved _ _) as [client | e] eqn:Hconn; simpl;
      [| discriminate].
    assert (Hset : Map_set serverName client connected
                   = connected ++ [(serverName, client)]).
    { unfold Map_set.
      destruct (has_own serverName connected) eqn:Hown; [| reflexivity].
      apply has_own_In in Hown. exfalso.
      apply (Hdisj serverName Hown). left. reflexivity. }
    simpl in Hnd. apply NoDup_cons_iff in Hnd as [Hnew Hnd].
    rewrite Hset. intros Hrest. apply IH in Hrest as (new & -> & Hall).
    + exists ((serverName, client) :: new). rewrite <- app_assoc. split; [reflexivity |].
      constructor; [| exact Hall]. split; [reflexivity |].
      exists resolved. split; [exact (resolveCommand_normal _ _ _ _ Hres) | exact Hconn].
    + exact Hnd.
    + intros k Hk Hin. rewrite map_app in Hk. apply in_app_or in Hk as [Hk | [<- | []]].
      * apply (Hdisj k Hk). right. exact Hin.
      * exact (Hnew Hin).
Qed.
End Connecting.

(** X19.  When [createMcpClients] returns, every server of the configuration
    has its client, in the order of the configuration, and each client
    was connected with a command that is installed; a server whose
    command cannot be resolved, or that fails to connect, leaves no map
    at all. *)
Theorem createMcpClients_connects_every_server :
  forall (validateCommand : string -> bool) (process_env : Obj (option string))
         (connect : string -> string -> list string -> Obj string -> Result Client)
         (mcpServers : Obj ToolManager.ServerConfig)
         (clients : list (string * Client)) (s s' : Session),
    List.NoDup (map fst mcpServers) ->
    ToolManager.createMcpClients validateCommand process_env connect mcpServers s
    = (Normal clients, s') ->
    Forall2 (fun server entry =>
               fst entry = fst server
               /\ exists resolved,
                    validateCommand resolved = true
                    /\ connect (fst server) resolved
                               (match ToolManager.args (snd server) with
                                | Some a => a
                                | None => []
                                end)
                               (match ToolManager.env (snd server) with
                                | Some e => e
                                | None => ToolManager.getDefaultEnvironment process_env
                                end)
                       = Ok (snd entry))
            mcpServers clients.
Proof.
  intros validateCommand process_env connect mcpServers clients s s' Hnd Hrun.
  apply connect_each_spec in Hrun as (new & -> & Hall);
    [exact Hall | exact Hnd | intros k []].
Qed.

Lemma createMcpClients_connects_every_server_witness :
  exists clients,
    fst (ToolManager.createMcpClients (Demo.installed ["node"; "uvx"]) Demo.shell_env
           Demo.launcher Demo.two_servers Demo.empty_session) = Normal clients
    /\ map fst clients = ["web"; "docs"]
    /\ length clients = length Demo.two_servers.
Proof.
  eexists. split; [reflexivity |]. split; [reflexivity |].
  symmetry. eapply Forall2_length.
  eapply (createMcpClients_connects_every_server (Demo.installed ["node"; "uvx"])
            Demo.shell_env Demo.launcher Demo.two_servers _ Demo.empty_session).
  - repeat constructor; simpl; intuition discriminate.
  - reflexivity.
Defined.
End StartupFacts.


(* ================================================================== *)
(** * The text of a result and of a diagnostic *)
(* ================================================================== *)

Section ResultText.
Import JS Types Runtime JSFacts.

Lemma append_empty (a b : string) : a +:+ b = "" -> a = "".
Proof. destruct a; [reflexivity | discriminate]. Qed.

Lemma append_nil_r (a : string) : a +:+ "" = a.
Proof.
  induction a as [| c a IH]; [reflexivity |].
  change (String c (a +:+ "") = String c a). rewrite IH. reflexivity.
Qed.

Lemma concat_cons (sep x : string) (xs : list string) :
  Spec.substring x (String.concat sep (x :: xs)).
Proof.
  destruct xs as [| y ys]; simpl.
  - exists "", "". rewrite append_nil_r. reflexivity.
  - apply substring_here.
Qed.

Lemma filter_In_bool {A : Type} (f : A -> bool) (l : list A) (x : A) :
  In x (filter f l) <-> In x l /\ f x = true.
Proof.
  rewrite <- !list_elem_of_In, list_elem_of_filter, Is_true_true. tauto.
Qed.

Lemma concat_member (sep x : string) (xs : list string) :
  In x xs -> Spec.substring x (String.concat sep xs).
Proof.
  induction xs as [| y ys IH]; [intros [] |].
  intros [-> | Hin]; [apply concat_cons |].
  destruct ys as [| z zs]; [destruct Hin |].
  change (Spec.substring x (y +:+ sep +:+ String.concat sep (z :: zs))).
  do 2 apply substring_after. apply IH, Hin.
Qed.

Lemma concat_empty (sep : string) (xs : list string) :
  Forall (fun x => x <> "") xs ->
  String.concat sep xs = "" -> xs = [].
Proof.
  destruct xs as [| x xs]; [reflexivity |].
  intros Hall. apply Forall_cons_1 in Hall as [Hx _].
  destruct xs as [| y ys]; simpl; [congruence |].
  intros H. apply append_empty in H. contradiction.
Qed.

Lemma item_text_not_empty (item : option ContentBlock) :
  toolTypes.item_text item <> "".
Proof.
  unfold toolTypes.item_text. destruct item as [[ty [t |]] |]; try discriminate.
  destruct (truthy t) eqn:Ht; [apply truthy_iff, Ht | discriminate].
Qed.

(** X20.  The flattened text of an array result loses no text block: the
    text of every block of type [text] that has one is part of it, and
    it is empty exactly when the array has no block of type [text]. *)
Theorem formatToolResponse_keeps_text_blocks :
  forall (items : list (option ContentBlock)),
    (forall ty text, In (Some (mkBlock ty (Some text))) items -> ty = "text" ->
                     text <> "" ->
                     Spec.substring text (toolTypes.formatToolResponse (ContentArray items)))
    /\ (toolTypes.formatToolResponse (ContentArray items) = ""
        <-> forall item, In item items -> toolTypes.is_text_item item = false).
Proof.
  intros items. unfold toolTypes.formatToolResponse. split.
  - intros ty text Hin -> Htext. apply concat_member.
    apply (in_map_iff toolTypes.item_text). exists (Some (mkBlock "text" (Some text))).
    split.
    + unfold toolTypes.item_text. apply truthy_iff in Htext. rewrite Htext. reflexivity.
    + apply filter_In_bool. split; [exact Hin | reflexivity].
  - split.
    + intros Hempty item Hin. apply not_true_is_false. intros Htext.
      apply concat_empty in Hempty.
      * assert (Hmem : In (toolTypes.item_text item)
                          (map toolTypes.item_text (filter toolTypes.is_text_item items))).
        { apply in_map, filter_In_bool. auto. }
        rewrite Hempty in Hmem. destruct Hmem.
      * apply List.Forall_forall. intros x Hx. apply in_map_iff in Hx as (item' & <- & _).
        apply item_text_not_empty.
    + intros Hnone.
      assert (Hfilter : filter toolTypes.is_text_item items = []).
      { destruct (filter toolTypes.is_text_item items) as [| item rest] eqn:Hf;
          [reflexivity |].
        assert (Hin : In item (filter toolTypes.is_text_item items))
          by (rewrite Hf; left; reflexivity).
        apply filter_In_bool in Hin as [Hin Htext].
        rewrite (Hnone item Hin) in Htext. discriminate. }
      rewrite Hfilter. reflexivity.
Qed.

Lemma formatToolResponse_keeps_text_blocks_witness :
  Spec.substring "Error: one entry unreadable"
    (toolTypes.formatToolResponse
       (ContentArray [Some (mkBlock "image" None);
                      Some (mkBlock "text" (Some "3 files found"));
                      None;
                      Some (mkBlock "text" (Some "Error: one entry unreadable"))])).
Proof.
  apply (proj1 (formatToolResponse_keeps_text_blocks _) "text").
  - right. right. right. left. reflexivity.
  - reflexivity.
  - discriminate.
Defined.

(** X21.  The handler's test is stricter than a search of the flattened
    text: whenever a result is taken for a soft failure, its flattened
    text contains the error text, and with it the marker ["Error"]. *)
Theorem soft_failure_shows_in_flattened_text :
  forall (resultContent : Content) (errorText : string),
    ChatManager.soft_failure resultContent = Some errorText ->
    Spec.substring errorText (toolTypes.formatToolResponse resultContent)
    /\ Spec.substring "Error" (toolTypes.formatToolResponse resultContent).
Proof.
  intros resultContent errorText. unfold ChatManager.soft_failure.
  destruct resultContent as [[| [[ty [text |]] |] rest] | rendered t]; try discriminate.
  destruct (ty =? "text") eqn:Hty; simpl andb; [| discriminate].
  destruct (includes text "Error") eqn:Hinc; [| discriminate].
  intros [= <-]. apply String.eqb_eq in Hty. subst ty.
  apply includes_spec in Hinc.
  assert (Htext : text <> "").
  { intros ->. destruct Hinc as (before & after & H). destruct before; discriminate. }
  assert (Hsub : Spec.substring text
                   (toolTypes.formatToolResponse
                      (ContentArray (Some (mkBlock "text" (Some text)) :: rest)))).
  { unfold toolTypes.formatToolResponse. apply concat_member, in_map_iff.
    exists (Some (mkBlock "text" (Some text))). split.
    - unfold toolTypes.item_text. apply truthy_iff in Htext. rewrite Htext. reflexivity.
    - apply filter_In_bool. split; [left; reflexivity | reflexivity]. }
  split; [exact Hsub |].
  destruct Hsub as (b1 & a1 & ->). destruct Hinc as (b2 & a2 & ->).
  exists (b1 +:+ b2), (a2 +:+ a1). rewrite !append_assoc. reflexivity.
Qed.

Lemma soft_failure_shows_in_flattened_text_witness :
  Spec.substring "Error"
    (toolTypes.formatToolResponse
       (ContentArray [Some (mkBlock "text" (Some "Error: file not found"));
                      Some (mkBlock "text" (Some "try another path"))])).
Proof.
  apply (soft_failure_shows_in_flattened_text
           (ContentArray [Some (mkBlock "text" (Some "Error: file not found"));
                          Some (mkBlock "text" (Some "try another path"))])
           "Error: file not found").
  reflexivity.
Defined.

Lemma concat_map_member {A : Type} (f : A -> string) (x : A) (l : list A) :
  In x l -> Spec.substring (f x) (String.concat "" (map f l)).
Proof. intros H. apply concat_member, in_map, H. Qed.

(** X22.  The diagnostic for a tool of the catalog names every suggestion:
    for each renaming the reconciler proposes it has the line
    [- provided → suggested]. *)
Theorem diagnostic_lists_every_suggestion :
  forall (toolName errorText : string) (info : OpenAiTool) (args : Json)
         (suggestedMappings : Obj string) (provided suggested : string),
    In (provided, suggested) suggestedMappings ->
    Spec.substring
      ("- " +:+ provided +:+ " " +:+ ChatManager.arrow +:+ " " +:+ suggested +:+ nl)
      (ChatManager.createDetailedErrorMessage toolName errorText (Some info) args
                                              suggestedMappings).
Proof.
  intros toolName errorText info args suggestedMappings provided suggested Hin.
  unfold ChatManager.createDetailedErrorMessage.
  destruct suggestedMappings as [| entry rest] eqn:Hm; [destruct Hin |].
  rewrite <- Hm in *. clear Hm.
  repeat apply substring_after.
  apply (concat_map_member
           (fun '(provided, suggested) =>
              "- " +:+ provided +:+ " " +:+ ChatManager.arrow +:+ " " +:+ suggested +:+ nl)
           (provided, suggested)).
  exact Hin.
Qed.

Lemma diagnostic_lists_every_suggestion_witness :
  Spec.substring
    ("- q " +:+ ChatManager.arrow +:+ " query" +:+ nl)
    (ChatManager.createDetailedErrorMessage "search" "Error: missing query"
       (Some Demo.search_tool) (JObj [("q", JStr "cats")]) [("q", "query")]).
Proof.
  apply (diagnostic_lists_every_suggestion "search" "Error: missing query"
           Demo.search_tool (JObj [("q", JStr "cats")]) [("q", "query")] "q" "query").
  left. reflexivity.
Defined.
End ResultText.

